(** * Positioning map: point aggregation, label placement and filter engine

    A shallow embedding of [create_plotly_map.py].  The script has two halves:
    the Python half builds the plot (grouping studios that share coordinates,
    placing labels, recording which studios every plotted point stands for),
    and the JavaScript half embedded in the page filters the plot in the
    browser.  Both halves are modelled here, each in its own module.

    Conventions.
    - Python and JavaScript strings are sequences of code units ([list N]).
    - Numbers are exact rationals ([Q]); two numbers are equal when [Qeq_bool]
      says so, which is the [==] of Python on the values the dataset holds.
    - A Python [dict] read with [.get] is a finite map ([gmap]); an absent key
      is [None], a key holding [None] is [Some None]. *)

From Stdlib Require Import QArith Qabs Permutation Sorted.
From stdpp Require Import gmap strings list fin_maps.

Set Default Proof Using "Type".
Local Open Scope Q_scope.
Local Open Scope nat_scope.

(* ===================================================================== *)
(** ** Strings *)
(* ===================================================================== *)

Module Str.

Abbreviation str := (list N).

(** Bytes of a source literal, decoded from UTF-8 to code points. *)
Fixpoint utf8_decode (l : list N) : list N :=
  match l with
  | [] => []
  | b :: r =>
    if (b <? 128)%N then b :: utf8_decode r
    else if (b <? 224)%N then
      match r with
      | c1 :: r1 => ((b - 192) * 64 + (c1 - 128))%N :: utf8_decode r1
      | _ => []
      end
    else if (b <? 240)%N then
      match r with
      | c1 :: c2 :: r2 =>
        ((b - 224) * 4096 + (c1 - 128) * 64 + (c2 - 128))%N :: utf8_decode r2
      | _ => []
      end
    else
      match r with
      | c1 :: c2 :: c3 :: r3 =>
        ((b - 240) * 262144 + (c1 - 128) * 4096 + (c2 - 128) * 64 + (c3 - 128))%N
          :: utf8_decode r3
      | _ => []
      end
  end.

Definition lit (s : string) : str :=
  utf8_decode (List.map Ascii.N_of_ascii (String.list_ascii_of_string s)).

(** [sep.join(parts)] *)
Fixpoint join (sep : str) (parts : list str) : str :=
  match parts with
  | [] => []
  | [p] => p
  | p :: rest => p ++ sep ++ join sep rest
  end.

Definition eqb (a b : str) : bool := bool_decide (a = b).

End Str.
Import Str.

(* ===================================================================== *)
(** ** The Python half: building the plot *)
(* ===================================================================== *)

Module Py.

(** *** Studio records *)

(** One entry of [data["studios"]].  [name], [region] and [original_score]
    are indexed directly in the script ([s["name"]]), so every record has
    them; every other attribute is read with [.get].  [gidx] is the position
    of the record in [studios], which the script recovers from the identity
    of the record through [studio_global_idx]. *)
Record studio := {
  gidx : nat;
  name : str;
  region : str;
  original_score : option Q;
  nums : gmap str (option Q);      (* numeric attributes *)
  cats : gmap str (option str);    (* categorical and text attributes *)
  lists : gmap str (list str);     (* list-valued attributes *)
}.

Definition with_gidx (i : nat) (s : studio) : studio :=
  {| gidx := i; name := name s; region := region s;
     original_score := original_score s;
     nums := nums s; cats := cats s; lists := lists s |}.

Definition with_name (n : str) (s : studio) : studio :=
  {| gidx := gidx s; name := n; region := region s;
     original_score := original_score s;
     nums := nums s; cats := cats s; lists := lists s |}.

(** [studios = data["studios"]] with
    [studio_global_idx = {id(s): i for i, s in enumerate(studios)}] *)
Definition load (raw : list studio) : list studio := imap with_gidx raw.

Definition k_original_score : str := lit "original_score".
Definition k_original_score_founded : str := lit "original_score_founded".
Definition k_size_founded_num : str := lit "size_founded_num".
Definition k_size_current_num : str := lit "size_current_num".
Definition k_ip_ownership_score : str := lit "ip_ownership_score".
Definition k_operating_margin : str := lit "operating_margin".
Definition k_revenue_billion_yen : str := lit "revenue_billion_yen".
Definition k_founded : str := lit "founded".
Definition k_years_to_profitability : str := lit "years_to_profitability".
Definition k_business_model : str := lit "business_model".
Definition k_ownership_type : str := lit "ownership_type".
Definition k_ai_adoption_level : str := lit "ai_adoption_level".
Definition k_primary_platform : str := lit "primary_platform".
Definition k_name_en : str := lit "name_en".
Definition k_notable_works : str := lit "notable_works".

(** [s.get(k)] on a numeric attribute: [None] when the key is absent. *)
Definition get (s : studio) (k : str) : option (option Q) :=
  if bool_decide (k = k_original_score) then Some (original_score s)
  else nums s !! k.

(** Python truthiness of a number or [None]. *)
Definition truthy (v : option Q) : bool :=
  match v with
  | Some q => negb (Qeq_bool q 0)
  | None => false
  end.

(** [v or d] for a number [d] *)
Definition or_num (v : option Q) (d : Q) : Q :=
  match v with
  | Some q => if Qeq_bool q 0 then d else q
  | None => d
  end.

(** [s.get(x_key, s["original_score"])] *)
Definition x_of (x_key : str) (s : studio) : option Q :=
  default (original_score s) (get s x_key).

(** [s.get(size_key, 10) or 10] *)
Definition y_of (size_key : str) (s : studio) : Q :=
  or_num (default (Some 10%Q) (get s size_key)) 10.

(** *** Grouping with [dict.setdefault] *)

Section GroupBy.
Context {A K : Type} (key : A -> K) (keqb : K -> K -> bool).

(** [groups.setdefault(k, []).append(a)] on an insertion-ordered dict *)
Fixpoint setdefault_append (k : K) (a : A) (groups : list (K * list A))
  : list (K * list A) :=
  match groups with
  | [] => [(k, [a])]
  | (k', members) :: rest =>
    if keqb k' k then (k', members ++ [a]) :: rest
    else (k', members) :: setdefault_append k a rest
  end.

Definition group_by (l : list A) : list (K * list A) :=
  fold_left (fun groups a => setdefault_append (key a) a groups) l [].
End GroupBy.

(** *** [merge_overlapping] *)

Definition coord : Type := option Q * Q.

Definition opt_Qeqb (a b : option Q) : bool :=
  match a, b with
  | Some p, Some q => Qeq_bool p q
  | None, None => true
  | _, _ => false
  end.

(** Equality of the dict keys [(x, y)] *)
Definition coord_eqb (a b : coord) : bool :=
  opt_Qeqb a.1 b.1 && Qeq_bool a.2 b.2.

Definition coord_of (x_key size_key : str) (s : studio) : coord :=
  (x_of x_key s, y_of size_key s).

(** An element of the list [merge_overlapping] returns: either a studio
    record itself ([hover_parts = None]), or a copy of the first member
    whose name is replaced and which carries ["_hover_parts"]. *)
Record point := {
  base : studio;
  hover_parts : option (list studio);
}.

Definition br : str := lit "<br>".

Definition merge_group (g : coord * list studio) : list point :=
  match g.2 with
  | [] => []
  | [s] => [ {| base := s; hover_parts := None |} ]
  | s0 :: _ =>
    [ {| base := with_name (join br (List.map name g.2)) s0;
         hover_parts := Some g.2 |} ]
  end.

Definition merge_overlapping (studio_list : list studio)
    (x_key size_key : str) : list point :=
  List.flat_map merge_group
    (group_by (coord_of x_key size_key) coord_eqb studio_list).

(** The studios a point stands for. *)
Definition members (p : point) : list studio :=
  match hover_parts p with
  | Some parts => parts
  | None => [base p]
  end.

(** *** [build_point_map] *)

Definition point_indices (p : point) : list nat :=
  match hover_parts p with
  | Some parts => List.map gidx parts
  | None => [gidx (base p)]
  end.

Definition build_point_map (studio_list : list studio)
    (x_key size_key : str) : list (list nat) :=
  List.map point_indices (merge_overlapping studio_list x_key size_key).

(** *** [resolve_label_positions] *)

Inductive anchor :=
| MiddleRight | TopRight | BottomRight | TopCenter
| TopLeft | MiddleLeft | BottomCenter | BottomLeft.

#[global] Instance anchor_eq_dec : EqDecision anchor.
Proof. solve_decision. Defined.

Definition anchor_code (a : anchor) : nat :=
  match a with
  | MiddleRight => 0 | TopRight => 1 | BottomRight => 2 | TopCenter => 3
  | TopLeft => 4 | MiddleLeft => 5 | BottomCenter => 6 | BottomLeft => 7
  end.

Definition anchor_of_code (n : nat) : option anchor :=
  match n with
  | 0 => Some MiddleRight | 1 => Some TopRight | 2 => Some BottomRight
  | 3 => Some TopCenter | 4 => Some TopLeft | 5 => Some MiddleLeft
  | 6 => Some BottomCenter | 7 => Some BottomLeft | _ => None
  end.

#[global] Instance anchor_countable : Countable anchor.
Proof.
  apply (inj_countable anchor_code anchor_of_code).
  intros []; reflexivity.
Defined.

Definition alternatives : list anchor :=
  [TopRight; BottomRight; TopCenter; TopLeft; MiddleLeft; BottomCenter; BottomLeft].

(** An element of [pairs]: [(dx + dy * 0.5, i, j, dx, dy)] *)
Record cand := {
  c_dist : Q;
  c_i : nat;
  c_j : nat;
  c_dx : Q;
  c_dy : Q;
}.

Definition Qltb (a b : Q) : bool :=
  match (a ?= b)%Q with Lt => true | _ => false end.

Definition lex (c1 c2 : comparison) : comparison :=
  match c1 with Eq => c2 | _ => c1 end.

(** Comparison of the tuples, component by component from the left *)
Definition cand_compare (a b : cand) : comparison :=
  lex (c_dist a ?= c_dist b)%Q
    (lex (c_i a ?= c_i b)
       (lex (c_j a ?= c_j b)
          (lex (c_dx a ?= c_dx b)%Q (c_dy a ?= c_dy b)%Q))).

Definition cand_leb (a b : cand) : bool :=
  match cand_compare a b with Gt => false | _ => true end.

(** [pairs.sort()]: a stable sort, written as insertion from the right *)
Fixpoint insert_cand (c : cand) (l : list cand) : list cand :=
  match l with
  | [] => [c]
  | d :: r => if cand_leb c d then c :: d :: r else d :: insert_cand c r
  end.

Definition sort_cands (l : list cand) : list cand :=
  List.fold_right insert_cand [] l.

(** [positions]: [x = s.get(x_key, s["original_score"])], replaced by [0]
    when it is [None]; [y = s.get(size_key, 10) or 10] *)
Definition position_of (size_key x_key : str) (p : point) : Q * Q :=
  (default 0%Q (x_of x_key (base p)), y_of size_key (base p)).

Definition mk_cand (positions : list (Q * Q)) (i j : nat) : cand :=
  let pi := default (0%Q, 0%Q) (positions !! i) in
  let pj := default (0%Q, 0%Q) (positions !! j) in
  let dx := Qabs (pi.1 - pj.1) in
  let dy := Qabs (pi.2 - pj.2) in
  {| c_dist := dx + dy * (1 # 2); c_i := i; c_j := j; c_dx := dx; c_dy := dy |}.

(** [for i in range(n): for j in range(i + 1, n): pairs.append(...)] *)
Definition all_pairs (positions : list (Q * Q)) : list cand :=
  let n := length positions in
  List.flat_map
    (fun i => List.map (mk_cand positions i) (seq (i + 1) (n - (i + 1))))
    (seq 0 n).

Definition conflict (c : cand) : bool :=
  Qltb (c_dx c) (1 # 10) && Qltb (c_dy c) 150.

(** The first alternative that differs from the anchor of [i] and was not
    given to [j] before *)
Definition pick (text_positions : list anchor) (used : gset (nat * anchor))
    (i j : nat) : option anchor :=
  List.find
    (fun alt => bool_decide (text_positions !! i ≠ Some alt)
                && bool_decide ((j, alt) ∉ used))
    alternatives.

(** One iteration of the loop over the sorted pairs *)
Definition place (st : list anchor * gset (nat * anchor)) (c : cand)
    : list anchor * gset (nat * anchor) :=
  if conflict c then
    match pick st.1 st.2 (c_i c) (c_j c) with
    | Some alt => (<[c_j c := alt]> st.1, {[ (c_j c, alt) ]} ∪ st.2)
    | None => st
    end
  else st.

Definition resolve_positions (positions : list (Q * Q)) : list anchor :=
  (fold_left place (sort_cands (all_pairs positions))
     (replicate (length positions) MiddleRight, ∅)).1.

Definition resolve_label_positions (studio_list : list point)
    (size_key x_key : str) : list anchor :=
  resolve_positions (List.map (position_of size_key x_key) studio_list).

(** *** Traces *)

(** The attributes of a [go.Scatter] that the filter engine and the view
    switch read.  [t_points] is not an attribute of the figure: it records
    the merged list the trace was drawn from, so that statements can speak
    of the studios behind point [i].  Hover text, label text, marker sizes
    and colour scales are rendering only and are left out. *)
Record trace := {
  t_name : str;
  t_mode : str;
  t_x : list (option Q);
  t_y : list (option Q);
  t_textposition : list anchor;
  t_marker_opacity : option Q;
  t_textfont_color : option str;
  t_points : list point;
}.

Definition COLOR_DOMESTIC : str := lit "#3498DB".
Definition COLOR_INTERNATIONAL : str := lit "#E74C3C".

Definition COLOR_PALETTES_ai_adoption_level : list (str * str) :=
  [ (lit "none", lit "#BDBDBD"); (lit "experimental", lit "#FFC107");
    (lit "production", lit "#4CAF50"); (lit "core", lit "#FFD700") ].
Definition COLOR_PALETTES_ownership_type : list (str * str) :=
  [ (lit "independent", lit "#27AE60"); (lit "subsidiary", lit "#2980B9");
    (lit "group_company", lit "#8E44AD") ].
Definition COLOR_PALETTES_business_model : list (str * str) :=
  [ (lit "commission", lit "#E74C3C"); (lit "mixed", lit "#F39C12");
    (lit "original", lit "#27AE60"); (lit "ip_holding", lit "#2980B9") ].
Definition COLOR_PALETTES_primary_platform_color : list (str * str) :=
  [ (lit "Netflix", lit "#E50914"); (lit "Crunchyroll", lit "#F47521");
    (lit "Amazon", lit "#00A8E1"); (lit "Disney+", lit "#113CCF");
    (lit "Bilibili", lit "#00A1D6"); (lit "Other", lit "#95A5A6") ].

Definition LABEL_NAMES_ai_adoption_level : list (str * str) :=
  [ (lit "none", lit "なし"); (lit "experimental", lit "実験的");
    (lit "production", lit "本番導入"); (lit "core", lit "コア技術") ].
Definition LABEL_NAMES_ownership_type : list (str * str) :=
  [ (lit "independent", lit "独立系"); (lit "subsidiary", lit "子会社");
    (lit "group_company", lit "グループ会社") ].
Definition LABEL_NAMES_business_model : list (str * str) :=
  [ (lit "commission", lit "受託制作"); (lit "mixed", lit "混合");
    (lit "original", lit "オリジナル"); (lit "ip_holding", lit "IP保有") ].

(** [d.get(k, dflt)] on a literal dict *)
Definition dict_get (d : list (str * str)) (k dflt : str) : str :=
  match List.find (fun kv => eqb kv.1 k) d with
  | Some kv => kv.2
  | None => dflt
  end.

(** [for k, v in d.items(): if v == label: cat_key = k; break] *)
Definition key_of_label (d : list (str * str)) (label : str) : option str :=
  match List.find (fun kv => eqb kv.2 label) d with
  | Some kv => Some kv.1
  | None => None
  end.

(** [s.get(k)] on a categorical attribute *)
Definition get_cat (s : studio) (k : str) : option str :=
  match cats s !! k with
  | Some v => v
  | None => None
  end.

(** [s.get(k) == v] for a string [v] *)
Definition cat_is (k v : str) (s : studio) : bool :=
  bool_decide (get_cat s k = Some v).

(** [s.get(k) is not None] on a numeric attribute *)
Definition has_num (k : str) (s : studio) : bool :=
  match get s k with
  | Some (Some _) => true
  | _ => false
  end.

Definition make_scatter (studio_list : list studio) (color name size_key : str)
    (opacity : Q) (x_key : str) : trace :=
  let merged := merge_overlapping studio_list x_key size_key in
  {| t_name := name;
     t_mode := lit "markers+text";
     t_x := List.map (fun p => x_of x_key (base p)) merged;
     t_y := List.map (fun p => Some (y_of size_key (base p))) merged;
     t_textposition := resolve_label_positions merged size_key x_key;
     t_marker_opacity := Some opacity;
     t_textfont_color := Some color;
     t_points := merged |}.

Definition with_textfont_color (c : str) (t : trace) : trace :=
  {| t_name := t_name t; t_mode := t_mode t; t_x := t_x t; t_y := t_y t;
     t_textposition := t_textposition t;
     t_marker_opacity := t_marker_opacity t;
     t_textfont_color := Some c; t_points := t_points t |}.

Definition unknown : str := lit "unknown".
Definition grey : str := lit "#95A5A6".

(** [val = s.get(color_field, "unknown")], replaced by ["unknown"] when it
    is [None] *)
Definition category_of (color_field : str) (s : studio) : str :=
  match default (Some unknown) (cats s !! color_field) with
  | Some v => v
  | None => unknown
  end.

(** The trace of one category group in [make_categorical_scatter] *)
Definition categorical_trace (palette label_map : list (str * str))
    (x_key y_key : str) (g : str * list studio) : trace :=
  let merged := merge_overlapping g.2 x_key y_key in
  {| t_name := dict_get label_map g.1 g.1;
     t_mode := lit "markers+text";
     t_x := List.map
              (fun p => default (default (Some 0%Q) (get (base p) k_original_score))
                          (get (base p) x_key)) merged;
     t_y := List.map (fun p => Some (y_of y_key (base p))) merged;
     t_textposition := resolve_label_positions merged y_key x_key;
     t_marker_opacity := Some 1%Q;
     t_textfont_color := Some (dict_get palette g.1 grey);
     t_points := merged |}.

Definition make_categorical_scatter (studio_list : list studio)
    (color_field : str) (palette label_map : list (str * str))
    (x_key y_key : str) : list trace :=
  List.map (categorical_trace palette label_map x_key y_key)
    (group_by (category_of color_field) eqb studio_list).

Definition GRADIENT_STEPS : nat := 8.

(** The two end points of the piece of a studio's line in gradient step
    [step], or [None] where Python raises (a score that is [None], a missing
    size). *)
Definition segment (step : nat) (s : studio)
    : option ((Q * Q) * (Q * Q)) :=
  let t0 := (inject_Z (Z.of_nat step) / inject_Z (Z.of_nat GRADIENT_STEPS))%Q in
  let t1 := (inject_Z (Z.of_nat (step + 1)) / inject_Z (Z.of_nat GRADIENT_STEPS))%Q in
  x_start ← x_of k_original_score_founded s;
  x_end ← original_score s;
  y_start ← (v ← get s k_size_founded_num; Some (or_num v 10));
  y_end ← (v ← get s k_size_current_num; v);
  Some ((x_start + (x_end - x_start) * t0, x_start + (x_end - x_start) * t1)%Q,
        (y_start + (y_end - y_start) * t0, y_start + (y_end - y_start) * t1)%Q).

Definition line_name (region_label : str) : str :=
  lit "軌跡線（" ++ region_label ++ lit "）".

Definition growth_line_trace (studio_list : list studio)
    (region_label : str) (step : nat) : option trace :=
  segs ← mapM (segment step) studio_list;
  Some {| t_name := line_name region_label;
          t_mode := lit "lines";
          t_x := List.flat_map (fun sg => [Some sg.1.1; Some sg.1.2; None]) segs;
          t_y := List.flat_map (fun sg => [Some sg.2.1; Some sg.2.2; None]) segs;
          t_textposition := [];
          t_marker_opacity := None;
          t_textfont_color := None;
          t_points := [] |}.

Definition make_growth_line_traces (studio_list : list studio)
    (region_label : str) : option (list trace) :=
  mapM (growth_line_trace studio_list region_label) (seq 0 GRADIENT_STEPS).

(** [get_primary_platform] *)
Definition get_primary_platform (s : studio) : str :=
  match default [] (lists s !! k_primary_platform) with
  | [] => lit "Other"
  | pf :: _ => pf
  end.

(** *** The figure under construction *)

(** The module-level tables the script fills while it builds the views.
    [visibility_map] keeps the insertion order of its keys, which the page
    later iterates over. *)
Record figure := {
  traces : list trace;
  visibility_map : list (str * list nat);
  trace_point_maps : gmap nat (list (list nat));
  growth_line_studio_indices : gmap nat (list nat);
}.

(** [visibility_map[view]], the empty list standing for a missing key *)
Definition vm_get (vm : list (str * list nat)) (view : str) : list nat :=
  match List.find (fun kv => eqb kv.1 view) vm with
  | Some kv => kv.2
  | None => []
  end.

(** [visibility_map[view].append(i)] *)
Fixpoint vm_append (view : str) (i : nat) (vm : list (str * list nat))
    : list (str * list nat) :=
  match vm with
  | [] => []
  | (k, l) :: rest =>
    if eqb k view then (k, l ++ [i]) :: rest
    else (k, l) :: vm_append view i rest
  end.

(** [visibility_map[view] = []] *)
Fixpoint vm_reset (view : str) (vm : list (str * list nat))
    : list (str * list nat) :=
  match vm with
  | [] => [(view, [])]
  | (k, l) :: rest =>
    if eqb k view then (k, []) :: rest else (k, l) :: vm_reset view rest
  end.

(** [traces.append(tr)] *)
Definition append_trace (tr : trace) (fg : figure) : figure :=
  {| traces := traces fg ++ [tr];
     visibility_map := visibility_map fg;
     trace_point_maps := trace_point_maps fg;
     growth_line_studio_indices := growth_line_studio_indices fg |}.

(** [trace_point_maps[i] = pm] *)
Definition set_point_map_at (i : nat) (pm : list (list nat)) (fg : figure)
    : figure :=
  {| traces := traces fg;
     visibility_map := visibility_map fg;
     trace_point_maps := <[i := pm]> (trace_point_maps fg);
     growth_line_studio_indices := growth_line_studio_indices fg |}.

(** [trace_point_maps[len(traces) - 1] = pm] *)
Definition set_point_map (pm : list (list nat)) (fg : figure) : figure :=
  set_point_map_at (length (traces fg) - 1) pm fg.

(** [visibility_map[view].append(len(traces) - 1)] *)
Definition show_in (view : str) (fg : figure) : figure :=
  {| traces := traces fg;
     visibility_map := vm_append view (length (traces fg) - 1) (visibility_map fg);
     trace_point_maps := trace_point_maps fg;
     growth_line_studio_indices := growth_line_studio_indices fg |}.

Definition new_view (view : str) (fg : figure) : figure :=
  {| traces := traces fg;
     visibility_map := vm_reset view (visibility_map fg);
     trace_point_maps := trace_point_maps fg;
     growth_line_studio_indices := growth_line_studio_indices fg |}.

(** [growth_line_studio_indices[len(traces) - 1] = l] *)
Definition set_line_studios (l : list nat) (fg : figure) : figure :=
  {| traces := traces fg;
     visibility_map := visibility_map fg;
     trace_point_maps := trace_point_maps fg;
     growth_line_studio_indices :=
       <[length (traces fg) - 1 := l]> (growth_line_studio_indices fg) |}.

Definition v_founded : str := lit "founded".
Definition v_current : str := lit "current".
Definition v_growth : str := lit "growth".
Definition v_growth_lines : str := lit "growth_lines".
Definition v_business_model : str := lit "business_model".
Definition v_ai_adoption : str := lit "ai_adoption".
Definition v_revenue : str := lit "revenue".
Definition v_ownership : str := lit "ownership".
Definition v_platform : str := lit "platform".
Definition v_profitability : str := lit "profitability".

Definition VIEW_KEYS : list str :=
  [v_founded; v_current; v_growth; v_business_model; v_ai_adoption;
   v_revenue; v_ownership; v_platform; v_profitability].

Definition empty_figure : figure :=
  {| traces := [];
     visibility_map := [(v_founded, []); (v_current, []); (v_growth, [])];
     trace_point_maps := ∅;
     growth_line_studio_indices := ∅ |}.

(** *** Views 1 to 3: region scatters and growth trajectories *)

Definition is_domestic (s : studio) : bool := eqb (region s) (lit "domestic").
Definition is_international (s : studio) : bool :=
  eqb (region s) (lit "international").

(** [s.get("size_founded_num") and s.get("size_current_num")
     and s["size_founded_num"] != s["size_current_num"]] *)
Definition is_growth (s : studio) : bool :=
  match get s k_size_founded_num, get s k_size_current_num with
  | Some (Some f), Some (Some c) =>
    negb (Qeq_bool f 0) && negb (Qeq_bool c 0) && negb (Qeq_bool f c)
  | _, _ => false
  end.

(** A region scatter followed by its point map and its visibility entry *)
Definition add_scatter (view : str) (studio_list : list studio)
    (tr : trace) (x_key size_key : str) (fg : figure) : figure :=
  show_in view
    (set_point_map (build_point_map studio_list x_key size_key)
       (append_trace tr fg)).

Definition view_founded (domestic international : list studio)
    (fg : figure) : figure :=
  let fg := add_scatter v_founded domestic
              (make_scatter domestic COLOR_DOMESTIC (lit "国内スタジオ")
                 k_size_founded_num 1 k_original_score)
              k_original_score k_size_founded_num fg in
  add_scatter v_founded international
    (make_scatter international COLOR_INTERNATIONAL (lit "海外スタジオ")
       k_size_founded_num 1 k_original_score)
    k_original_score k_size_founded_num fg.

Definition view_current (domestic international : list studio)
    (fg : figure) : figure :=
  let fg := add_scatter v_current domestic
              (make_scatter domestic COLOR_DOMESTIC (lit "国内スタジオ")
                 k_size_current_num 1 k_original_score)
              k_original_score k_size_current_num fg in
  add_scatter v_current international
    (make_scatter international COLOR_INTERNATIONAL (lit "海外スタジオ")
       k_size_current_num 1 k_original_score)
    k_original_score k_size_current_num fg.

Definition view_growth_markers (growth_dom growth_intl : list studio)
    (fg : figure) : figure :=
  let fg := add_scatter v_growth growth_dom
              (with_textfont_color (lit "rgba(52,152,219,0.6)")
                 (make_scatter growth_dom COLOR_DOMESTIC (lit "国内（設立時）")
                    k_size_founded_num (4 # 10) k_original_score_founded))
              k_original_score_founded k_size_founded_num fg in
  let fg := add_scatter v_growth growth_intl
              (with_textfont_color (lit "rgba(231,76,60,0.6)")
                 (make_scatter growth_intl COLOR_INTERNATIONAL (lit "海外（設立時）")
                    k_size_founded_num (4 # 10) k_original_score_founded))
              k_original_score_founded k_size_founded_num fg in
  let fg := add_scatter v_growth growth_dom
              (make_scatter growth_dom COLOR_DOMESTIC (lit "国内（現在）")
                 k_size_current_num 1 k_original_score)
              k_original_score k_size_current_num fg in
  add_scatter v_growth growth_intl
    (make_scatter growth_intl COLOR_INTERNATIONAL (lit "海外（現在）")
       k_size_current_num 1 k_original_score)
    k_original_score k_size_current_num fg.

(** One iteration of [for tr in make_growth_line_traces(...)] *)
Definition add_line (global : list nat) (fg : figure) (tr : trace) : figure :=
  set_line_studios global
    (show_in v_growth_lines (show_in v_growth (append_trace tr fg))).

Definition view_growth_lines (growth_dom growth_intl : list studio)
    (fg : figure) : option figure :=
  let fg := new_view v_growth_lines fg in
  lines_dom ← make_growth_line_traces growth_dom (lit "国内");
  let fg := fold_left (add_line (List.map gidx growth_dom)) lines_dom fg in
  lines_intl ← make_growth_line_traces growth_intl (lit "海外");
  Some (fold_left (add_line (List.map gidx growth_intl)) lines_intl fg).

(** *** View 4: business model *)

(** One iteration of the loop over [make_categorical_scatter(bm_studios, ...)]:
    the point map is built from the studios whose [business_model] equals
    the name of the trace. *)
Definition add_bm_trace (bm_studios : list studio) (fg : figure) (tr : trace)
    : figure :=
  show_in v_business_model
    (set_point_map
       (build_point_map
          (List.filter (cat_is k_business_model (t_name tr)) bm_studios)
          k_original_score k_ip_ownership_score)
       (append_trace tr fg)).

(** One iteration of the second loop ("Rebuild properly"): the category key
    is looked up from the name of the trace, and the point map is replaced
    when a key is found. *)
Definition rebuild_bm (bm_studios : list studio) (fg : figure) (view_idx : nat)
    : figure :=
  match traces fg !! view_idx with
  | Some tr =>
    match key_of_label LABEL_NAMES_business_model (t_name tr) with
    | Some cat_key =>
      set_point_map_at view_idx
        (build_point_map
           (List.filter (cat_is k_business_model cat_key) bm_studios)
           k_original_score k_ip_ownership_score)
        fg
    | None => fg
    end
  | None => fg
  end.

Definition view_business_model (studios : list studio) (fg : figure) : figure :=
  let fg := new_view v_business_model fg in
  let bm_studios := List.filter (has_num k_ip_ownership_score) studios in
  let fg := fold_left (add_bm_trace bm_studios)
              (make_categorical_scatter bm_studios k_business_model
                 COLOR_PALETTES_business_model LABEL_NAMES_business_model
                 k_original_score k_ip_ownership_score)
              fg in
  fold_left (rebuild_bm bm_studios)
    (vm_get (visibility_map fg) v_business_model) fg.

(** *** Views 5, 6, 8 and 9: scatters written in line *)

(** A [go.Scatter] written in line: the list is merged under
    [(x_key, size_key)], labels are resolved under the same keys, and the
    plotted coordinates are read with the view's own defaults. *)
Definition inline_scatter (studio_list : list studio) (x_key size_key : str)
    (plot_x plot_y : studio -> option Q) (name : str) (opacity : Q)
    (color : option str) : trace :=
  let merged := merge_overlapping studio_list x_key size_key in
  {| t_name := name;
     t_mode := lit "markers+text";
     t_x := List.map (fun p => plot_x (base p)) merged;
     t_y := List.map (fun p => plot_y (base p)) merged;
     t_textposition := resolve_label_positions merged size_key x_key;
     t_marker_opacity := Some opacity;
     t_textfont_color := color;
     t_points := merged |}.

(** [s.get("original_score", 0)] *)
Definition plot_score (s : studio) : option Q :=
  default (Some 0%Q) (get s k_original_score).

(** [s.get("size_current_num", 10) or 10] *)
Definition plot_size (s : studio) : option Q := Some (y_of k_size_current_num s).

Definition ai_levels : list str :=
  [lit "none"; lit "experimental"; lit "production"; lit "core"].

Definition add_ai_level (region_studios : list studio) (region_label : str)
    (fg : figure) (ai_level : str) : figure :=
  let level_studios :=
    List.filter (cat_is k_ai_adoption_level ai_level) region_studios in
  match level_studios with
  | [] => fg
  | _ =>
    add_scatter v_ai_adoption level_studios
      (inline_scatter level_studios k_original_score k_size_current_num
         plot_score plot_size
         (region_label ++ lit " - "
            ++ dict_get LABEL_NAMES_ai_adoption_level ai_level ai_level)
         1
         (Some (dict_get COLOR_PALETTES_ai_adoption_level ai_level ai_level)))
      k_original_score k_size_current_num fg
  end.

Definition view_ai_adoption (domestic international : list studio)
    (fg : figure) : figure :=
  let fg := new_view v_ai_adoption fg in
  let fg := fold_left (add_ai_level domestic (lit "国内")) ai_levels fg in
  fold_left (add_ai_level international (lit "海外")) ai_levels fg.

Definition view_revenue (studios : list studio) (fg : figure) : figure :=
  let fg := new_view v_revenue fg in
  let revenue_studios := List.filter (has_num k_revenue_billion_yen) studios in
  match revenue_studios with
  | [] => fg
  | _ =>
    add_scatter v_revenue revenue_studios
      (inline_scatter revenue_studios k_operating_margin k_revenue_billion_yen
         (fun s => Some (or_num (default (Some 0%Q) (get s k_operating_margin)) 0))
         (fun s => Some (or_num (default (Some 1%Q) (get s k_revenue_billion_yen)) 1))
         (lit "収益データ公開企業") 1 None)
      k_operating_margin k_revenue_billion_yen fg
  end.

(** *** View 7: ownership *)

(** One iteration of the loop over
    [make_categorical_scatter(studios, "ownership_type", ...)]: the point map
    is recorded only when the name of the trace is the label of a key. *)
Definition add_ownership_trace (studios : list studio) (fg : figure)
    (tr : trace) : figure :=
  let fg := append_trace tr fg in
  let fg :=
    match key_of_label LABEL_NAMES_ownership_type (t_name tr) with
    | Some cat_key =>
      set_point_map
        (build_point_map
           (List.filter (cat_is k_ownership_type cat_key) studios)
           k_original_score k_size_current_num)
        fg
    | None => fg
    end in
  show_in v_ownership fg.

Definition view_ownership (studios : list studio) (fg : figure) : figure :=
  let fg := new_view v_ownership fg in
  fold_left (add_ownership_trace studios)
    (make_categorical_scatter studios k_ownership_type
       COLOR_PALETTES_ownership_type LABEL_NAMES_ownership_type
       k_original_score k_size_current_num)
    fg.

(** *** View 8: platform *)

Definition add_platform_group (fg : figure) (g : str * list studio) : figure :=
  add_scatter v_platform g.2
    (inline_scatter g.2 k_original_score k_size_current_num
       plot_score plot_size g.1 1
       (Some (dict_get COLOR_PALETTES_primary_platform_color g.1 grey)))
    k_original_score k_size_current_num fg.

Definition view_platform (studios : list studio) (fg : figure) : figure :=
  let fg := new_view v_platform fg in
  fold_left add_platform_group (group_by get_primary_platform eqb studios) fg.

(** *** View 9: profitability *)

(** [s.get("founded", 2000)] *)
Definition plot_founded (s : studio) : option Q :=
  default (Some 2000%Q) (get s k_founded).

Definition add_profitability (studio_list : list studio) (name : str)
    (opacity : Q) (color : str) (fg : figure) : figure :=
  match studio_list with
  | [] => fg
  | _ =>
    add_scatter v_profitability studio_list
      (inline_scatter studio_list k_founded k_size_current_num
         plot_founded plot_size name opacity (Some color))
      k_founded k_size_current_num fg
  end.

Definition view_profitability (studios : list studio) (fg : figure) : figure :=
  let fg := new_view v_profitability fg in
  let prof_studios := List.filter (has_num k_years_to_profitability) studios in
  let nonprof_studios :=
    List.filter (fun s => negb (has_num k_years_to_profitability s)) studios in
  let fg := add_profitability nonprof_studios (lit "黒字化データなし")
              (1 # 2) (lit "#999") fg in
  add_profitability prof_studios (lit "黒字化データあり") 1 (lit "#2E7D32") fg.

(** *** The whole script, up to the figure *)

Definition build (raw : list studio) : option figure :=
  let studios := load raw in
  let domestic := List.filter is_domestic studios in
  let international := List.filter is_international studios in
  let growth_studios := List.filter is_growth studios in
  let fg := view_founded domestic international empty_figure in
  let fg := view_current domestic international fg in
  let growth_dom := List.filter is_domestic growth_studios in
  let growth_intl := List.filter is_international growth_studios in
  let fg := view_growth_markers growth_dom growth_intl fg in
  fg ← view_growth_lines growth_dom growth_intl fg;
  let fg := view_business_model studios fg in
  let fg := view_ai_adoption domestic international fg in
  let fg := view_revenue studios fg in
  let fg := view_ownership studios fg in
  let fg := view_platform studios fg in
  Some (view_profitability studios fg).

(** [make_visibility]: [vis = [False] * total_traces], then
    [vis[idx] = True] for every index of the view. *)
Definition make_visibility (fg : figure) (view_key : str) : list bool :=
  fold_left (fun vis idx => <[idx := true]> vis)
    (vm_get (visibility_map fg) view_key)
    (replicate (length (traces fg)) false).

(** The studios a trace covers: the members of its points. *)
Definition covered (tr : trace) : list nat :=
  List.flat_map point_indices (t_points tr).

(** The traces of a view, through its visibility entry. *)
Definition view_traces (fg : figure) (view_key : str) : list trace :=
  omap (fun i => traces fg !! i) (vm_get (visibility_map fg) view_key).

Definition view_covered (fg : figure) (view_key : str) : list nat :=
  List.flat_map covered (view_traces fg view_key).

End Py.

(* ===================================================================== *)
(** ** The JavaScript half: filtering in the page *)
(* ===================================================================== *)

Module Js.

(** *** Built-in string operations *)

Fixpoint is_prefix (p s : str) : bool :=
  match p, s with
  | [], _ => true
  | a :: p', b :: s' => (a =? b)%N && is_prefix p' s'
  | _ :: _, [] => false
  end.

(** [s.split(sep)] for a non-empty [sep]: the text is cut at every
    occurrence of [sep], found from the left without overlap.  [skip]
    counts the code units of a separator still to be passed, [cur] is the
    part being read. *)
Fixpoint split_go (sep s : str) (skip : nat) (cur : str) : list str :=
  match s with
  | [] => [cur]
  | c :: s' =>
    match skip with
    | S k => split_go sep s' k cur
    | 0 =>
      if is_prefix sep s then cur :: split_go sep s' (length sep - 1) []
      else split_go sep s' 0 (cur ++ [c])
    end
  end.

Definition split (sep s : str) : list str := split_go sep s 0 [].

(** [hay.indexOf(needle) !== -1] *)
Fixpoint contains (needle hay : str) : bool :=
  is_prefix needle hay ||
  match hay with
  | [] => false
  | _ :: hay' => contains needle hay'
  end.

(** White space and line terminators of the language *)
Definition is_space (c : N) : bool :=
  bool_decide (c ∈ [9; 10; 11; 12; 13; 32; 160; 5760; 8192; 8193; 8194; 8195;
                    8196; 8197; 8198; 8199; 8200; 8201; 8202; 8232; 8233;
                    8239; 8287; 12288; 65279]%N).

Fixpoint drop_spaces (s : str) : str :=
  match s with
  | [] => []
  | c :: s' => if is_space c then drop_spaces s' else s
  end.

(** [s.trim()] *)
Definition trim (s : str) : str :=
  rev (drop_spaces (rev (drop_spaces s))).

Definition digit_of (radix : Z) (c : N) : option Z :=
  let v :=
    if ((48 <=? c) && (c <=? 57))%N then Some (Z.of_N c - 48)%Z
    else if ((97 <=? c) && (c <=? 122))%N then Some (Z.of_N c - 87)%Z
    else if ((65 <=? c) && (c <=? 90))%N then Some (Z.of_N c - 55)%Z
    else None in
  match v with
  | Some d => if (d <? radix)%Z then Some d else None
  | None => None
  end.

(** The longest run of digits at the head of [s], read in [radix];
    [None] when there is no digit. *)
Fixpoint digits (radix : Z) (s : str) (acc : option Z) : option Z :=
  match s with
  | [] => acc
  | c :: s' =>
    match digit_of radix c with
    | Some d => digits radix s' (Some (default 0%Z acc * radix + d)%Z)
    | None => acc
    end
  end.

(** [parseInt(s)]; [None] is [NaN] *)
Definition parseInt (s : str) : option Z :=
  let s := drop_spaces s in
  let '(neg, s) :=
    match s with
    | 45%N :: r => (true, r)
    | 43%N :: r => (false, r)
    | _ => (false, s)
    end in
  let v :=
    match s with
    | 48%N :: 120%N :: r => digits 16 r None
    | 48%N :: 88%N :: r => digits 16 r None
    | _ => digits 10 s None
    end in
  (fun n => if neg then (- n)%Z else n) <$> v.

(** [toLowerCase] follows the Unicode case tables, which are not
    reproduced: the page is modelled over any implementation of it. *)
Class Host := { toLowerCase : str -> str }.

(** An implementation that lowers the Latin capitals, for examples. *)
Definition ascii_lower (s : str) : str :=
  List.map (fun c => if ((65 <=? c) && (c <=? 90))%N then (c + 32)%N else c) s.

Definition ascii_host : Host := {| toLowerCase := ascii_lower |}.

(** *** The tables written into the page *)

(** An entry of [STUDIOS] *)
Record studio := {
  idx : nat;
  name : str;
  name_en : option str;
  region : str;
  founded : option Q;
  size_founded_num : Q;
  size_current_num : option Q;
  notable_works : list str;
  ownership_type : option str;
  ai_adoption_level : option str;
}.

(** The entry [json.dumps] writes for studio [i]; the attributes the filter
    does not read are left out.  [name_en] is [s.get("name_en", "")]. *)
Definition export_studio (i : nat) (s : Py.studio) : studio :=
  {| idx := i;
     name := Py.name s;
     name_en := default (Some []) (Py.cats s !! Py.k_name_en);
     region := Py.region s;
     founded := default None (Py.get s Py.k_founded);
     size_founded_num :=
       Py.or_num (default None (Py.get s Py.k_size_founded_num)) 10;
     size_current_num := default None (Py.get s Py.k_size_current_num);
     notable_works := default [] (Py.lists s !! Py.k_notable_works);
     ownership_type := Py.get_cat s Py.k_ownership_type;
     ai_adoption_level := Py.get_cat s Py.k_ai_adoption_level |}.

Definition studios_js (studios : list Py.studio) : list studio :=
  imap export_studio studios.

(** The constants of the page *)
Record tables := {
  STUDIOS : list studio;
  TRACE_POINT_MAP : gmap nat (list (list nat));
  GROWTH_LINE_STUDIOS : gmap nat (list nat);
  VISIBILITY_MAP : list (str * list nat);
}.

Definition tables_of (raw : list Py.studio) (fg : Py.figure) : tables :=
  {| STUDIOS := studios_js (Py.load raw);
     TRACE_POINT_MAP := Py.trace_point_maps fg;
     GROWTH_LINE_STUDIOS := Py.growth_line_studio_indices fg;
     VISIBILITY_MAP := Py.visibility_map fg |}.

(** *** The state of the page *)

(** An element of a coordinate array: a number, [null], or a hole. *)
Inductive jnum := JNum (q : Q) | JNull | JUndef.

(** A style attribute of a trace: not set, one value for the trace, or an
    array with one entry per point ([None] is [undefined]). *)
Inductive attr (A : Type) :=
| Absent
| Scalar (a : A)
| PerPoint (l : list (option A)).
Arguments Absent {A}.
Arguments Scalar {A} a.
Arguments PerPoint {A} l.

(** What the page reads and writes of [plotDiv.data[i]] *)
Record tdata := {
  visible : bool;
  x : option (list jnum);
  y : option (list jnum);
  hovertext : option (list (option str));
  text : option (list (option str));
  marker_opacity : attr Q;
  textfont_color : attr str;
}.

(** An entry of [_originalData] *)
Record snapshot := {
  o_x : option (list jnum);
  o_y : option (list jnum);
  o_hovertext : option (list (option str));
  o_text : option (list (option str));
  o_marker_opacity : attr Q;
  o_textfont_color : attr str;
}.

(** The inputs of the filter bar *)
Record form := {
  yearMin : str;
  yearMax : str;
  showDom : bool;
  showIntl : bool;
  sizeMin : str;
  sizeMax : str;
  search : str;
  aiNone : bool;
  aiExp : bool;
  aiProd : bool;
  aiCore : bool;
  ownIndep : bool;
  ownSub : bool;
  ownGroup : bool;
}.

(** The inputs as [resetFilters] leaves them *)
Definition cleared : form :=
  {| yearMin := []; yearMax := []; showDom := true; showIntl := true;
     sizeMin := []; sizeMax := []; search := [];
     aiNone := true; aiExp := true; aiProd := true; aiCore := true;
     ownIndep := true; ownSub := true; ownGroup := true |}.

(** [initOriginalData] *)
Definition snapshot_of (d : tdata) : snapshot :=
  {| o_x := x d; o_y := y d; o_hovertext := hovertext d; o_text := text d;
     o_marker_opacity := marker_opacity d;
     o_textfont_color := textfont_color d |}.

Definition initOriginalData (data : list tdata) : list snapshot :=
  List.map snapshot_of data.

(** *** [getCurrentView] *)

(** The inner loop: the first key of [VISIBILITY_MAP], other than
    ['growth_lines'], whose list holds [i] *)
Definition view_holding (vm : list (str * list nat)) (i : nat) : option str :=
  fst <$> List.find
            (fun kv => negb (eqb kv.1 Py.v_growth_lines)
                       && bool_decide (i ∈ kv.2))
            vm.

(** The outer loop, from trace [i] on, over the visibility flags *)
Fixpoint scan_views (vm : list (str * list nat)) (flags : list bool) (i : nat)
    : option str :=
  match flags with
  | [] => None
  | v :: rest =>
    if v then
      match view_holding vm i with
      | Some view => Some view
      | None => scan_views vm rest (S i)
      end
    else scan_views vm rest (S i)
  end.

Definition getCurrentView (T : tables) (data : list tdata) : str :=
  default Py.v_founded (scan_views (VISIBILITY_MAP T) (List.map visible data) 0).

(** *** [studioMatchesFilter] *)

Definition s_domestic : str := lit "domestic".
Definition s_international : str := lit "international".

(** [a < parseInt(bound)]; a comparison with [NaN] is false *)
Definition below (a : Q) (bound : str) : bool :=
  match parseInt bound with
  | Some n => Py.Qltb a (inject_Z n)
  | None => false
  end.

(** [a > parseInt(bound)] *)
Definition above (a : Q) (bound : str) : bool :=
  match parseInt bound with
  | Some n => Py.Qltb (inject_Z n) a
  | None => false
  end.

(** Truthiness of a string and of a number or [null] *)
Definition nonempty (s : str) : bool :=
  match s with [] => false | _ => true end.

Definition region_clause (f : form) (s : studio) : bool :=
  negb (eqb (region s) s_domestic && negb (showDom f))
  && negb (eqb (region s) s_international && negb (showIntl f)).

(** [if (yearMin && studio.founded && studio.founded < parseInt(yearMin))
     return false;] and the same for [yearMax] *)
Definition year_clause (f : form) (s : studio) : bool :=
  negb (nonempty (yearMin f) && Py.truthy (founded s)
        && below (default 0%Q (founded s)) (yearMin f))
  && negb (nonempty (yearMax f) && Py.truthy (founded s)
           && above (default 0%Q (founded s)) (yearMax f)).

(** [sizeVal = (view === 'founded') ? studio.size_founded_num
                                    : studio.size_current_num]; in a
    comparison [null] counts as [0]. *)
Definition sizeVal (view : str) (s : studio) : option Q :=
  if eqb view Py.v_founded then Some (size_founded_num s)
  else size_current_num s.

Definition size_clause (f : form) (view : str) (s : studio) : bool :=
  negb (nonempty (sizeMin f) && below (default 0%Q (sizeVal view s)) (sizeMin f))
  && negb (nonempty (sizeMax f) && above (default 0%Q (sizeVal view s)) (sizeMax f)).

Definition s_null : str := lit "null".
Definition space : str := lit " ".

Definition haystack `{Host} (s : studio) : str :=
  toLowerCase (name s ++ space ++ default s_null (name_en s) ++ space
               ++ join space (notable_works s)).

Definition search_clause `{Host} (f : form) (s : studio) : bool :=
  let searchText := trim (toLowerCase (search f)) in
  negb (nonempty searchText && negb (contains searchText (haystack s))).

(** [x || dflt] on a string or [null] *)
Definition or_str (v : option str) (dflt : str) : str :=
  match v with
  | Some (c :: r) => c :: r
  | _ => dflt
  end.

Definition ai_clause (f : form) (s : studio) : bool :=
  let aiLevel := or_str (ai_adoption_level s) (lit "none") in
  negb (eqb aiLevel (lit "none") && negb (aiNone f))
  && negb (eqb aiLevel (lit "experimental") && negb (aiExp f))
  && negb (eqb aiLevel (lit "production") && negb (aiProd f))
  && negb (eqb aiLevel (lit "core") && negb (aiCore f)).

Definition own_clause (f : form) (s : studio) : bool :=
  let ownType := or_str (ownership_type s) (lit "independent") in
  negb (eqb ownType (lit "independent") && negb (ownIndep f))
  && negb (eqb ownType (lit "subsidiary") && negb (ownSub f))
  && negb (eqb ownType (lit "group_company") && negb (ownGroup f)).

(** The function returns [false] at the first clause that fails and [true]
    at the end: the conjunction of the clauses, in their order. *)
Definition studioMatchesFilter `{Host} (T : tables) (data : list tdata)
    (f : form) (s : studio) : bool :=
  region_clause f s
  && year_clause f s
  && size_clause f (getCurrentView T data) s
  && search_clause f s
  && ai_clause f s
  && own_clause f s.

(** *** [applyFilters] *)

Definition SEP : str := lit "<br>───────────<br>".
Definition transparent : str := lit "rgba(0,0,0,0)".
Definition black : str := lit "#000".

(** [matchResults[si]], where a missing entry is falsy *)
Definition matched (matchResults : list bool) (si : nat) : bool :=
  default false (matchResults !! si).

(** [typeof base === 'number' ? base : (base ? base[pi] : dflt)] *)
Definition at_point {A} (base : attr A) (dflt : A) (pi : nat) : option A :=
  match base with
  | Scalar a => Some a
  | PerPoint l => mjoin (l !! pi)
  | Absent => Some dflt
  end.

(** The parts kept for a merged point: [parts[si]] for every position [si]
    of a matching studio, when that part exists and is not empty *)
Definition kept_parts (matchResults : list bool) (studioIndices : list nat)
    (parts : list str) : list str :=
  List.flat_map
    (fun si =>
       if matched matchResults (default 0 (studioIndices !! si))
          && nonempty (default [] (parts !! si))
       then [default [] (parts !! si)] else [])
    (seq 0 (length studioIndices)).

(** The three values pushed for point [pi]; [None] when the page throws
    (the hover text of a merged point is missing). *)
Definition filter_point (orig : snapshot) (matchResults : list bool)
    (pi : nat) (studioIndices : list nat)
    : option (option Q * option str * option str) :=
  if existsb (matched matchResults) studioIndices then
    let op := at_point (o_marker_opacity orig) 1%Q pi in
    let col := at_point (o_textfont_color orig) black pi in
    match o_hovertext orig with
    | Some h =>
      if bool_decide (1 < length studioIndices) then
        match mjoin (h !! pi) with
        | Some t =>
          Some (op, col,
                Some (join SEP (kept_parts matchResults studioIndices (split SEP t))))
        | None => None
        end
      else Some (op, col, mjoin (h !! pi))
    | None => Some (op, col, Some [])
    end
  else Some (Some 0%Q, Some transparent, Some []).

(** [Plotly.restyle] with the three arrays, on one trace *)
Definition restyle_points (vals : list (option Q * option str * option str))
    (d : tdata) : tdata :=
  {| visible := visible d; x := x d; y := y d;
     hovertext := Some (List.map (fun v => v.2) vals);
     text := text d;
     marker_opacity := PerPoint (List.map (fun v => v.1.1) vals);
     textfont_color := PerPoint (List.map (fun v => v.1.2) vals) |}.

(** A loop that restyles one trace per entry of a table: [upd] gives the
    change for an entry ([id] when the body runs [continue], [None] when it
    throws), and [Plotly.restyle(plotDiv, ..., [ti])] applies it to trace
    [ti]. *)
Definition restyle_each {V} (upd : nat * V -> option (tdata -> tdata))
    (entries : list (nat * V)) (data : list tdata) : option (list tdata) :=
  fold_left
    (fun acc entry => data ← acc; f ← upd entry; Some (alter f entry.1 data))
    entries (Some data).

(** The body of [for (var trIdx in TRACE_POINT_MAP)] *)
Definition scatter_update (originalData : list snapshot)
    (matchResults : list bool) (entry : nat * list (list nat))
    : option (tdata -> tdata) :=
  match originalData !! entry.1 with
  | Some orig =>
    match o_x orig with
    | Some _ =>
      vals ← mapM (fun ps => filter_point orig matchResults ps.1 ps.2)
               (imap pair entry.2);
      Some (restyle_points vals)
    | None => Some id
    end
  | None => Some id
  end.

(** [arr[i] = v] on an array: a write past the end leaves holes. *)
Definition array_set (i : nat) (v : jnum) (arr : list jnum) : list jnum :=
  if bool_decide (i < length arr) then <[i := v]> arr
  else arr ++ replicate (i - length arr) JUndef ++ [v].

(** The body of the loop over the studios of a line trace *)
Definition break_segment (matchResults : list bool) (studioList : list nat)
    (arr : list jnum) (si : nat) : list jnum :=
  if matched matchResults (default 0 (studioList !! si)) then arr
  else array_set (si * 3 + 1) JNull (array_set (si * 3) JNull arr).

Definition break_segments (matchResults : list bool) (studioList : list nat)
    (arr : list jnum) : list jnum :=
  fold_left (break_segment matchResults studioList)
    (seq 0 (length studioList)) arr.

Definition restyle_xy (newX newY : option (list jnum)) (d : tdata) : tdata :=
  {| visible := visible d; x := newX; y := newY;
     hovertext := hovertext d; text := text d;
     marker_opacity := marker_opacity d;
     textfont_color := textfont_color d |}.

(** The body of [for (var glIdx in GROWTH_LINE_STUDIOS)]; [None] when the
    page throws ([orig.y] is [null]). *)
Definition lines_update (originalData : list snapshot)
    (matchResults : list bool) (entry : nat * list nat)
    : option (tdata -> tdata) :=
  match originalData !! entry.1 with
  | Some orig =>
    match o_x orig with
    | Some ox =>
      oy ← o_y orig;
      Some (restyle_xy (Some (break_segments matchResults entry.2 ox))
              (Some (break_segments matchResults entry.2 oy)))
    | None => Some id
    end
  | None => Some id
  end.

Definition match_results `{Host} (T : tables) (data : list tdata) (f : form)
    : list bool :=
  List.map (studioMatchesFilter T data f) (STUDIOS T).

(** [applyFilters], on the traces; the counter and the studio list of the
    page are texts derived from [matchResults] and are not modelled. *)
Definition applyFilters `{Host} (T : tables) (originalData : list snapshot)
    (f : form) (data : list tdata) : option (list tdata) :=
  let matchResults := match_results T data f in
  data1 ← restyle_each (scatter_update originalData matchResults)
             (map_to_list (TRACE_POINT_MAP T)) data;
  restyle_each (lines_update originalData matchResults)
    (map_to_list (GROWTH_LINE_STUDIOS T)) data1.

(** *** [resetFilters] *)

(** The opacity written back: a number is spread over the points of the
    trace; [None] when the page throws ([orig.x] is [null]). *)
Definition reset_opacity (orig : snapshot) : option (attr Q) :=
  match o_marker_opacity orig with
  | Scalar q =>
    ox ← o_x orig;
    Some (match ox with
          | [] => Scalar q
          | _ => PerPoint (replicate (length ox) (Some q))
          end)
  | PerPoint l => Some (PerPoint l)
  | Absent => Some Absent
  end.

Definition restyle_reset (op : attr Q) (orig : snapshot) (d : tdata) : tdata :=
  {| visible := visible d; x := x d; y := y d;
     hovertext := o_hovertext orig; text := text d;
     marker_opacity := op;
     textfont_color := o_textfont_color orig |}.

Definition reset_scatter (originalData : list snapshot)
    (entry : nat * list (list nat)) : option (tdata -> tdata) :=
  match originalData !! entry.1 with
  | Some orig => op ← reset_opacity orig; Some (restyle_reset op orig)
  | None => Some id
  end.

Definition reset_lines (originalData : list snapshot)
    (entry : nat * list nat) : option (tdata -> tdata) :=
  match originalData !! entry.1 with
  | Some orig => Some (restyle_xy (o_x orig) (o_y orig))
  | None => Some id
  end.

(** [resetFilters], on the traces; the inputs become [cleared]. *)
Definition resetFilters (T : tables) (originalData : list snapshot)
    (data : list tdata) : option (list tdata) :=
  data1 ← restyle_each (reset_scatter originalData)
             (map_to_list (TRACE_POINT_MAP T)) data;
  restyle_each (reset_lines originalData)
    (map_to_list (GROWTH_LINE_STUDIOS T)) data1.

(** *** The page and its events *)

(** The traces as the page first holds them.  [hover_text] formats numbers
    and is not reproduced: [ht] stands for it.  A merged point carries the
    hover texts of its members joined by [SEP]; line traces have no hover
    text.  Label texts are not read by the filter and are left unset. *)
Definition jnum_of (v : option Q) : jnum :=
  match v with Some q => JNum q | None => JNull end.

Definition attr_of {A} (v : option A) : attr A :=
  match v with Some a => Scalar a | None => Absent end.

Definition render_trace (ht : Py.studio -> str) (vis : bool) (t : Py.trace)
    : tdata :=
  {| visible := vis;
     x := Some (List.map jnum_of (Py.t_x t));
     y := Some (List.map jnum_of (Py.t_y t));
     hovertext :=
       if eqb (Py.t_mode t) (lit "lines") then None
       else Some (List.map (fun p => Some (join SEP (List.map ht (Py.members p))))
                    (Py.t_points t));
     text := None;
     marker_opacity := attr_of (Py.t_marker_opacity t);
     textfont_color := attr_of (Py.t_textfont_color t) |}.

(** The figure as it is first shown: view 1 is visible. *)
Definition render (ht : Py.studio -> str) (fg : Py.figure) : list tdata :=
  zip_with (render_trace ht) (Py.make_visibility fg Py.v_founded) (Py.traces fg).

Definition set_visible (v : bool) (d : tdata) : tdata :=
  {| visible := v; x := x d; y := y d; hovertext := hovertext d;
     text := text d; marker_opacity := marker_opacity d;
     textfont_color := textfont_color d |}.

(** The state of the page: the traces, the inputs of the filter bar, the
    saved originals (empty until the page has initialised), whether the
    view-change listener is installed, and how many [applyFilters] calls
    [setTimeout] has queued. *)
Record page := {
  data : list tdata;
  inputs : form;
  originalData : list snapshot;
  listening : bool;
  timers : nat;
}.

Inductive event :=
| Init                    (* the load timer runs *)
| ClickView (view : str)  (* a view button *)
| TimerFires              (* a queued [applyFilters] runs *)
| ClickApply
| ClickReset
| Edit (f : form).        (* the user changes the inputs *)

Definition first_page (ht : Py.studio -> str) (fg : Py.figure) : page :=
  {| data := render ht fg; inputs := cleared; originalData := [];
     listening := false; timers := 0 |}.

(** One event.  A view button updates the [visible] flag of every trace to
    [make_visibility(view_key)]; when the listener is installed it then
    queues [applyFilters].  When a handler throws the traces are kept as
    they were. *)
Definition step `{Host} (fg : Py.figure) (T : tables) (p : page) (e : event)
    : page :=
  match e with
  | Init =>
    {| data := data p; inputs := inputs p;
       originalData := initOriginalData (data p);
       listening := true; timers := timers p |}
  | ClickView view =>
    {| data := zip_with set_visible (Py.make_visibility fg view) (data p);
       inputs := inputs p; originalData := originalData p;
       listening := listening p;
       timers := if listening p then S (timers p) else timers p |}
  | TimerFires =>
    match timers p with
    | 0 => p
    | S n =>
      {| data := default (data p)
                   (applyFilters T (originalData p) (inputs p) (data p));
         inputs := inputs p; originalData := originalData p;
         listening := listening p; timers := n |}
    end
  | ClickApply =>
    {| data := default (data p)
                 (applyFilters T (originalData p) (inputs p) (data p));
       inputs := inputs p; originalData := originalData p;
       listening := listening p; timers := timers p |}
  | ClickReset =>
    {| data := default (data p) (resetFilters T (originalData p) (data p));
       inputs := cleared; originalData := originalData p;
       listening := listening p; timers := timers p |}
  | Edit f =>
    {| data := data p; inputs := f; originalData := originalData p;
       listening := listening p; timers := timers p |}
  end.

Definition run `{Host} (fg : Py.figure) (T : tables) (p : page)
    (es : list event) : page :=
  fold_left (step fg T) es p.

End Js.

(* ===================================================================== *)
(** ** Notions used in the statements *)
(* ===================================================================== *)

Module Spec.

Section Keys.
Context {A K : Type} (key : A -> K) (keqb : K -> K -> bool).


End Keys.

(** Every index of the visibility table is the index of a trace. *)
Definition vm_range (n : nat) (vm : list (str * list nat)) : Prop :=
  Forall (fun e => Forall (fun i => i < n) e.2) vm.

(** No trace is listed under two entries of the visibility table, the entry
    ["growth_lines"] apart (the line traces are also listed under
    ["growth"]). *)
Fixpoint vm_disjoint (vm : list (str * list nat)) : Prop :=
  match vm with
  | [] => True
  | e :: rest =>
    (e.1 ≠ Py.v_growth_lines →
     Forall (fun e' => e'.1 ≠ Py.v_growth_lines → ∀ i, i ∈ e.2 → i ∉ e'.2) rest)
    ∧ vm_disjoint rest
  end.

Definition fig_wf (fg : Py.figure) : Prop :=
  vm_range (length (Py.traces fg)) (Py.visibility_map fg)
  ∧ vm_disjoint (Py.visibility_map fg).

(** The keys of the visibility table. *)
Definition vm_keys (fg : Py.figure) : list str := (Py.visibility_map fg).*1.

(** From [fg] to [fg'] the script has appended the traces [news], listed
    them under [key] in the visibility table, and left the other entries
    as they were (the entry ["growth_lines"] apart). *)
Definition emits (key : str) (news : list Py.trace) (fg fg' : Py.figure)
    : Prop :=
  Py.traces fg' = Py.traces fg ++ news
  ∧ (∀ v, v ∈ vm_keys fg → v ∈ vm_keys fg')
  ∧ Py.vm_get (Py.visibility_map fg') key
    = Py.vm_get (Py.visibility_map fg) key
      ++ seq (length (Py.traces fg)) (length news)
  ∧ ∀ v, v ≠ key → v ≠ Py.v_growth_lines →
      Py.vm_get (Py.visibility_map fg') v = Py.vm_get (Py.visibility_map fg) v.

(** The part of the script that builds the view [key]: as [emits], and the
    entry of [key] lists the new traces only. *)
Definition stage (key : str) (news : list Py.trace) (fg fg' : Py.figure)
    : Prop :=
  Py.traces fg' = Py.traces fg ++ news
  ∧ (∀ v, v ∈ vm_keys fg → v ∈ vm_keys fg')
  ∧ Py.vm_get (Py.visibility_map fg') key
    = seq (length (Py.traces fg)) (length news)
  ∧ ∀ v, v ≠ key → v ≠ Py.v_growth_lines →
      Py.vm_get (Py.visibility_map fg') v = Py.vm_get (Py.visibility_map fg) v.

(** The entry of [key] lists the traces [news], which follow one another
    in the figure. *)
Definition shown (key : str) (news : list Py.trace) (fg : Py.figure) : Prop :=
  ∃ before after,
    Py.traces fg = before ++ news ++ after
    ∧ Py.vm_get (Py.visibility_map fg) key = seq (length before) (length news).

(** The studios behind the points of a list of traces. *)
Definition plotted (news : list Py.trace) : list Py.studio :=
  List.flat_map (fun tr => List.flat_map Py.members (Py.t_points tr)) news.

(** From [fg] to [fg'] the script has appended, under [key], traces whose
    points stand for the studios of [l]. *)
Definition plots (key : str) (l : list Py.studio) (fg fg' : Py.figure)
    : Prop :=
  ∃ news, emits key news fg fg' ∧ ∀ s, s ∈ plotted news ↔ s ∈ l.

Definition builds (key : str) (l : list Py.studio) (fg fg' : Py.figure)
    : Prop :=
  ∃ news, stage key news fg fg' ∧ ∀ s, s ∈ plotted news ↔ s ∈ l.

(** The traces listed under [key] stand for the studios of [l]. *)
Definition displays (key : str) (l : list Py.studio) (fg : Py.figure) : Prop :=
  ∃ news, shown key news fg ∧ ∀ s, s ∈ plotted news ↔ s ∈ l.

(** The studios a view plots: the filter its part of the script applies to
    the list of studios. *)
Definition has_region (s : Py.studio) : bool :=
  Py.is_domestic s || Py.is_international s.

Definition in_view (view : str) (s : Py.studio) : bool :=
  if eqb view Py.v_founded then has_region s
  else if eqb view Py.v_current then has_region s
  else if eqb view Py.v_growth then Py.is_growth s && has_region s
  else if eqb view Py.v_business_model then Py.has_num Py.k_ip_ownership_score s
  else if eqb view Py.v_ai_adoption then
    has_region s
    && existsb (fun lv => Py.cat_is Py.k_ai_adoption_level lv s) Py.ai_levels
  else if eqb view Py.v_revenue then Py.has_num Py.k_revenue_billion_yen s
  else true.

(** The inputs with other year bounds. *)
Definition set_years (a b : str) (f : Js.form) : Js.form :=
  {| Js.yearMin := a; Js.yearMax := b;
     Js.showDom := Js.showDom f; Js.showIntl := Js.showIntl f;
     Js.sizeMin := Js.sizeMin f; Js.sizeMax := Js.sizeMax f;
     Js.search := Js.search f;
     Js.aiNone := Js.aiNone f; Js.aiExp := Js.aiExp f;
     Js.aiProd := Js.aiProd f; Js.aiCore := Js.aiCore f;
     Js.ownIndep := Js.ownIndep f; Js.ownSub := Js.ownSub f;
     Js.ownGroup := Js.ownGroup f |}.



(** Reading an array at any index; holes and indices past the end read as
    [undefined]. *)
Definition at_index (arr : list Js.jnum) (k : nat) : Js.jnum :=
  default Js.JUndef (arr !! k).

(** Index [k] is an end point of the segment of a studio that fails the
    filter: segment [si] occupies the indices [3 si] and [3 si + 1]. *)
Definition broken (matchResults : list bool) (studioList : list nat)
    (k : nat) : bool :=
  negb (k mod 3 =? 2) && (k / 3 <? length studioList)
  && negb (Js.matched matchResults (default 0 (studioList !! (k / 3)))).

(** The saved originals hold what the two loops of [applyFilters] index:
    a hover text for every merged point, and [y] wherever [x] is. *)
Definition page_ok (T : Js.tables) (originalData : list Js.snapshot) : Prop :=
  (∀ ti pm orig h pi ms,
     Js.TRACE_POINT_MAP T !! ti = Some pm → originalData !! ti = Some orig →
     Js.o_x orig ≠ None → Js.o_hovertext orig = Some h →
     pm !! pi = Some ms → 1 < length ms → is_Some (mjoin (h !! pi)))
  ∧ (∀ gl sl orig,
       Js.GROWTH_LINE_STUDIOS T !! gl = Some sl → originalData !! gl = Some orig →
       Js.o_x orig ≠ None → Js.o_y orig ≠ None).

(** The same condition as a test. *)
Definition scatter_okb (originalData : list Js.snapshot)
    (entry : nat * list (list nat)) : bool :=
  match originalData !! entry.1 with
  | Some orig =>
    match Js.o_x orig, Js.o_hovertext orig with
    | Some _, Some h =>
      forallb (fun ps => (length ps.2 <=? 1)
                         || match mjoin (h !! ps.1) with
                            | Some _ => true
                            | None => false
                            end)
        (imap pair entry.2)
    | _, _ => true
    end
  | None => true
  end.

Definition lines_okb (originalData : list Js.snapshot)
    (entry : nat * list nat) : bool :=
  match originalData !! entry.1 with
  | Some orig =>
    match Js.o_x orig, Js.o_y orig with
    | Some _, None => false
    | _, _ => true
    end
  | None => true
  end.

Definition page_okb (T : Js.tables) (originalData : list Js.snapshot) : bool :=
  forallb (scatter_okb originalData) (map_to_list (Js.TRACE_POINT_MAP T))
  && forallb (lines_okb originalData) (map_to_list (Js.GROWTH_LINE_STUDIOS T)).




(** The studios of a list are studios of the dataset: their positions are
    below [n]. *)
Definition known (n : nat) (l : list Py.studio) : Prop :=
  Forall (fun s => Py.gidx s < n) l.

(** What the script keeps true of its tables while it builds the views, for
    a dataset of [n] studios.  A point map belongs to a trace and lists
    positions of studios; outside the views ['business_model'] and
    ['ownership'] it is the list of the points of its trace.  A studio list
    of the line table belongs to a line trace with three coordinates per
    studio. *)
Definition fig_ok (n : nat) (fg : Py.figure) : Prop :=
  (∀ ti pm, Py.trace_point_maps fg !! ti = Some pm →
     ti < length (Py.traces fg)
     ∧ Forall (Forall (fun si => si < n)) pm
     ∧ (ti ∈ Py.vm_get (Py.visibility_map fg) Py.v_business_model
        ∨ ti ∈ Py.vm_get (Py.visibility_map fg) Py.v_ownership
        ∨ ∃ tr, Py.traces fg !! ti = Some tr
                ∧ pm = List.map Py.point_indices (Py.t_points tr)))
  ∧ (∀ gl sl, Py.growth_line_studio_indices fg !! gl = Some sl →
       Forall (fun si => si < n) sl
       ∧ ∃ tr, Py.traces fg !! gl = Some tr
               ∧ Py.t_mode tr = lit "lines"
               ∧ length (Py.t_x tr) = 3 * length sl
               ∧ length (Py.t_y tr) = 3 * length sl).

End Spec.

(* ===================================================================== *)
(** ** Sample data *)
(* ===================================================================== *)

Module Sample.

Definition studio_of (n r : string) (score : Q)
    (nm : list (str * option Q)) (ct : list (str * option str))
    (ls : list (str * list str)) : Py.studio :=
  {| Py.gidx := 0; Py.name := lit n; Py.region := lit r;
     Py.original_score := Some score;
     Py.nums := list_to_map nm; Py.cats := list_to_map ct;
     Py.lists := list_to_map ls |}.



(** A studio with no founding year. *)
Definition no_year : Py.studio :=
  studio_of "C" "international" (1 # 4)
    [ (Py.k_size_current_num, Some 50%Q); (Py.k_size_founded_num, Some 50%Q) ]
    [] [].

(** A small dataset: A and B share [(0.5, 100)], C is elsewhere and has no
    founding year, D has no current size and no business model. *)
Definition raw : list Py.studio :=
  [ studio_of "A" "domestic" (1 # 2)
      [ (Py.k_size_current_num, Some 100%Q); (Py.k_size_founded_num, Some 10%Q);
        (Py.k_founded, Some 1990%Q); (Py.k_ip_ownership_score, Some (1 # 2));
        (Py.k_revenue_billion_yen, Some 30%Q); (Py.k_operating_margin, Some (1 # 8)) ]
      [ (Py.k_business_model, Some (lit "commission"));
        (Py.k_ownership_type, Some (lit "independent")) ]
      [ (Py.k_notable_works, [lit "Alpha"]) ];
    studio_of "B" "domestic" (1 # 2)
      [ (Py.k_size_current_num, Some 100%Q); (Py.k_size_founded_num, Some 20%Q);
        (Py.k_founded, Some 2001%Q) ]
      [ (Py.k_ownership_type, Some (lit "subsidiary")) ] [];
    no_year;
    studio_of "D" "domestic" (3 # 4)
      [ (Py.k_founded, Some 2010%Q); (Py.k_ip_ownership_score, Some (1 # 4)) ]
      [] [] ].

Definition fig : Py.figure := default Py.empty_figure (Py.build raw).

Definition T : Js.tables := Js.tables_of raw fig.

(** A stand-in for [hover_text]. *)
Definition ht (s : Py.studio) : str := lit "<b>" ++ Py.name s ++ lit "</b>".

(** The page once it has initialised. *)
Definition page : Js.page :=
  Js.step (H := Js.ascii_host) fig T (Js.first_page ht fig) Js.Init.

Definition no_snapshot : Js.snapshot :=
  {| Js.o_x := None; Js.o_y := None; Js.o_hovertext := None;
     Js.o_text := None; Js.o_marker_opacity := Js.Absent;
     Js.o_textfont_color := Js.Absent |}.

Definition snapshot_8 : Js.snapshot :=
  default no_snapshot (Js.originalData page !! 8).
Definition snapshot_26 : Js.snapshot :=
  default no_snapshot (Js.originalData page !! 26).

(** The inputs with a lower year bound of 2000. *)
Definition since_2000 : Js.form := Spec.set_years (lit "2000") [] Js.cleared.

(** The inputs with a lower size bound of 50. *)
Definition at_least_50 : Js.form :=
  {| Js.yearMin := []; Js.yearMax := [];
     Js.showDom := true; Js.showIntl := true;
     Js.sizeMin := lit "50"; Js.sizeMax := []; Js.search := [];
     Js.aiNone := true; Js.aiExp := true; Js.aiProd := true; Js.aiCore := true;
     Js.ownIndep := true; Js.ownSub := true; Js.ownGroup := true |}.

End Sample.

(* ===================================================================== *)
(** ** The coordinate grouper *)
(* ===================================================================== *)

Module Grouper.
Import Py Spec.



Section GroupByFacts.
Context {A K : Type} (key : A -> K) (keqb : K -> K -> bool).




Lemma group_by_snoc l a :
  group_by key keqb (l ++ [a])
  = setdefault_append keqb (key a) a (group_by key keqb l).
Proof. unfold group_by. by rewrite fold_left_app. Qed.

Lemma sda_perm k a (g : list (K * list A)) :
  Permutation (List.concat (List.map snd (setdefault_append keqb k a g)))
              (List.concat (List.map snd g) ++ [a]).
Proof.
  induction g as [|[k' ms] g IH]; simpl; [reflexivity|].
  destruct (keqb k' k); simpl.
  - rewrite <- !app_assoc. apply Permutation_app_head, Permutation_app_comm.
  - rewrite IH. by rewrite app_assoc.
Qed.

Lemma group_by_perm l :
  Permutation (List.concat (List.map snd (group_by key keqb l))) l.
Proof.
  induction l as [|a l IH] using rev_ind; [reflexivity|].
  rewrite group_by_snoc, sda_perm. by rewrite IH.
Qed.

Lemma sda_nonempty k a (g : list (K * list A)) :
  Forall (fun e => e.2 ≠ []) g →
  Forall (fun e => e.2 ≠ []) (setdefault_append keqb k a g).
Proof.
  induction 1 as [|[k' ms] g Hx Hg IH]; simpl.
  - repeat constructor. discriminate.
  - destruct (keqb k' k); constructor; auto.
    simpl. intros E. by apply app_eq_nil in E as [_ ?].
Qed.

Lemma group_by_nonempty l :
  Forall (fun e => e.2 ≠ []) (group_by key keqb l).
Proof.
  induction l as [|a l IH] using rev_ind; [constructor|].
  rewrite group_by_snoc. by apply sda_nonempty.
Qed.



Hypothesis keqb_refl : ∀ k, keqb k k = true.
Hypothesis keqb_sym : ∀ a b, keqb a b = keqb b a.
Hypothesis keqb_trans :
  ∀ a b c, keqb a b = true → keqb b c = true → keqb a c = true.




End GroupByFacts.

(** *** Equality of coordinates *)







(** *** [merge_overlapping] through its groups *)

Lemma coord_of_with_name xk sk n s :
  coord_of xk sk (with_name n s) = coord_of xk sk s.
Proof. reflexivity. Qed.

Lemma merge_group_members g :
  g.2 ≠ [] → List.map members (merge_group g) = [g.2].
Proof. destruct g as [k [|s [|s' ms]]]; simpl; done. Qed.

Lemma merge_groups_members gs :
  Forall (fun e => e.2 ≠ []) gs →
  List.map members (List.flat_map merge_group gs) = List.map snd gs.
Proof.
  induction 1 as [|g gs Hg Hgs IH]; simpl; [done|].
  rewrite List.map_app, IH, merge_group_members by done. done.
Qed.

Lemma merge_group_indices g :
  g.2 ≠ [] → List.map point_indices (merge_group g) = [List.map gidx g.2].
Proof. destruct g as [k [|s [|s' ms]]]; simpl; done. Qed.

Lemma point_indices_members p :
  point_indices p = List.map gidx (members p).
Proof. unfold point_indices, members. by destruct (hover_parts p). Qed.




Lemma members_perm studio_list xk sk :
  Permutation
    (List.concat (List.map members (merge_overlapping studio_list xk sk)))
    studio_list.
Proof.
  unfold merge_overlapping.
  rewrite merge_groups_members by apply group_by_nonempty.
  apply group_by_perm.
Qed.

Lemma build_point_map_members studio_list xk sk :
  build_point_map studio_list xk sk
  = List.map (fun p => List.map gidx (members p))
      (merge_overlapping studio_list xk sk).
Proof.
  unfold build_point_map. apply List.map_ext. apply point_indices_members.
Qed.




End Grouper.

(* ===================================================================== *)
(** ** The label placement resolver *)
(* ===================================================================== *)

Module Resolver.
Import Py.

(** *** Sorting the pairs *)










(** *** The pairs *)


(** *** One step of the loop *)







(** *** The whole loop *)









End Resolver.

(* ===================================================================== *)
(** ** The filter engine *)
(* ===================================================================== *)

Module Filter.
Import Js Spec.

(** *** Cutting a hover text at the separator *)











(** *** Loops that restyle one trace per entry *)

Lemma restyle_each_none {V} (upd : nat * V -> option (tdata -> tdata)) entries :
  fold_left
    (fun (acc : option (list tdata)) entry =>
       data ← acc; f ← upd entry; Some (alter f entry.1 data))
    entries None = None.
Proof. induction entries; simpl; done. Qed.

Lemma restyle_each_cons {V} (upd : nat * V -> option (tdata -> tdata)) e es data :
  restyle_each upd (e :: es) data
  = f ← upd e; restyle_each upd es (alter f e.1 data).
Proof.
  unfold restyle_each. simpl. destruct (upd e); simpl; [done|].
  apply restyle_each_none.
Qed.

Lemma restyle_each_spec {V} (upd : nat * V -> option (tdata -> tdata))
    entries data data' :
  NoDup (entries.*1) →
  restyle_each upd entries data = Some data' →
  length data' = length data
  ∧ (∀ i, i ∉ entries.*1 → data' !! i = data !! i)
  ∧ (∀ i v, (i, v) ∈ entries →
       ∃ f, upd (i, v) = Some f ∧ data' !! i = f <$> data !! i).
Proof.
  revert data. induction entries as [|[j w] es IH]; intros data Hnd Hr.
  - inversion Hr; subst. split_and!; [done|done|]. intros i v Hv.
    by apply elem_of_nil in Hv.
  - rewrite restyle_each_cons in Hr.
    destruct (upd (j, w)) as [f|] eqn:Hf; [|done]. simpl in Hr.
    rewrite fmap_cons in Hnd. apply NoDup_cons in Hnd as [Hj Hnd].
    simpl in Hj.
    destruct (IH _ Hnd Hr) as (Hlen & Hout & Hin). split_and!.
    + by rewrite Hlen, length_alter.
    + intros i Hi. rewrite fmap_cons in Hi. apply not_elem_of_cons in Hi as [Hij Hi].
      rewrite Hout by done. by apply list_lookup_alter_ne.
    + intros i v Hv. apply elem_of_cons in Hv as [E|Hiv].
      * inversion E; subst. exists f. split; [done|].
        rewrite Hout by done. apply list_lookup_alter_eq.
      * destruct (Hin _ _ Hiv) as (g & Hg & Hd). exists g. split; [done|].
        rewrite Hd. rewrite list_lookup_alter_ne; [done|].
        intros ->. apply Hj. apply list_elem_of_fmap. by exists (i, v).
Qed.

Lemma restyle_each_total {V} (upd : nat * V -> option (tdata -> tdata))
    entries data :
  (∀ e, e ∈ entries → is_Some (upd e)) →
  is_Some (restyle_each upd entries data).
Proof.
  revert data. induction entries as [|e es IH]; intros data Hall.
  - by eexists.
  - rewrite restyle_each_cons. destruct (Hall e) as [f Hf]; [by left|].
    rewrite Hf. simpl. apply IH. intros e' He'. apply Hall. by right.
Qed.

(** The same, for the entries of a table. *)
Lemma restyle_table {V} (upd : nat * V -> option (tdata -> tdata))
    (m : gmap nat V) data data' :
  restyle_each upd (map_to_list m) data = Some data' →
  length data' = length data
  ∧ (∀ i, m !! i = None → data' !! i = data !! i)
  ∧ (∀ i v, m !! i = Some v →
       ∃ f, upd (i, v) = Some f ∧ data' !! i = f <$> data !! i).
Proof.
  intros Hr. apply restyle_each_spec in Hr as (Hlen & Hout & Hin).
  - split_and!; [done| |].
    + intros i Hi. apply Hout. intros Hin'.
      apply list_elem_of_fmap in Hin' as ([i' v] & -> & Hv).
      apply elem_of_map_to_list in Hv. simpl in Hi. congruence.
    + intros i v Hv. apply Hin. by apply elem_of_map_to_list.
  - apply NoDup_fst_map_to_list.
Qed.

Lemma restyle_table_total {V} (upd : nat * V -> option (tdata -> tdata))
    (m : gmap nat V) data :
  (∀ i v, m !! i = Some v → is_Some (upd (i, v))) →
  is_Some (restyle_each upd (map_to_list m) data).
Proof.
  intros Hall. apply restyle_each_total. intros [i v] Hv. apply Hall.
  by apply elem_of_map_to_list.
Qed.

(** *** The two loops of [applyFilters] *)

Lemma applyFilters_spec `{Host} T originalData f data data' :
  applyFilters T originalData f data = Some data' →
  let mr := match_results T data f in
  length data' = length data
  ∧ ∀ i d, data !! i = Some d →
      ∃ fs fl,
        match TRACE_POINT_MAP T !! i with
        | Some pm => scatter_update originalData mr (i, pm) = Some fs
        | None => fs = id
        end
        ∧ match GROWTH_LINE_STUDIOS T !! i with
          | Some sl => lines_update originalData mr (i, sl) = Some fl
          | None => fl = id
          end
        ∧ data' !! i = Some (fl (fs d)).
Proof.
  intros Hr mr. unfold applyFilters in Hr. fold mr in Hr. cbn zeta in Hr.
  destruct (restyle_each (scatter_update originalData mr) _ data)
    as [data1|] eqn:H1; [|done]. simpl in Hr.
  apply restyle_table in H1 as (Hlen1 & Hout1 & Hin1).
  apply restyle_table in Hr as (Hlen2 & Hout2 & Hin2).
  split; [congruence|]. intros i d Hd.
  assert (∃ fs, match TRACE_POINT_MAP T !! i with
                | Some pm => scatter_update originalData mr (i, pm) = Some fs
                | None => fs = id
                end ∧ data1 !! i = Some (fs d)) as (fs & Hfs & Hd1).
  { destruct (TRACE_POINT_MAP T !! i) as [pm|] eqn:E.
    - destruct (Hin1 _ _ E) as (g & Hg & Hgd). exists g. split; [done|].
      by rewrite Hgd, Hd.
    - exists id. split; [done|]. by rewrite Hout1. }
  exists fs. destruct (GROWTH_LINE_STUDIOS T !! i) as [sl|] eqn:E.
  - destruct (Hin2 _ _ E) as (g & Hg & Hgd). exists g. split_and!; [done..|].
    by rewrite Hgd, Hd1.
  - exists id. split_and!; [done..|]. by rewrite Hout2.
Qed.

Lemma filter_point_total orig mr pi ms :
  (∀ h, o_hovertext orig = Some h → 1 < length ms → is_Some (mjoin (h !! pi))) →
  is_Some (filter_point orig mr pi ms).
Proof.
  intros Hh. unfold filter_point.
  destruct (existsb _ _); [|by eexists].
  destruct (o_hovertext orig) as [h|]; [|by eexists].
  case_bool_decide; [|by eexists].
  destruct (Hh h) as [t Ht]; [done..|]. rewrite Ht. by eexists.
Qed.

Lemma applyFilters_total `{Host} T originalData f data :
  page_ok T originalData → is_Some (applyFilters T originalData f data).
Proof.
  intros [Hs Hl]. unfold applyFilters.
  destruct (restyle_table_total
              (scatter_update originalData (match_results T data f))
              (TRACE_POINT_MAP T) data) as [data1 H1].
  { intros ti pm Hpm. unfold scatter_update. simpl.
    destruct (originalData !! ti) as [orig|] eqn:Ho; [|by eexists].
    destruct (o_x orig) eqn:Hx; [|by eexists].
    destruct (mapM _ _) as [vals|] eqn:Hm; [by eexists|].
    exfalso. assert (is_Some (mapM (fun ps => filter_point orig
               (match_results T data f) ps.1 ps.2) (imap pair pm))) as [? E];
      [|congruence].
    apply mapM_is_Some. apply Forall_forall. intros [pi ms] Hin.
    apply elem_of_lookup_imap in Hin as (i & ms' & E & Hi). inversion E; subst.
    apply filter_point_total. intros h Hh Hlen. eapply Hs; eauto. congruence. }
  rewrite H1. simpl. apply restyle_table_total.
  intros gl sl Hsl. unfold lines_update. simpl.
  destruct (originalData !! gl) as [orig|] eqn:Ho; [|by eexists].
  destruct (o_x orig) eqn:Hx; [|by eexists].
  destruct (o_y orig) eqn:Hy; [by eexists|].
  exfalso. eapply Hl; eauto. congruence.
Qed.

(** *** Breaking the segments of a line *)

Lemma array_set_at i v arr k :
  at_index (array_set i v arr) k = if bool_decide (k = i) then v else at_index arr k.
Proof.
  unfold at_index, array_set. case_bool_decide as Hlt.
  - case_bool_decide as Hk.
    + subst. by rewrite list_lookup_insert_eq.
    + by rewrite list_lookup_insert_ne.
  - case_bool_decide as Hk.
    + subst. rewrite lookup_app_r by lia.
      rewrite lookup_app_r by (rewrite length_replicate; lia).
      rewrite length_replicate.
      by replace (i - length arr - (i - length arr)) with 0 by lia.
    + destruct (decide (k < length arr)) as [Hka|Hka].
      * by rewrite lookup_app_l.
      * rewrite lookup_app_r by lia.
        rewrite (lookup_ge_None_2 arr) by lia. simpl.
        destruct (decide (k - length arr < i - length arr)) as [Hkr|Hkr].
        -- rewrite lookup_app_l by (rewrite length_replicate; lia).
           by rewrite lookup_replicate_2.
        -- rewrite lookup_app_r by (rewrite length_replicate; lia).
           rewrite length_replicate.
           rewrite lookup_ge_None_2; [done|]. simpl. lia.
Qed.

Lemma break_segments_at mr sl arr k :
  at_index (break_segments mr sl arr) k
  = if broken mr sl k then JNull else at_index arr k.
Proof.
  unfold break_segments, broken.
  assert (∀ n, n ≤ length sl →
            at_index (fold_left (break_segment mr sl) (seq 0 n) arr) k
            = if negb (k mod 3 =? 2) && (k / 3 <? n)
                 && negb (matched mr (default 0 (sl !! (k / 3))))
              then JNull else at_index arr k) as Hn.
  { induction n as [|n IH]; intros Hle.
    - cbn [seq fold_left].
      replace (k / 3 <? 0) with false by (symmetry; apply Nat.ltb_ge; lia).
      by rewrite andb_false_r.
    - rewrite seq_S, fold_left_app. cbn [fold_left Nat.add].
      unfold break_segment at 1.
      pose proof (Nat.div_mod_eq k 3) as Hdm.
      pose proof (Nat.mod_upper_bound k 3) as Hmod.
      assert (k / 3 ≠ n → (k / 3 <? S n) = (k / 3 <? n)) as Hlt.
      { intros. destruct (Nat.ltb_spec (k / 3) n), (Nat.ltb_spec (k / 3) (S n));
          done || lia. }
      destruct (matched mr (default 0 (sl !! n))) eqn:Hm.
      + rewrite IH by lia.
        destruct (decide (k / 3 = n)) as [E|E].
        * rewrite E, Hm. cbn [negb]. by rewrite !andb_false_r.
        * by rewrite Hlt.
      + rewrite !array_set_at, IH by lia.
        destruct (decide (k / 3 = n)) as [E|E].
        * rewrite E, Hm. rewrite Nat.ltb_irrefl, andb_false_r. cbn [negb andb].
          replace (n <? S n) with true by (symmetry; apply Nat.ltb_lt; lia).
          rewrite !andb_true_r.
          destruct (Nat.eqb_spec (k mod 3) 2) as [E2|E2]; cbn [negb].
          -- rewrite !bool_decide_eq_false_2 by lia. done.
          -- destruct (decide (k = n * 3 + 1)); [by rewrite bool_decide_eq_true_2|].
             rewrite bool_decide_eq_false_2 by done.
             rewrite bool_decide_eq_true_2 by lia. done.
        * rewrite !bool_decide_eq_false_2 by lia. by rewrite Hlt. }
  by apply Hn.
Qed.

Lemma broken_segment mr sl si s :
  sl !! si = Some s →
  broken mr sl (si * 3) = negb (matched mr s)
  ∧ broken mr sl (si * 3 + 1) = negb (matched mr s)
  ∧ broken mr sl (si * 3 + 2) = false.
Proof.
  intros Hs. apply lookup_lt_Some in Hs as Hlt. unfold broken.
  assert (si * 3 / 3 = si) as E0 by (apply Nat.div_mul; lia).
  assert ((si * 3 + 1) / 3 = si) as E1.
  { rewrite Nat.add_comm, Nat.div_add by lia. done. }
  assert ((si * 3 + 2) / 3 = si) as E2.
  { rewrite Nat.add_comm, Nat.div_add by lia. done. }
  assert (si * 3 mod 3 = 0) as M0 by (apply Nat.Div0.mod_mul).
  assert ((si * 3 + 1) mod 3 = 1) as M1.
  { rewrite Nat.add_comm, Nat.Div0.mod_add. done. }
  assert ((si * 3 + 2) mod 3 = 2) as M2.
  { rewrite Nat.add_comm, Nat.Div0.mod_add. done. }
  rewrite E0, E1, E2, M0, M1, M2, Hs.
  replace (si <? length sl) with true by (symmetry; by apply Nat.ltb_lt).
  done.
Qed.

Lemma broken_past_end mr sl k : 3 * length sl ≤ k → broken mr sl k = false.
Proof.
  intros Hk. unfold broken.
  replace (k / 3 <? length sl) with false; [by rewrite andb_false_r|].
  symmetry. apply Nat.ltb_ge. apply Nat.div_le_lower_bound; lia.
Qed.

(** C8.  For every line trace of the growth view and every state of the
    inputs, [applyFilters] returns, and in that trace the two end points of
    a segment are [null] in [x] and in [y] when the studio of the segment
    fails the filter; every other entry of the two arrays is the saved one.
    Segment [si] is the pair of entries [3 si], [3 si + 1] and belongs to
    studio [si] of the trace's studio list. *)
Theorem C8_growth_lines `{Host} (T : tables) (originalData : list snapshot)
    (f : form) (data : list tdata) (gl : nat) (studioList : list nat)
    (orig : snapshot) (ox oy : list jnum) :
  page_ok T originalData →
  GROWTH_LINE_STUDIOS T !! gl = Some studioList →
  originalData !! gl = Some orig →
  o_x orig = Some ox → o_y orig = Some oy →
  gl < length data →
  let mr := match_results T data f in
  ∃ data' d' newX newY,
    applyFilters T originalData f data = Some data'
    ∧ data' !! gl = Some d'
    ∧ x d' = Some newX ∧ y d' = Some newY
    ∧ (∀ k, at_index newX k
             = (if broken mr studioList k then JNull else at_index ox k)
            ∧ at_index newY k
              = (if broken mr studioList k then JNull else at_index oy k))
    ∧ (∀ si s, studioList !! si = Some s →
         broken mr studioList (si * 3) = negb (matched mr s)
         ∧ broken mr studioList (si * 3 + 1) = negb (matched mr s)
         ∧ broken mr studioList (si * 3 + 2) = false)
    ∧ (∀ k, 3 * length studioList ≤ k → broken mr studioList k = false).
Proof.
  intros Hok Hsl Ho Hx Hy Hlt mr.
  destruct (applyFilters_total T originalData f data Hok) as [data' Hr].
  destruct (lookup_lt_is_Some_2 data gl Hlt) as [d Hd].
  destruct (applyFilters_spec _ _ _ _ _ Hr) as [_ Hsp].
  destruct (Hsp _ _ Hd) as (fs & fl & _ & Hfl & Hd'). rewrite Hsl in Hfl.
  unfold lines_update in Hfl. simpl in Hfl. rewrite Ho, Hx, Hy in Hfl.
  simpl in Hfl. inversion Hfl; subst fl. clear Hfl.
  eexists data', _, _, _. split_and!; [done|exact Hd'|reflexivity|reflexivity|..].
  - intros k. split; apply break_segments_at.
  - intros si s. apply broken_segment.
  - intros k. apply broken_past_end.
Qed.

(** C10.  A studio whose founding year is absent or [None] is written to
    the page with [founded = null]; the year clause then holds for it, and
    its result under the filter is the same for all year bounds: only the
    other clauses can exclude it. *)
Theorem C10_missing_year `{Host} (T : tables) (data : list tdata) (f : form)
    (i : nat) (s : Py.studio) :
  default None (Py.get s Py.k_founded) = None →
  let js := export_studio i s in
  founded js = None
  ∧ year_clause f js = true
  ∧ ∀ a b, studioMatchesFilter T data (set_years a b f) js
           = studioMatchesFilter T data f js.
Proof.
  intros Hf js. assert (founded js = None) as E by done.
  split_and!; [done| |].
  - unfold year_clause. rewrite E. simpl. by rewrite !andb_false_r.
  - intros a b. unfold studioMatchesFilter.
    assert (∀ g, year_clause g js = true) as Hy.
    { intros g. unfold year_clause. rewrite E. simpl. by rewrite !andb_false_r. }
    rewrite !Hy. reflexivity.
Qed.

(** *** What the two loop bodies leave alone *)

Lemma lines_update_keeps originalData mr e fl d :
  lines_update originalData mr e = Some fl →
  visible (fl d) = visible d ∧ hovertext (fl d) = hovertext d
  ∧ text (fl d) = text d ∧ marker_opacity (fl d) = marker_opacity d
  ∧ textfont_color (fl d) = textfont_color d.
Proof.
  unfold lines_update. intros Hfl.
  destruct (originalData !! e.1) as [orig|]; [|by inversion Hfl].
  destruct (o_x orig); [|by inversion Hfl].
  destruct (o_y orig); [|done]. by inversion Hfl.
Qed.

Lemma scatter_update_keeps originalData mr e fs d :
  scatter_update originalData mr e = Some fs →
  visible (fs d) = visible d ∧ x (fs d) = x d ∧ y (fs d) = y d
  ∧ text (fs d) = text d.
Proof.
  unfold scatter_update. intros Hfs.
  destruct (originalData !! e.1) as [orig|]; [|by inversion Hfs].
  destruct (o_x orig); [|by inversion Hfs].
  destruct (mapM _ _); [|done]. by inversion Hfs.
Qed.


(** *** One point *)




Lemma matched_outside `{Host} T data f si :
  STUDIOS T !! si = None → matched (match_results T data f) si = false.
Proof.
  intros Hs. unfold matched, match_results.
  change (List.map ?g ?l) with (g <$> l).
  by rewrite list_lookup_fmap, Hs.
Qed.


Lemma page_okb_ok T originalData :
  page_okb T originalData = true → page_ok T originalData.
Proof.
  unfold page_okb. rewrite andb_true_iff, !forallb_forall. intros [Hs Hl]. split.
  - intros ti pm orig h pi ms Hpm Ho Hx Hh Hms Hlen.
    assert (In (ti, pm) (map_to_list (TRACE_POINT_MAP T))) as Hin
      by by apply list_elem_of_In, elem_of_map_to_list.
    specialize (Hs _ Hin). unfold scatter_okb in Hs. simpl in Hs.
    rewrite Ho, Hh in Hs. destruct (o_x orig); [|done].
    rewrite forallb_forall in Hs.
    assert (In (pi, ms) (imap pair pm)) as Hin2.
    { apply list_elem_of_In, elem_of_lookup_imap. by exists pi, ms. }
    specialize (Hs _ Hin2). simpl in Hs.
    destruct (mjoin (h !! pi)); [by eexists|].
    rewrite orb_false_r in Hs. apply Nat.leb_le in Hs. lia.
  - intros gl sl orig Hsl Ho Hx Hy.
    assert (In (gl, sl) (map_to_list (GROWTH_LINE_STUDIOS T))) as Hin
      by by apply list_elem_of_In, elem_of_map_to_list.
    specialize (Hl _ Hin). unfold lines_okb in Hl. simpl in Hl.
    rewrite Ho, Hy in Hl. by destruct (o_x orig).
Qed.

Lemma sample_page_ok : page_ok Sample.T (originalData Sample.page).
Proof. apply page_okb_ok. by vm_compute. Qed.



Lemma C8_growth_lines_witness :
  ∃ data' d' newX,
    applyFilters (H := ascii_host) Sample.T (originalData Sample.page)
      Sample.since_2000 (data Sample.page) = Some data'
    ∧ data' !! 8 = Some d' ∧ x d' = Some newX
    ∧ at_index newX 0 = JNull ∧ at_index newX 1 = JNull
    ∧ at_index newX 3 = at_index (default [] (o_x Sample.snapshot_8)) 3.
Proof.
  destruct (C8_growth_lines (H := ascii_host) Sample.T
              (originalData Sample.page) Sample.since_2000 (data Sample.page)
              8 [0; 1] Sample.snapshot_8
              (default [] (o_x Sample.snapshot_8))
              (default [] (o_y Sample.snapshot_8)))
    as (data' & d' & newX & newY & Hr & Hd' & Hx & Hy & Hat & _).
  - exact sample_page_ok.
  - by vm_compute.
  - by vm_compute.
  - by vm_compute.
  - by vm_compute.
  - vm_compute. lia.
  - exists data', d', newX. split_and!; [done..| | |].
    + rewrite (proj1 (Hat 0)). by vm_compute.
    + rewrite (proj1 (Hat 1)). by vm_compute.
    + rewrite (proj1 (Hat 3)). by vm_compute.
Defined.

Lemma C10_missing_year_witness :
  year_clause Sample.since_2000 (export_studio 2 Sample.no_year) = true.
Proof.
  refine (proj1 (proj2 (C10_missing_year (H := ascii_host) Sample.T
                          (data Sample.page) Sample.since_2000 2
                          Sample.no_year _))).
  reflexivity.
Defined.

(** *** [resetFilters] *)



(** *** The page under its events *)

Lemma make_visibility_length fg view :
  length (Py.make_visibility fg view) = length (Py.traces fg).
Proof.
  unfold Py.make_visibility.
  generalize (Py.vm_get (Py.visibility_map fg) view).
  assert (∀ (l : list nat) (vis : list bool),
            length (fold_left (fun vis idx => <[idx := true]> vis) l vis)
            = length vis) as Hf.
  { induction l as [|i l IH]; intros vis; simpl; [done|].
    by rewrite IH, length_insert. }
  intros l. by rewrite Hf, length_replicate.
Qed.









End Filter.

(* ===================================================================== *)
(** ** The view builder *)
(* ===================================================================== *)

Module Builder.
Import Py Spec.

(** *** The visibility table *)

Lemma eqb_eq (a b : str) : eqb a b = true ↔ a = b.
Proof. unfold eqb. apply bool_decide_eq_true. Qed.

Lemma eqb_neq (a b : str) : eqb a b = false ↔ a ≠ b.
Proof. unfold eqb. apply bool_decide_eq_false. Qed.

(** [vm_append] changes at most one entry, whose key is [view]. *)
Lemma vm_append_rel view n vm :
  Forall2 (fun e e' => e'.1 = e.1
                       ∧ (e'.2 = e.2 ∨ (e.1 = view ∧ e'.2 = e.2 ++ [n])))
    vm (vm_append view n vm).
Proof.
  induction vm as [|[k l] vm IH]; simpl; [constructor|].
  destruct (eqb k view) eqn:E.
  - constructor.
    + simpl. split; [done|]. right. split; [by apply eqb_eq|done].
    + clear. induction vm; constructor; auto.
  - constructor; [|done]. simpl. auto.
Qed.

Lemma Forall2_transfer {A} (R : A -> A -> Prop) (P Q : A -> Prop) l l' :
  Forall2 R l l' → (∀ e e', R e e' → P e → Q e') → Forall P l → Forall Q l'.
Proof.
  intros Hrel Hstep. induction Hrel; intros Hl; [constructor|].
  inversion Hl; subst. constructor; eauto.
Qed.

Lemma vm_range_mono n m vm : n ≤ m → vm_range n vm → vm_range m vm.
Proof.
  intros Hnm Hr. unfold vm_range in *.
  eapply Forall_impl; [exact Hr|]. intros e He. simpl in He.
  eapply Forall_impl; [exact He|]. intros; simpl in *; lia.
Qed.

Lemma vm_range_append view n m vm :
  n < m → vm_range m vm → vm_range m (vm_append view n vm).
Proof.
  intros Hn Hr. unfold vm_range in *.
  eapply Forall2_transfer; [apply (vm_append_rel view n)| |exact Hr].
  intros e e' [Hk Hl] He. simpl in *.
  destruct Hl as [->|[_ ->]]; [done|]. apply Forall_app. split; [done|].
  by repeat constructor.
Qed.

Lemma vm_disjoint_append_fresh view n vm :
  vm_range n vm → vm_disjoint vm → vm_disjoint (vm_append view n vm).
Proof.
  induction vm as [|[k l] vm IH]; simpl; [done|].
  intros Hr [Hd Hds]. inversion Hr as [|? ? Hl Hr']; subst. simpl in *.
  destruct (eqb k view) eqn:E; simpl.
  - split; [|done]. intros Hk. specialize (Hd Hk).
    rewrite Forall_forall in Hd |- *. intros e' He' Hk' i Hi.
    apply elem_of_app in Hi as [Hi|Hi]; [by apply Hd|].
    apply list_elem_of_singleton in Hi as ->.
    unfold vm_range in Hr'. rewrite Forall_forall in Hr'.
    specialize (Hr' _ He'). rewrite Forall_forall in Hr'.
    intros Hn. specialize (Hr' _ Hn). lia.
  - split; [|by apply IH]. intros Hk. specialize (Hd Hk).
    eapply Forall2_transfer; [apply (vm_append_rel view n)| |exact Hd].
    intros e e' [Hk' Hl'] He. simpl in *. rewrite Hk'. intros Hne i Hi.
    destruct Hl' as [->|[_ ->]]; [by apply He|].
    intros Hin. apply elem_of_app in Hin as [Hin|Hin]; [by eapply He|].
    apply list_elem_of_singleton in Hin as ->.
    rewrite Forall_forall in Hl. specialize (Hl _ Hi). lia.
Qed.

Lemma vm_disjoint_append_lines n vm :
  vm_disjoint vm → vm_disjoint (vm_append v_growth_lines n vm).
Proof.
  induction vm as [|[k l] vm IH]; simpl; [done|].
  intros [Hd Hds]. destruct (eqb k v_growth_lines) eqn:E; simpl.
  - split; [|done]. intros Hk. apply eqb_eq in E. done.
  - split; [|by apply IH]. intros Hk. specialize (Hd Hk).
    eapply Forall2_transfer; [apply (vm_append_rel v_growth_lines n)| |exact Hd].
    intros e e' [Hk' Hl'] He. simpl in *. rewrite Hk'. intros Hne i Hi.
    destruct Hl' as [->|[Hgl _]]; [by apply He|done].
Qed.

Lemma vm_range_reset view n vm : vm_range n vm → vm_range n (vm_reset view vm).
Proof.
  unfold vm_range. induction 1 as [|[k l] vm Hl Hr IH]; simpl.
  - by repeat constructor.
  - destruct (eqb k view); constructor; auto.
Qed.

Lemma vm_disjoint_reset view vm :
  vm_disjoint vm → vm_disjoint (vm_reset view vm).
Proof.
  induction vm as [|[k l] vm IH]; simpl.
  - intros _. split; [|done]. by constructor.
  - intros [Hd Hds]. destruct (eqb k view) eqn:E; simpl.
    + split; [|done]. intros _. apply Forall_forall. intros e' _ _ i Hi.
      by apply elem_of_nil in Hi.
    + split; [|by apply IH]. intros Hk. specialize (Hd Hk).
      clear IH Hds. induction vm as [|[k' l'] vm IH]; simpl.
      * repeat constructor. simpl. intros _ i _ Hi. by apply elem_of_nil in Hi.
      * inversion Hd; subst. destruct (eqb k' view); constructor; auto.
        simpl. intros _ i _ Hi. by apply elem_of_nil in Hi.
Qed.

(** *** The figure while it is built *)

Lemma fig_wf_ext fg fg' :
  traces fg' = traces fg → visibility_map fg' = visibility_map fg →
  fig_wf fg → fig_wf fg'.
Proof. unfold fig_wf. by intros -> ->. Qed.

(** A trace is appended and, possibly after its point map is set, listed
    under a view. *)
Lemma emit_wf view tr fg fg1 :
  traces fg1 = traces fg ++ [tr] → visibility_map fg1 = visibility_map fg →
  fig_wf fg → fig_wf (show_in view fg1).
Proof.
  intros Ht Hv [Hr Hd]. unfold fig_wf, show_in. simpl. rewrite Ht, Hv.
  rewrite length_app. simpl.
  replace (length (traces fg) + 1 - 1) with (length (traces fg)) by lia.
  split.
  - apply vm_range_append; [lia|]. eapply vm_range_mono; [|done]. lia.
  - by apply vm_disjoint_append_fresh.
Qed.

Lemma add_scatter_wf view l tr xk sk fg :
  fig_wf fg → fig_wf (add_scatter view l tr xk sk fg).
Proof. unfold add_scatter. by apply (emit_wf view tr fg). Qed.

Lemma add_line_wf g fg tr : fig_wf fg → fig_wf (add_line g fg tr).
Proof.
  intros Hwf. unfold add_line.
  eapply fig_wf_ext with (fg := show_in v_growth_lines
                                  (show_in v_growth (append_trace tr fg)));
    [done|done|].
  pose proof (emit_wf v_growth tr fg (append_trace tr fg) eq_refl eq_refl Hwf)
    as [Hr Hd].
  unfold fig_wf. unfold show_in at 1 3. simpl. split.
  - apply vm_range_append; [|done]. rewrite length_app. simpl. lia.
  - by apply vm_disjoint_append_lines.
Qed.

Lemma new_view_wf view fg : fig_wf fg → fig_wf (new_view view fg).
Proof.
  intros [Hr Hd]. unfold fig_wf, new_view. simpl. split.
  - by apply vm_range_reset.
  - by apply vm_disjoint_reset.
Qed.

Lemma fold_wf {X} (f : figure -> X -> figure) xs fg :
  (∀ fg x, fig_wf fg → fig_wf (f fg x)) →
  fig_wf fg → fig_wf (fold_left f xs fg).
Proof.
  intros Hf. revert fg. induction xs as [|x xs IH]; simpl; auto.
Qed.

Lemma rebuild_bm_wf bm fg i : fig_wf fg → fig_wf (rebuild_bm bm fg i).
Proof.
  intros Hwf. unfold rebuild_bm. destruct (traces fg !! i); [|done].
  destruct (key_of_label _ _); [|done]. by eapply fig_wf_ext.
Qed.

Lemma add_bm_trace_wf bm fg tr : fig_wf fg → fig_wf (add_bm_trace bm fg tr).
Proof. unfold add_bm_trace. by apply (emit_wf _ tr fg). Qed.

Lemma add_ai_level_wf rs rl fg lv : fig_wf fg → fig_wf (add_ai_level rs rl fg lv).
Proof.
  intros Hwf. unfold add_ai_level. destruct (List.filter _ _); [done|].
  by apply add_scatter_wf.
Qed.

Lemma add_ownership_trace_wf studios fg tr :
  fig_wf fg → fig_wf (add_ownership_trace studios fg tr).
Proof.
  intros Hwf. unfold add_ownership_trace.
  apply (emit_wf _ tr fg); [| |exact Hwf]; by destruct (key_of_label _ _).
Qed.

Lemma add_profitability_wf l name op col fg :
  fig_wf fg → fig_wf (add_profitability l name op col fg).
Proof.
  intros Hwf. unfold add_profitability. destruct l; [done|].
  by apply add_scatter_wf.
Qed.

Lemma empty_figure_wf : fig_wf empty_figure.
Proof.
  unfold fig_wf, empty_figure, vm_range. simpl. split.
  - repeat constructor.
  - repeat split; intros _; repeat constructor; intros _ i Hi;
      by apply elem_of_nil in Hi.
Qed.

Lemma view_founded_wf d i fg : fig_wf fg → fig_wf (view_founded d i fg).
Proof. intros. unfold view_founded. by repeat apply add_scatter_wf. Qed.

Lemma view_current_wf d i fg : fig_wf fg → fig_wf (view_current d i fg).
Proof. intros. unfold view_current. by repeat apply add_scatter_wf. Qed.

Lemma view_growth_markers_wf d i fg :
  fig_wf fg → fig_wf (view_growth_markers d i fg).
Proof. intros. unfold view_growth_markers. by repeat apply add_scatter_wf. Qed.

Lemma view_growth_lines_wf d i fg fg' :
  view_growth_lines d i fg = Some fg' → fig_wf fg → fig_wf fg'.
Proof.
  unfold view_growth_lines. intros Hv Hwf.
  destruct (make_growth_line_traces d _) as [ld|]; [|done].
  destruct (make_growth_line_traces i _) as [li|]; [|done].
  simpl in Hv. inversion Hv; subst fg'.
  apply fold_wf; [intros ? ?; apply add_line_wf|].
  apply fold_wf; [intros ? ?; apply add_line_wf|].
  by apply new_view_wf.
Qed.

Lemma view_business_model_wf studios fg :
  fig_wf fg → fig_wf (view_business_model studios fg).
Proof.
  intros. unfold view_business_model.
  apply fold_wf; [intros ? ?; apply rebuild_bm_wf|].
  apply fold_wf; [intros ? ?; apply add_bm_trace_wf|].
  by apply new_view_wf.
Qed.

Lemma view_ai_adoption_wf d i fg : fig_wf fg → fig_wf (view_ai_adoption d i fg).
Proof.
  intros. unfold view_ai_adoption.
  apply fold_wf; [intros ? ?; apply add_ai_level_wf|].
  apply fold_wf; [intros ? ?; apply add_ai_level_wf|].
  by apply new_view_wf.
Qed.

Lemma view_revenue_wf studios fg : fig_wf fg → fig_wf (view_revenue studios fg).
Proof.
  intros. unfold view_revenue.
  destruct (List.filter (has_num k_revenue_billion_yen) studios).
  - by apply new_view_wf.
  - apply add_scatter_wf. by apply new_view_wf.
Qed.

Lemma view_ownership_wf studios fg :
  fig_wf fg → fig_wf (view_ownership studios fg).
Proof.
  intros. unfold view_ownership.
  apply fold_wf; [intros ? ?; apply add_ownership_trace_wf|].
  by apply new_view_wf.
Qed.

Lemma view_platform_wf studios fg :
  fig_wf fg → fig_wf (view_platform studios fg).
Proof.
  intros. unfold view_platform.
  apply fold_wf; [intros ? ?; apply add_scatter_wf|].
  by apply new_view_wf.
Qed.

Lemma view_profitability_wf studios fg :
  fig_wf fg → fig_wf (view_profitability studios fg).
Proof.
  intros. unfold view_profitability.
  repeat apply add_profitability_wf. by apply new_view_wf.
Qed.

(** In the finished figure every index of the visibility table is a trace,
    and no trace belongs to two views. *)
Lemma build_wf raw fg : build raw = Some fg → fig_wf fg.
Proof.
  unfold build. intros Hb.
  destruct (view_growth_lines _ _ _) as [fg3|] eqn:E3; [|done].
  simpl in Hb. inversion Hb; subst fg. clear Hb.
  apply view_profitability_wf, view_platform_wf, view_ownership_wf,
    view_revenue_wf, view_ai_adoption_wf, view_business_model_wf.
  eapply view_growth_lines_wf; [exact E3|].
  apply view_growth_markers_wf, view_current_wf, view_founded_wf,
    empty_figure_wf.
Qed.

Lemma sample_build : build Sample.raw = Some Sample.fig.
Proof.
  unfold Sample.fig.
  assert (match build Sample.raw with Some _ => true | None => false end
          = true) as Hs by (vm_compute; reflexivity).
  by destruct (build Sample.raw).
Qed.

End Builder.

(* ===================================================================== *)
(** ** The view coordinator *)
(* ===================================================================== *)

Module Coordinator.
Import Js Spec Filter Builder.

(** *** [make_visibility] *)

Lemma fold_insert_true (l : list nat) (vis : list bool) i :
  fold_left (fun vis idx => <[idx := true]> vis) l vis !! i
  = if bool_decide (i ∈ l ∧ i < length vis) then Some true else vis !! i.
Proof.
  revert vis. induction l as [|j l IH]; intros vis; cbn [fold_left].
  - case_bool_decide as Hc; [|done]. destruct Hc as [Hi _].
    by apply elem_of_nil in Hi.
  - rewrite IH, length_insert.
    case_bool_decide as H1; case_bool_decide as H2; try done.
    + exfalso. apply H2. destruct H1. split; [by right|done].
    + destruct H2 as [Hin Hlt]. apply elem_of_cons in Hin as [->|Hin].
      * by apply list_lookup_insert_eq.
      * exfalso. by apply H1.
    + destruct (decide (i = j)) as [->|Hij].
      * destruct (decide (j < length vis)) as [Hlt|Hge].
        -- exfalso. apply H2. split; [by left|done].
        -- rewrite list_insert_ge by lia. done.
      * by apply list_lookup_insert_ne.
Qed.

Lemma make_visibility_lookup fg view i :
  i < length (Py.traces fg) →
  Py.make_visibility fg view !! i
  = Some (bool_decide (i ∈ Py.vm_get (Py.visibility_map fg) view)).
Proof.
  intros Hi. unfold Py.make_visibility. rewrite fold_insert_true.
  rewrite length_replicate.
  case_bool_decide as H1; case_bool_decide as H2; try done.
  - exfalso. apply H2. by destruct H1.
  - exfalso. by apply H1.
  - by apply lookup_replicate_2.
Qed.

(** *** [getCurrentView] *)

Lemma vm_get_entry vm view i :
  i ∈ Py.vm_get vm view → ∃ l, (view, l) ∈ vm ∧ i ∈ l.
Proof.
  unfold Py.vm_get. destruct (List.find _ vm) as [[k l]|] eqn:E.
  - apply find_some in E as [Hin Hk]. simpl in *. apply eqb_eq in Hk as ->.
    intros Hi. exists l. split; [by apply list_elem_of_In|done].
  - intros Hi. by apply elem_of_nil in Hi.
Qed.

Lemma view_holding_get vm view i :
  vm_disjoint vm → view ≠ Py.v_growth_lines →
  i ∈ Py.vm_get vm view → view_holding vm i = Some view.
Proof.
  unfold view_holding, Py.vm_get.
  induction vm as [|[k l] vm IH]; simpl; intros Hd Hv Hi.
  - by apply elem_of_nil in Hi.
  - destruct Hd as [Hd Hds]. simpl in *.
    destruct (eqb k view) eqn:E.
    + apply eqb_eq in E as ->. simpl in Hi.
      rewrite (proj2 (eqb_neq _ _) Hv), bool_decide_eq_true_2 by done. done.
    + destruct (negb (eqb k Py.v_growth_lines) && bool_decide (i ∈ l)) eqn:Hp.
      * exfalso. apply andb_true_iff in Hp as [Hk Hil].
        apply negb_true_iff, eqb_neq in Hk. apply bool_decide_eq_true in Hil.
        specialize (Hd Hk).
        destruct (vm_get_entry vm view i Hi) as (l' & Hin & Hil').
        rewrite Forall_forall in Hd. by apply (Hd _ Hin Hv i Hil).
      * by apply IH.
Qed.

Lemma scan_views_found vm flags k view :
  (∀ j, flags !! j = Some true → view_holding vm (k + j) = Some view) →
  (∃ j, flags !! j = Some true) →
  scan_views vm flags k = Some view.
Proof.
  revert k. induction flags as [|v flags IH]; intros k Hall [j Hj].
  - done.
  - simpl. destruct v.
    + pose proof (Hall 0 eq_refl) as H0. replace (k + 0) with k in H0 by lia.
      by rewrite H0.
    + apply IH.
      * intros j' Hj'. replace (S k + j') with (k + S j') by lia.
        by apply Hall.
      * destruct j as [|j]; [done|]. by exists j.
Qed.

Lemma getCurrentView_active raw fg view data :
  Py.build raw = Some fg →
  view ≠ Py.v_growth_lines →
  Py.vm_get (Py.visibility_map fg) view ≠ [] →
  List.map visible data = Py.make_visibility fg view →
  getCurrentView (tables_of raw fg) data = view.
Proof.
  intros Hb Hv Hne Hvis. unfold getCurrentView. simpl. rewrite Hvis.
  destruct (build_wf _ _ Hb) as [Hr Hd].
  rewrite (scan_views_found _ _ 0 view); [done| |].
  - intros j Hj. simpl. apply view_holding_get; [done..|].
    assert (j < length (Py.traces fg)) as Hlt.
    { rewrite <- (make_visibility_length fg view). by eapply lookup_lt_Some. }
    rewrite make_visibility_lookup in Hj by done.
    inversion Hj as [E]. by apply bool_decide_eq_true in E.
  - destruct (Py.vm_get (Py.visibility_map fg) view) as [|i l] eqn:E; [done|].
    exists i. assert (i ∈ Py.vm_get (Py.visibility_map fg) view) as Hi
      by (rewrite E; by left).
    destruct (vm_get_entry _ _ _ Hi) as (l' & Hin & Hil).
    unfold vm_range in Hr. rewrite Forall_forall in Hr.
    specialize (Hr _ Hin). simpl in Hr. rewrite Forall_forall in Hr.
    rewrite make_visibility_lookup by auto.
    by rewrite bool_decide_eq_true_2.
Qed.

Lemma scan_views_hidden vm n k :
  scan_views vm (replicate n false) k = None.
Proof. revert k. induction n as [|n IH]; intros k; simpl; [done|apply IH]. Qed.

Lemma make_visibility_hidden fg view :
  Py.vm_get (Py.visibility_map fg) view = [] →
  Py.make_visibility fg view = replicate (length (Py.traces fg)) false.
Proof. unfold Py.make_visibility. by intros ->. Qed.

(** *** A view button *)

Lemma set_visible_flags (vis : list bool) (data : list tdata) :
  length data = length vis →
  List.map visible (zip_with set_visible vis data) = vis.
Proof.
  revert data. induction vis as [|v vis IH]; intros [|d data]; simpl; try done.
  intros Hl. f_equal. apply IH. lia.
Qed.

Lemma set_visible_keeps (vis : list bool) (data : list tdata) :
  length data = length vis →
  List.map snapshot_of (zip_with set_visible vis data) = List.map snapshot_of data.
Proof.
  revert data. induction vis as [|v vis IH]; intros [|d data]; simpl; try done.
  intros Hl. f_equal. apply IH. lia.
Qed.

(** C4 (as amended).  After a view button has been pressed, for a view
    with at least one series [getCurrentView] finds that view, and the size
    clause of [studioMatchesFilter] compares [size_founded_num] when the
    view is ['founded'] and [size_current_num] (with [null] read as [0]) for
    every other view.  For a view that has no series no trace is visible,
    [getCurrentView] answers ['founded'], and the clause compares
    [size_founded_num] whatever the view is. *)
Theorem C4_active_view_size `{Host} raw fg view (p : page) f s :
  Py.build raw = Some fg →
  view ∈ Py.VIEW_KEYS →
  length (data p) = length (Py.traces fg) →
  let T := tables_of raw fg in
  let p' := step fg T p (ClickView view) in
  let shown := if decide (Py.vm_get (Py.visibility_map fg) view = [])
               then Py.v_founded else view in
  getCurrentView T (data p') = shown
  ∧ studioMatchesFilter T (data p') f s
    = region_clause f s && year_clause f s && size_clause f shown s
      && search_clause f s && ai_clause f s && own_clause f s
  ∧ (shown = Py.v_founded →
       size_clause f shown s
       = negb (nonempty (sizeMin f) && below (size_founded_num s) (sizeMin f))
         && negb (nonempty (sizeMax f) && above (size_founded_num s) (sizeMax f)))
  ∧ (shown ≠ Py.v_founded →
       size_clause f shown s
       = negb (nonempty (sizeMin f)
               && below (default 0%Q (size_current_num s)) (sizeMin f))
         && negb (nonempty (sizeMax f)
                  && above (default 0%Q (size_current_num s)) (sizeMax f))).
Proof.
  intros Hb Hview Hlen T p' shown.
  assert (getCurrentView T (data p') = shown) as Hcur.
  { subst shown. destruct (decide _) as [He|Hne].
    - unfold getCurrentView, p'. cbn [step data].
      rewrite set_visible_flags by (by rewrite make_visibility_length).
      rewrite make_visibility_hidden by done. by rewrite scan_views_hidden.
    - apply (getCurrentView_active raw fg view); [done| |done|].
      + intros ->. revert Hview. vm_compute. intros Hin.
        repeat (apply elem_of_cons in Hin as [Hin|Hin]; [discriminate|]).
        by apply elem_of_nil in Hin.
      + unfold p'. cbn [step data].
        apply set_visible_flags. by rewrite make_visibility_length. }
  split_and!.
  - done.
  - unfold studioMatchesFilter. by rewrite Hcur.
  - intros ->. unfold size_clause, sizeVal.
    by rewrite (proj2 (eqb_eq _ _) eq_refl).
  - intros Hne. unfold size_clause, sizeVal.
    by rewrite (proj2 (eqb_neq _ _) Hne).
Qed.

Lemma C4_active_view_size_witness :
  let p' := step (H := ascii_host) Sample.fig Sample.T Sample.page
              (ClickView Py.v_current) in
  getCurrentView Sample.T (data p') = Py.v_current
  ∧ ∀ s, size_clause Sample.at_least_50 Py.v_current s
         = negb (below (default 0%Q (size_current_num s)) (lit "50")).
Proof.
  pose proof sample_build as Hb.
  assert (Py.v_current ∈ Py.VIEW_KEYS) as Hv by (right; left).
  assert (length (data Sample.page) = length (Py.traces Sample.fig)) as Hl
    by by vm_compute.
  intros p'. split.
  - by destruct (C4_active_view_size (H := ascii_host) Sample.raw Sample.fig
                   Py.v_current Sample.page Sample.at_least_50
                   (default (export_studio 0 Sample.no_year)
                      (STUDIOS Sample.T !! 0)) Hb Hv Hl) as (E & _).
  - intros s.
    destruct (C4_active_view_size (H := ascii_host) Sample.raw Sample.fig
                Py.v_current Sample.page Sample.at_least_50 s Hb Hv Hl)
      as (_ & _ & _ & E).
    cbv zeta in E. rewrite decide_False in E by by vm_compute.
    rewrite E by by vm_compute.
    change (sizeMax Sample.at_least_50) with (@nil N).
    change (sizeMin Sample.at_least_50) with (lit "50").
    cbn [nonempty andb negb]. by rewrite andb_true_r.
Defined.

(** C4 as stated does not hold: in the sample no studio has an AI level, so
    the view ['ai_adoption'] has no series; with that view active every
    trace is hidden, [getCurrentView] answers ['founded'], and the size
    clause compares the founding size 10 of studio A, not its current size
    100: under a lower bound of 50 the studio is rejected, although the
    clause of the active view accepts it. *)
Lemma C4_counterexample :
  let p' := step (H := ascii_host) Sample.fig Sample.T Sample.page
              (ClickView Py.v_ai_adoption) in
  Py.v_ai_adoption ∈ Py.VIEW_KEYS
  ∧ Py.v_ai_adoption ≠ Py.v_founded
  ∧ getCurrentView Sample.T (data p') = Py.v_founded
  ∧ ∃ s, STUDIOS Sample.T !! 0 = Some s
         ∧ size_founded_num s = 10%Q ∧ size_current_num s = Some 100%Q
         ∧ sizeVal (getCurrentView Sample.T (data p')) s = Some 10%Q
         ∧ size_clause Sample.at_least_50 Py.v_ai_adoption s = true
         ∧ studioMatchesFilter (H := ascii_host) Sample.T (data p')
             Sample.at_least_50 s = false.
Proof.
  intros p'. split_and!.
  - do 4 right. left.
  - by vm_compute.
  - by vm_compute.
  - eexists. split; [by vm_compute|]. split_and!; by vm_compute.
Qed.

(** C9 (as amended).  A view button sets the [visible] flag of every trace:
    [true] for exactly the indices listed under the new view, [false] for
    all others; it changes nothing else of the traces, keeps the inputs and
    the saved originals, and queues one call of [applyFilters].  When the
    queued call runs, it filters the traces of the new view with the inputs
    that were held at the switch.  Between the two steps the page shows the
    new view with the traces as the last filter run left them. *)
Theorem C9_view_switch `{Host} fg T (p : page) view :
  length (data p) = length (Py.traces fg) →
  listening p = true →
  let p1 := step fg T p (ClickView view) in
  let p2 := step fg T p1 TimerFires in
  (∀ i, i < length (Py.traces fg) →
     visible <$> data p1 !! i
     = Some (bool_decide (i ∈ Py.vm_get (Py.visibility_map fg) view)))
  ∧ length (data p1) = length (data p)
  ∧ List.map snapshot_of (data p1) = List.map snapshot_of (data p)
  ∧ inputs p1 = inputs p
  ∧ originalData p1 = originalData p
  ∧ timers p1 = S (timers p)
  ∧ data p2 = default (data p1)
                (applyFilters T (originalData p) (inputs p) (data p1))
  ∧ inputs p2 = inputs p
  ∧ timers p2 = timers p.
Proof.
  intros Hlen Hlis p1 p2.
  assert (length (data p) = length (Py.make_visibility fg view)) as Hl
    by (by rewrite make_visibility_length).
  assert (timers p1 = S (timers p)) as Ht
    by (unfold p1; cbn [step timers]; by rewrite Hlis).
  split_and!.
  - intros i Hi. rewrite <- list_lookup_fmap.
    change (visible <$> data p1) with (List.map visible (data p1)).
    unfold p1. cbn [step data]. rewrite set_visible_flags by done.
    by apply make_visibility_lookup.
  - unfold p1. cbn [step data]. rewrite length_zip_with. lia.
  - unfold p1. cbn [step data]. by apply set_visible_keeps.
  - done.
  - done.
  - done.
  - unfold p2. cbn [step]. by rewrite Ht.
  - unfold p2. cbn [step]. by rewrite Ht.
  - unfold p2. cbn [step]. by rewrite Ht.
Qed.

Lemma C9_view_switch_witness :
  let p1 := step (H := ascii_host) Sample.fig Sample.T Sample.page
              (ClickView Py.v_current) in
  List.map visible (data p1) = Py.make_visibility Sample.fig Py.v_current
  ∧ timers p1 = 1.
Proof.
  intros p1.
  destruct (C9_view_switch (H := ascii_host) Sample.fig Sample.T Sample.page
              Py.v_current) as (_ & _ & _ & _ & _ & Ht & _).
  - by vm_compute.
  - by vm_compute.
  - split; [by vm_compute|]. exact Ht.
Defined.

(** C9 as stated does not hold: the filter is not re-run in the step of the
    view switch.  With a lower size bound of 50 applied in the view
    ['founded'], pressing the button of ['current'] leaves a queued call
    and shows trace 2 as the old view filtered it (both points hidden);
    only when the queued call has run is the point of studios A and B
    shown. *)
Lemma C9_counterexample :
  let p0 := run (H := ascii_host) Sample.fig Sample.T Sample.page
              [Edit Sample.at_least_50; ClickApply] in
  let p1 := step (H := ascii_host) Sample.fig Sample.T p0
              (ClickView Py.v_current) in
  let p2 := step (H := ascii_host) Sample.fig Sample.T p1 TimerFires in
  timers p0 = 0 ∧ timers p1 = 1 ∧ timers p2 = 0
  ∧ visible <$> data p1 !! 2 = Some true
  ∧ marker_opacity <$> data p1 !! 2 = Some (PerPoint [Some 0%Q; Some 0%Q])
  ∧ marker_opacity <$> data p2 !! 2 = Some (PerPoint [Some 1%Q; Some 0%Q])
  ∧ data p1 ≠ data p2.
Proof.
  intros p0 p1 p2.
  assert (marker_opacity <$> data p1 !! 2
          = Some (PerPoint [Some 0%Q; Some 0%Q])) as H1 by by vm_compute.
  assert (marker_opacity <$> data p2 !! 2
          = Some (PerPoint [Some 1%Q; Some 0%Q])) as H2 by by vm_compute.
  split_and!; [by vm_compute..|].
  intros E. rewrite E, H2 in H1. discriminate H1.
Qed.

End Coordinator.

(* ===================================================================== *)
(** ** What the views cover *)
(* ===================================================================== *)

Module Coverage.
Import Py Spec Grouper Builder.

(** *** The visibility table *)

Lemma vm_get_reset_eq view vm : vm_get (vm_reset view vm) view = [].
Proof.
  unfold vm_get. induction vm as [|[k l] vm IH]; simpl.
  - by rewrite (proj2 (eqb_eq _ _) eq_refl).
  - destruct (eqb k view) eqn:E; simpl; rewrite E; [done|apply IH].
Qed.

Lemma vm_get_reset_ne view v vm :
  v ≠ view → vm_get (vm_reset view vm) v = vm_get vm v.
Proof.
  intros Hv. unfold vm_get. induction vm as [|[k l] vm IH]; simpl.
  - assert (view ≠ v) as Hv' by done.
    by rewrite (proj2 (eqb_neq _ _) Hv').
  - destruct (eqb k view) eqn:E; simpl.
    + apply eqb_eq in E as ->.
      assert (view ≠ v) as Hv' by done.
      by rewrite (proj2 (eqb_neq _ _) Hv').
    + destruct (eqb k v); [done|apply IH].
Qed.

Lemma vm_keys_reset view vm v :
  v = view ∨ v ∈ vm.*1 → v ∈ (vm_reset view vm).*1.
Proof.
  induction vm as [|[k l] vm IH]; csimpl.
  - intros [->|H]; [by left|by apply elem_of_nil in H].
  - destruct (eqb k view) eqn:E; csimpl.
    + apply eqb_eq in E as ->. intros [->|H]; [by left|done].
    + intros [->|H].
      * right. apply IH. by left.
      * apply elem_of_cons in H as [->|H]; [by left|].
        right. apply IH. by right.
Qed.

Lemma vm_keys_append view n vm : (vm_append view n vm).*1 = vm.*1.
Proof.
  induction vm as [|[k l] vm IH]; csimpl; [done|].
  destruct (eqb k view); csimpl; [done|by rewrite IH].
Qed.

Lemma vm_get_append_eq view n vm :
  view ∈ vm.*1 → vm_get (vm_append view n vm) view = vm_get vm view ++ [n].
Proof.
  unfold vm_get. induction vm as [|[k l] vm IH]; csimpl; intros Hin.
  - by apply elem_of_nil in Hin.
  - destruct (eqb k view) eqn:E; simpl; rewrite E; [done|].
    apply IH. apply elem_of_cons in Hin as [->|Hin]; [|done].
    by rewrite (proj2 (eqb_eq _ _) eq_refl) in E.
Qed.

Lemma vm_get_append_ne view v n vm :
  v ≠ view → vm_get (vm_append view n vm) v = vm_get vm v.
Proof.
  intros Hv. unfold vm_get. induction vm as [|[k l] vm IH]; simpl; [done|].
  destruct (eqb k view) eqn:E; simpl.
  - apply eqb_eq in E as ->.
    assert (view ≠ v) as Hv' by done.
    by rewrite (proj2 (eqb_neq _ _) Hv').
  - destruct (eqb k v); [done|apply IH].
Qed.

(** *** [emits] *)

Lemma emits_refl key fg : emits key [] fg fg.
Proof.
  unfold emits. simpl. rewrite !app_nil_r. by split_and!.
Qed.

Lemma emits_trans key n1 n2 fg fg1 fg2 :
  emits key n1 fg fg1 → emits key n2 fg1 fg2 → emits key (n1 ++ n2) fg fg2.
Proof.
  intros (Ht1 & Hk1 & Hg1 & Hf1) (Ht2 & Hk2 & Hg2 & Hf2). split_and!.
  - by rewrite Ht2, Ht1, app_assoc.
  - auto.
  - rewrite Hg2, Hg1, Ht1, !length_app, <- app_assoc. f_equal.
    by rewrite seq_app.
  - intros v H1 H2. by rewrite Hf2, Hf1.
Qed.

Lemma emits_ext key news fg fg' fg'' :
  traces fg'' = traces fg' → visibility_map fg'' = visibility_map fg' →
  emits key news fg fg' → emits key news fg fg''.
Proof. unfold emits, vm_keys. by intros -> ->. Qed.

(** [traces.append(tr)] followed by [visibility_map[key].append(len(traces) - 1)] *)
Lemma emits_one key tr fg fg1 :
  traces fg1 = traces fg ++ [tr] → visibility_map fg1 = visibility_map fg →
  key ∈ vm_keys fg → emits key [tr] fg (show_in key fg1).
Proof.
  intros Ht Hv Hk. unfold emits, vm_keys, show_in. simpl.
  rewrite Ht, Hv, length_app. simpl.
  replace (length (traces fg) + 1 - 1) with (length (traces fg)) by lia.
  split_and!.
  - done.
  - intros v. by rewrite vm_keys_append.
  - by apply vm_get_append_eq.
  - intros v H1 _. by apply vm_get_append_ne.
Qed.

Lemma emits_keys key news fg fg' :
  emits key news fg fg' → key ∈ vm_keys fg → key ∈ vm_keys fg'.
Proof. intros (_ & Hk & _). apply Hk. Qed.

Lemma emits_fold {X} key (f : figure -> X -> figure) (g : X -> list trace)
    xs fg :
  (∀ fg x, key ∈ vm_keys fg → emits key (g x) fg (f fg x)) →
  key ∈ vm_keys fg →
  emits key (List.flat_map g xs) fg (fold_left f xs fg).
Proof.
  intros Hf. revert fg. induction xs as [|x xs IH]; intros fg Hk; simpl.
  - apply emits_refl.
  - eapply emits_trans; [by apply Hf|]. apply IH.
    eapply emits_keys; [by apply Hf|done].
Qed.

Lemma emits_new_view key news fg fg' :
  emits key news (new_view key fg) fg' → stage key news fg fg'.
Proof.
  intros (Ht & Hk & Hg & Hf). unfold stage. simpl in *.
  rewrite vm_get_reset_eq in Hg. split_and!.
  - done.
  - intros v Hv. apply Hk. unfold vm_keys. simpl.
    apply vm_keys_reset. by right.
  - done.
  - intros v H1 H2. rewrite Hf by done. simpl. by apply vm_get_reset_ne.
Qed.

Lemma new_view_key key fg : key ∈ vm_keys (new_view key fg).
Proof. unfold vm_keys. simpl. apply vm_keys_reset. by left. Qed.

Lemma emits_stage key news fg fg' :
  vm_get (visibility_map fg) key = [] →
  emits key news fg fg' → stage key news fg fg'.
Proof.
  intros He (Ht & Hk & Hg & Hf). rewrite He in Hg. by split_and!.
Qed.

(** *** [shown] *)

Lemma stage_shown key news fg fg' : stage key news fg fg' → shown key news fg'.
Proof.
  intros (Ht & _ & Hg & _). exists (traces fg), [].
  by rewrite app_nil_r.
Qed.

Lemma stage_keeps key news fg fg' v n :
  stage key news fg fg' → v ≠ key → v ≠ v_growth_lines →
  shown v n fg → shown v n fg'.
Proof.
  intros (Ht & _ & _ & Hf) H1 H2 (before & after & Hb & Hg).
  exists before, (after ++ news). split.
  - rewrite Ht, Hb. by rewrite <- !app_assoc.
  - by rewrite Hf.
Qed.

Lemma omap_lookup_seq {A} (before l after : list A) :
  omap (fun i => (before ++ l ++ after) !! i) (seq (length before) (length l))
  = l.
Proof.
  revert before. induction l as [|a l IH]; intros before; simpl; [done|].
  rewrite lookup_app_r by lia. rewrite Nat.sub_diag. simpl.
  f_equal. specialize (IH (before ++ [a])).
  rewrite length_app in IH. simpl in IH.
  replace (length before + 1) with (S (length before)) in IH by lia.
  rewrite <- app_assoc in IH. simpl in IH. done.
Qed.

Lemma shown_view_traces key news fg :
  shown key news fg → view_traces fg key = news.
Proof.
  intros (before & after & Hb & Hg). unfold view_traces.
  rewrite Hg, Hb. apply omap_lookup_seq.
Qed.

(** *** [plots], [builds] and [displays] *)

Lemma plotted_app n1 n2 : plotted (n1 ++ n2) = plotted n1 ++ plotted n2.
Proof. unfold plotted. apply flat_map_app. Qed.

Lemma plots_nil key fg : plots key [] fg fg.
Proof. exists []. split; [apply emits_refl|done]. Qed.

Lemma plots_trans key l1 l2 fg fg1 fg2 :
  plots key l1 fg fg1 → plots key l2 fg1 fg2 → plots key (l1 ++ l2) fg fg2.
Proof.
  intros (n1 & He1 & Hp1) (n2 & He2 & Hp2). exists (n1 ++ n2). split.
  - by eapply emits_trans.
  - intros s. rewrite plotted_app, !elem_of_app, Hp1, Hp2. done.
Qed.

Lemma plots_equiv key l l' fg fg' :
  (∀ s, s ∈ l ↔ s ∈ l') → plots key l fg fg' → plots key l' fg fg'.
Proof.
  intros Hl (news & He & Hp). exists news. split; [done|].
  intros s. by rewrite Hp.
Qed.

Lemma plots_ext key l fg fg' fg'' :
  traces fg'' = traces fg' → visibility_map fg'' = visibility_map fg' →
  plots key l fg fg' → plots key l fg fg''.
Proof.
  intros Ht Hv (news & He & Hp). exists news. split; [|done].
  by apply (emits_ext key news fg fg').
Qed.

Lemma plots_keys key l fg fg' v :
  plots key l fg fg' → v ∈ vm_keys fg → v ∈ vm_keys fg'.
Proof. intros (news & (_ & Hk & _) & _). apply Hk. Qed.

Lemma plots_fold {X} key (f : figure -> X -> figure) (h : X -> list studio)
    xs fg :
  (∀ fg x, key ∈ vm_keys fg → plots key (h x) fg (f fg x)) →
  key ∈ vm_keys fg →
  plots key (List.flat_map h xs) fg (fold_left f xs fg).
Proof.
  intros Hf. revert fg. induction xs as [|x xs IH]; intros fg Hk; simpl.
  - apply plots_nil.
  - eapply plots_trans; [by apply Hf|]. apply IH.
    eapply plots_keys; [by apply Hf|done].
Qed.

Lemma merged_members studio_list xk sk s :
  s ∈ List.flat_map members (merge_overlapping studio_list xk sk)
  ↔ s ∈ studio_list.
Proof.
  rewrite flat_map_concat_map.
  by rewrite (members_perm studio_list xk sk).
Qed.

(** One trace, its point map and its visibility entry *)
Lemma plots_one key tr fg fg1 :
  traces fg1 = traces fg ++ [tr] → visibility_map fg1 = visibility_map fg →
  key ∈ vm_keys fg →
  plots key (List.flat_map members (t_points tr)) fg (show_in key fg1).
Proof.
  intros Ht Hv Hk. exists [tr]. split; [by apply emits_one|].
  intros s. unfold plotted. simpl. by rewrite app_nil_r.
Qed.

Lemma plots_scatter key l0 l tr xk sk xk' sk' fg :
  t_points tr = merge_overlapping l xk' sk' →
  key ∈ vm_keys fg →
  plots key l fg (add_scatter key l0 tr xk sk fg).
Proof.
  intros Hp Hk. unfold add_scatter.
  eapply plots_equiv; [|by apply (plots_one key tr fg)].
  intros s. rewrite Hp. apply merged_members.
Qed.

Lemma plots_builds key l fg fg' :
  vm_get (visibility_map fg) key = [] →
  plots key l fg fg' → builds key l fg fg'.
Proof.
  intros He (news & Hem & Hp). exists news. split; [|done].
  by apply emits_stage.
Qed.

Lemma plots_builds_new key l fg fg' :
  plots key l (new_view key fg) fg' → builds key l fg fg'.
Proof.
  intros (news & Hem & Hp). exists news. split; [|done].
  by apply emits_new_view.
Qed.

Lemma builds_displays key l fg fg' : builds key l fg fg' → displays key l fg'.
Proof.
  intros (news & Hs & Hp). exists news. split; [|done].
  by eapply stage_shown.
Qed.

Lemma builds_keeps key l fg fg' v l' :
  builds key l fg fg' → v ≠ key → v ≠ v_growth_lines →
  displays v l' fg → displays v l' fg'.
Proof.
  intros (news & Hs & _) H1 H2 (n & Hn & Hp). exists n. split; [|done].
  by eapply stage_keeps.
Qed.

Lemma builds_frame key l fg fg' v :
  builds key l fg fg' → v ≠ key → v ≠ v_growth_lines →
  vm_get (visibility_map fg') v = vm_get (visibility_map fg) v.
Proof. intros (news & (_ & _ & _ & Hf) & _). apply Hf. Qed.

Lemma builds_keys key l fg fg' v :
  builds key l fg fg' → v ∈ vm_keys fg → v ∈ vm_keys fg'.
Proof. intros (news & (_ & Hk & _) & _). apply Hk. Qed.

(** *** The parts of the script *)

Lemma plots_then_scatter key l1 l0 l tr xk sk xk' sk' fg fg1 :
  key ∈ vm_keys fg →
  plots key l1 fg fg1 →
  t_points tr = merge_overlapping l xk' sk' →
  plots key (l1 ++ l) fg (add_scatter key l0 tr xk sk fg1).
Proof.
  intros Hk H1 Hp. eapply plots_trans; [exact H1|].
  eapply plots_scatter; [exact Hp|]. by eapply plots_keys.
Qed.

Lemma view_founded_plots d i fg :
  v_founded ∈ vm_keys fg →
  plots v_founded (d ++ i) fg (view_founded d i fg).
Proof.
  intros Hk. unfold view_founded.
  eapply plots_then_scatter; [done| |done]. by eapply plots_scatter.
Qed.

Lemma view_current_plots d i fg :
  v_current ∈ vm_keys fg →
  plots v_current (d ++ i) fg (view_current d i fg).
Proof.
  intros Hk. unfold view_current.
  eapply plots_then_scatter; [done| |done]. by eapply plots_scatter.
Qed.

Lemma view_growth_markers_plots d i fg :
  v_growth ∈ vm_keys fg →
  plots v_growth (((d ++ i) ++ d) ++ i) fg (view_growth_markers d i fg).
Proof.
  intros Hk. unfold view_growth_markers.
  eapply plots_then_scatter; [done| |done].
  eapply plots_then_scatter; [done| |done].
  eapply plots_then_scatter; [done| |done].
  by eapply plots_scatter.
Qed.

Lemma add_line_plots g fg tr :
  t_points tr = [] → v_growth ∈ vm_keys fg →
  plots v_growth [] fg (add_line g fg tr).
Proof.
  intros Hp Hk. exists [tr]. split.
  - unfold emits, vm_keys, add_line. simpl.
    rewrite length_app. simpl.
    replace (length (traces fg) + 1 - 1) with (length (traces fg)) by lia.
    split_and!.
    + done.
    + intros v. by rewrite !vm_keys_append.
    + rewrite vm_get_append_ne by done. by apply vm_get_append_eq.
    + intros v H1 H2. by rewrite !vm_get_append_ne.
  - intros s. unfold plotted. simpl. by rewrite Hp.
Qed.

Lemma fold_add_line_plots g lines fg :
  Forall (fun tr => t_points tr = []) lines → v_growth ∈ vm_keys fg →
  plots v_growth [] fg (fold_left (add_line g) lines fg).
Proof.
  intros Hl. revert fg. induction Hl as [|tr lines Hp Hl IH]; intros fg Hk.
  - apply plots_nil.
  - simpl. change (@nil studio) with (@nil studio ++ []).
    eapply plots_trans; [by apply add_line_plots|]. apply IH.
    eapply plots_keys; [by apply add_line_plots|done].
Qed.

Lemma growth_lines_no_points l label lines :
  make_growth_line_traces l label = Some lines →
  Forall (fun tr => t_points tr = []) lines.
Proof.
  unfold make_growth_line_traces. intros Hm.
  apply mapM_Some in Hm. apply Forall_forall. intros tr Htr.
  apply list_elem_of_lookup in Htr as [k Hk].
  destruct (Forall2_lookup_r _ _ _ _ _ Hm Hk) as (st & _ & Hg).
  unfold growth_line_trace in Hg.
  destruct (mapM (segment st) l); simpl in Hg; [|done].
  by inversion Hg.
Qed.

Lemma view_growth_lines_plots d i fg fg' :
  view_growth_lines d i fg = Some fg' → v_growth ∈ vm_keys fg →
  plots v_growth [] fg fg'.
Proof.
  unfold view_growth_lines. intros Hv Hk.
  destruct (make_growth_line_traces d _) as [ld|] eqn:Ed; simpl in Hv; [|done].
  destruct (make_growth_line_traces i _) as [li|] eqn:Ei; simpl in Hv; [|done].
  inversion Hv; subst fg'; clear Hv.
  assert (plots v_growth [] fg (new_view v_growth_lines fg)) as H0.
  { exists []. split; [|done]. unfold emits, vm_keys. simpl.
    rewrite !app_nil_r. split_and!.
    - done.
    - intros v Hv. apply vm_keys_reset. by right.
    - by apply vm_get_reset_ne.
    - intros v _ H2. by apply vm_get_reset_ne. }
  change (@nil studio) with (@nil studio ++ ([] ++ [])).
  eapply plots_trans; [exact H0|].
  pose proof (plots_keys _ _ _ _ _ H0 Hk) as Hk0.
  pose proof (fold_add_line_plots (List.map gidx d) ld _
                (growth_lines_no_points _ _ _ Ed) Hk0) as H1.
  eapply plots_trans; [exact H1|].
  apply fold_add_line_plots; [by eapply growth_lines_no_points|].
  by eapply plots_keys.
Qed.

Lemma elem_of_flat_map {A B} (f : A -> list B) (l : list A) (b : B) :
  b ∈ List.flat_map f l ↔ ∃ a, a ∈ l ∧ b ∈ f a.
Proof.
  rewrite list_elem_of_In, in_flat_map. split.
  - intros (a & Ha & Hb). exists a. by rewrite !list_elem_of_In.
  - intros (a & Ha & Hb). exists a. by rewrite <- !list_elem_of_In.
Qed.

Lemma elem_of_filter_list {A} (f : A -> bool) (l : list A) (a : A) :
  a ∈ List.filter f l ↔ a ∈ l ∧ f a = true.
Proof. by rewrite !list_elem_of_In, List.filter_In. Qed.

Lemma grouped_members {K} (key : studio -> K) (keqb : K -> K -> bool) l s :
  s ∈ List.flat_map snd (group_by key keqb l) ↔ s ∈ l.
Proof.
  rewrite flat_map_concat_map. by rewrite (group_by_perm key keqb l).
Qed.

(** The traces of [make_categorical_scatter] stand for the whole list. *)
Lemma categorical_members l cf pal lab xk yk s :
  s ∈ List.flat_map (fun tr => List.flat_map members (t_points tr))
        (make_categorical_scatter l cf pal lab xk yk)
  ↔ s ∈ l.
Proof.
  unfold make_categorical_scatter.
  rewrite <- (grouped_members (category_of cf) eqb l s).
  rewrite !elem_of_flat_map. split.
  - intros (tr & Htr & Hs).
    change (List.map ?g ?x) with (g <$> x) in Htr.
    apply list_elem_of_fmap in Htr as (g & -> & Hg).
    exists g. split; [done|]. simpl in Hs. by apply merged_members in Hs.
  - intros (g & Hg & Hs). exists (categorical_trace pal lab xk yk g). split.
    + change (List.map ?h ?x) with (h <$> x). apply list_elem_of_fmap.
      by exists g.
    + simpl. by apply merged_members.
Qed.

Lemma fold_rebuild_bm_same bm l fg :
  traces (fold_left (rebuild_bm bm) l fg) = traces fg
  ∧ visibility_map (fold_left (rebuild_bm bm) l fg) = visibility_map fg.
Proof.
  revert fg. induction l as [|i l IH]; intros fg; simpl; [done|].
  destruct (IH (rebuild_bm bm fg i)) as [-> ->].
  unfold rebuild_bm. destruct (traces fg !! i) as [tr|]; [|done].
  by destruct (key_of_label _ _).
Qed.

Lemma view_business_model_builds studios fg :
  builds v_business_model
    (List.filter (has_num k_ip_ownership_score) studios)
    fg (view_business_model studios fg).
Proof.
  apply plots_builds_new. unfold view_business_model.
  set (bm := List.filter _ studios).
  set (fg1 := new_view v_business_model fg).
  set (fg2 := fold_left (add_bm_trace bm) _ fg1).
  destruct (fold_rebuild_bm_same bm
              (vm_get (visibility_map fg2) v_business_model) fg2) as [Ht Hv].
  apply (plots_ext _ _ _ fg2); [done..|].
  eapply plots_equiv; [|apply plots_fold; [|apply new_view_key]].
  - apply categorical_members.
  - intros fg' tr Hk. unfold add_bm_trace. by apply (plots_one _ tr fg').
Qed.

Lemma add_ai_level_plots rs rl fg lv :
  v_ai_adoption ∈ vm_keys fg →
  plots v_ai_adoption (List.filter (cat_is k_ai_adoption_level lv) rs)
    fg (add_ai_level rs rl fg lv).
Proof.
  intros Hk. unfold add_ai_level.
  destruct (List.filter _ rs) as [|s0 l] eqn:E; [apply plots_nil|].
  by eapply plots_scatter.
Qed.

Lemma view_ai_adoption_builds d i fg :
  builds v_ai_adoption
    (List.flat_map (fun lv => List.filter (cat_is k_ai_adoption_level lv) d)
       ai_levels
     ++ List.flat_map (fun lv => List.filter (cat_is k_ai_adoption_level lv) i)
          ai_levels)
    fg (view_ai_adoption d i fg).
Proof.
  apply plots_builds_new. unfold view_ai_adoption.
  eapply plots_trans.
  - apply plots_fold; [|apply new_view_key].
    intros. by apply add_ai_level_plots.
  - apply plots_fold.
    + intros. by apply add_ai_level_plots.
    + eapply plots_keys; [|apply new_view_key].
      apply plots_fold; [|apply new_view_key].
      intros. by apply add_ai_level_plots.
Qed.

Lemma view_revenue_builds studios fg :
  builds v_revenue (List.filter (has_num k_revenue_billion_yen) studios)
    fg (view_revenue studios fg).
Proof.
  apply plots_builds_new. unfold view_revenue.
  destruct (List.filter _ studios) as [|s0 l] eqn:E; [apply plots_nil|].
  eapply plots_scatter; [done|apply new_view_key].
Qed.

Lemma view_ownership_builds studios fg :
  builds v_ownership studios fg (view_ownership studios fg).
Proof.
  apply plots_builds_new. unfold view_ownership.
  eapply plots_equiv; [|apply plots_fold; [|apply new_view_key]].
  - apply categorical_members.
  - intros fg' tr Hk. unfold add_ownership_trace.
    apply (plots_one _ tr fg'); [by destruct (key_of_label _ _)..|done].
Qed.

Lemma view_platform_builds studios fg :
  builds v_platform studios fg (view_platform studios fg).
Proof.
  apply plots_builds_new. unfold view_platform.
  eapply plots_equiv; [|apply plots_fold; [|apply new_view_key]].
  - apply grouped_members.
  - intros fg' g Hk. unfold add_platform_group. by eapply plots_scatter.
Qed.

Lemma add_profitability_plots l name op col fg :
  v_profitability ∈ vm_keys fg →
  plots v_profitability l fg (add_profitability l name op col fg).
Proof.
  intros Hk. unfold add_profitability.
  destruct l as [|s0 l]; [apply plots_nil|]. by eapply plots_scatter.
Qed.

Lemma view_profitability_builds studios fg :
  builds v_profitability
    (List.filter (fun s => negb (has_num k_years_to_profitability s)) studios
     ++ List.filter (has_num k_years_to_profitability) studios)
    fg (view_profitability studios fg).
Proof.
  apply plots_builds_new. unfold view_profitability.
  eapply plots_trans.
  - apply add_profitability_plots, new_view_key.
  - apply add_profitability_plots.
    eapply plots_keys; [|apply new_view_key].
    apply add_profitability_plots, new_view_key.
Qed.

(** *** The whole script *)

Lemma displays_equiv key l l' fg :
  (∀ s, s ∈ l ↔ s ∈ l') → displays key l fg → displays key l' fg.
Proof.
  intros Hl (news & Hs & Hp). exists news. split; [done|].
  intros s. by rewrite Hp.
Qed.

Local Ltac keep B :=
  eapply (builds_keeps _ _ _ _ _ _ B); [by vm_compute|by vm_compute|].

Lemma build_displays raw fg :
  build raw = Some fg →
  let studios := load raw in
  let d := List.filter is_domestic studios in
  let i := List.filter is_international studios in
  let gd := List.filter is_domestic (List.filter is_growth studios) in
  let gi := List.filter is_international (List.filter is_growth studios) in
  displays v_founded (d ++ i) fg
  ∧ displays v_current (d ++ i) fg
  ∧ displays v_growth ((((gd ++ gi) ++ gd) ++ gi) ++ []) fg
  ∧ displays v_business_model
      (List.filter (has_num k_ip_ownership_score) studios) fg
  ∧ displays v_ai_adoption
      (List.flat_map (fun lv => List.filter (cat_is k_ai_adoption_level lv) d)
         ai_levels
       ++ List.flat_map (fun lv => List.filter (cat_is k_ai_adoption_level lv) i)
            ai_levels) fg
  ∧ displays v_revenue
      (List.filter (has_num k_revenue_billion_yen) studios) fg
  ∧ displays v_ownership studios fg
  ∧ displays v_platform studios fg
  ∧ displays v_profitability
      (List.filter (fun s => negb (has_num k_years_to_profitability s)) studios
       ++ List.filter (has_num k_years_to_profitability) studios) fg.
Proof.
  intros Hb studios d i gd gi. unfold build in Hb. cbv zeta in Hb.
  fold studios in Hb. fold d in Hb. fold i in Hb. fold gd in Hb. fold gi in Hb.
  set (fg1 := view_founded d i empty_figure) in Hb.
  set (fg2 := view_current d i fg1) in Hb.
  set (fg3 := view_growth_markers gd gi fg2) in Hb.
  destruct (view_growth_lines gd gi fg3) as [fg4|] eqn:E4; simpl in Hb; [|done].
  set (fg5 := view_business_model studios fg4) in Hb.
  set (fg6 := view_ai_adoption d i fg5) in Hb.
  set (fg7 := view_revenue studios fg6) in Hb.
  set (fg8 := view_ownership studios fg7) in Hb.
  set (fg9 := view_platform studios fg8) in Hb.
  injection Hb as <-.
  assert (∀ v, v ∈ [v_founded; v_current; v_growth] →
               v ∈ vm_keys empty_figure) as Hk0 by (intros v Hv; exact Hv).
  assert (builds v_founded (d ++ i) empty_figure fg1) as B1.
  { apply plots_builds; [done|]. apply view_founded_plots, Hk0. by left. }
  assert (builds v_current (d ++ i) fg1 fg2) as B2.
  { apply plots_builds.
    - by rewrite (builds_frame _ _ _ _ v_current B1) by by vm_compute.
    - apply view_current_plots. apply (builds_keys _ _ _ _ _ B1), Hk0.
      right. by left. }
  assert (v_growth ∈ vm_keys fg2) as Hk2.
  { apply (builds_keys _ _ _ _ _ B2), (builds_keys _ _ _ _ _ B1), Hk0.
    do 2 right. by left. }
  assert (builds v_growth ((((gd ++ gi) ++ gd) ++ gi) ++ []) fg2 fg4) as B3.
  { apply plots_builds.
    - rewrite (builds_frame _ _ _ _ v_growth B2) by by vm_compute.
      by rewrite (builds_frame _ _ _ _ v_growth B1) by by vm_compute.
    - eapply plots_trans; [by apply view_growth_markers_plots|].
      eapply view_growth_lines_plots; [exact E4|].
      eapply plots_keys; [by apply view_growth_markers_plots|done]. }
  pose proof (view_business_model_builds studios fg4) as B5. fold fg5 in B5.
  pose proof (view_ai_adoption_builds d i fg5) as B6. fold fg6 in B6.
  pose proof (view_revenue_builds studios fg6) as B7. fold fg7 in B7.
  pose proof (view_ownership_builds studios fg7) as B8. fold fg8 in B8.
  pose proof (view_platform_builds studios fg8) as B9. fold fg9 in B9.
  pose proof (view_profitability_builds studios fg9) as B10.
  split_and!.
  - keep B10. keep B9. keep B8. keep B7. keep B6. keep B5. keep B3. keep B2.
    by eapply builds_displays.
  - keep B10. keep B9. keep B8. keep B7. keep B6. keep B5. keep B3.
    by eapply builds_displays.
  - keep B10. keep B9. keep B8. keep B7. keep B6. keep B5.
    by eapply builds_displays.
  - keep B10. keep B9. keep B8. keep B7. keep B6. by eapply builds_displays.
  - keep B10. keep B9. keep B8. keep B7. by eapply builds_displays.
  - keep B10. keep B9. keep B8. by eapply builds_displays.
  - keep B10. keep B9. by eapply builds_displays.
  - keep B10. by eapply builds_displays.
  - by eapply builds_displays.
Qed.

Lemma displays_covered key l fg i :
  displays key l fg →
  i ∈ view_covered fg key ↔ ∃ s, s ∈ l ∧ gidx s = i.
Proof.
  intros (news & Hs & Hp). unfold view_covered.
  rewrite (shown_view_traces _ _ _ Hs). split.
  - intros Hi. apply elem_of_flat_map in Hi as (tr & Htr & Hi).
    unfold covered in Hi. apply elem_of_flat_map in Hi as (p & Hpt & Hi).
    rewrite point_indices_members in Hi.
    change (List.map ?g ?x) with (g <$> x) in Hi.
    apply list_elem_of_fmap in Hi as (s & -> & Hm).
    exists s. split; [|done]. apply Hp. unfold plotted.
    apply elem_of_flat_map. exists tr. split; [done|].
    apply elem_of_flat_map. by exists p.
  - intros (s & Hl & <-). apply Hp in Hl. unfold plotted in Hl.
    apply elem_of_flat_map in Hl as (tr & Htr & Hl).
    apply elem_of_flat_map in Hl as (p & Hpt & Hm).
    apply elem_of_flat_map. exists tr. split; [done|].
    unfold covered. apply elem_of_flat_map. exists p. split; [done|].
    rewrite point_indices_members.
    change (List.map ?g ?x) with (g <$> x).
    apply list_elem_of_fmap. by exists s.
Qed.

Lemma load_lookup raw i s :
  load raw !! i = Some s ↔ s ∈ load raw ∧ gidx s = i.
Proof.
  unfold load. rewrite list_lookup_imap. split.
  - intros Hl. destruct (raw !! i) as [r|] eqn:E; simpl in Hl; [|done].
    inversion Hl; subst s. split; [|done].
    apply elem_of_lookup_imap. by exists i, r.
  - intros [Hin <-]. apply elem_of_lookup_imap in Hin as (j & r & -> & Hr).
    simpl. by rewrite Hr.
Qed.

Lemma elem_of_levels {A L} (P : L -> A -> bool) (l : list A) (lvs : list L) a :
  a ∈ List.flat_map (fun lv => List.filter (P lv) l) lvs
  ↔ a ∈ l ∧ existsb (fun lv => P lv a) lvs = true.
Proof.
  rewrite elem_of_flat_map, existsb_exists. split.
  - intros (lv & Hlv & Ha). apply elem_of_filter_list in Ha as [Ha Hp].
    split; [done|]. exists lv. by rewrite <- list_elem_of_In.
  - intros (Ha & lv & Hlv & Hp). exists lv. rewrite elem_of_filter_list.
    by rewrite list_elem_of_In.
Qed.

(** Every view shows the studios its filter selects. *)
Lemma build_displays_in_view raw fg view :
  build raw = Some fg → view ∈ VIEW_KEYS →
  displays view (List.filter (in_view view) (load raw)) fg.
Proof.
  intros Hb Hv.
  destruct (build_displays raw fg Hb)
    as (H1 & H2 & H3 & H4 & H5 & H6 & H7 & H8 & H9).
  unfold VIEW_KEYS in Hv.
  repeat (apply elem_of_cons in Hv as [->|Hv]); [..|by apply elem_of_nil in Hv].
  - eapply displays_equiv; [|exact H1]. intros s.
    rewrite elem_of_app, !elem_of_filter_list.
    change (in_view v_founded s) with (has_region s).
    unfold has_region. rewrite orb_true_iff. intuition.
  - eapply displays_equiv; [|exact H2]. intros s.
    rewrite elem_of_app, !elem_of_filter_list.
    change (in_view v_current s) with (has_region s).
    unfold has_region. rewrite orb_true_iff. intuition.
  - eapply displays_equiv; [|exact H3]. intros s.
    rewrite !elem_of_app, !elem_of_filter_list, elem_of_nil.
    change (in_view v_growth s) with (is_growth s && has_region s).
    unfold has_region. rewrite andb_true_iff, orb_true_iff. intuition.
  - eapply displays_equiv; [|exact H4]. intros s.
    by rewrite !elem_of_filter_list.
  - eapply displays_equiv; [|exact H5]. intros s.
    rewrite elem_of_app, !elem_of_levels, !elem_of_filter_list.
    change (in_view v_ai_adoption s)
      with (has_region s
            && existsb (fun lv => cat_is k_ai_adoption_level lv s) ai_levels).
    unfold has_region. rewrite andb_true_iff, orb_true_iff. intuition.
  - eapply displays_equiv; [|exact H6]. intros s.
    by rewrite !elem_of_filter_list.
  - eapply displays_equiv; [|exact H7]. intros s.
    rewrite elem_of_filter_list. change (in_view v_ownership s) with true.
    intuition.
  - eapply displays_equiv; [|exact H8]. intros s.
    rewrite elem_of_filter_list. change (in_view v_platform s) with true.
    intuition.
  - eapply displays_equiv; [|exact H9]. intros s.
    rewrite elem_of_app, !elem_of_filter_list.
    change (in_view v_profitability s) with true.
    destruct (has_num k_years_to_profitability s); simpl; intuition congruence.
Qed.

(** C5 (as amended).  A view covers exactly the studios that pass the
    filter its part of the script applies: the views ['founded'] and
    ['current'] the studios of the regions ["domestic"] and
    ["international"]; ['growth'] those of them whose two sizes are set
    and differ; ['business_model'] the studios with an IP ownership score;
    ['ai_adoption'] the studios of the two regions whose AI level is one
    of the four; ['revenue'] the studios with a revenue.  The views
    ['ownership'], ['platform'] and ['profitability'] have no such filter
    (a missing value makes a series of its own) and cover every studio. *)
Theorem C5_view_coverage raw fg view :
  build raw = Some fg → view ∈ VIEW_KEYS →
  (∀ i, i ∈ view_covered fg view
        ↔ ∃ s, load raw !! i = Some s ∧ in_view view s = true)
  ∧ (view ∈ [v_ownership; v_platform; v_profitability] →
     ∀ i, i < length raw → i ∈ view_covered fg view).
Proof.
  intros Hb Hv.
  pose proof (build_displays_in_view raw fg view Hb Hv) as Hd.
  assert (∀ i, i ∈ view_covered fg view
               ↔ ∃ s, load raw !! i = Some s ∧ in_view view s = true) as Hc.
  { intros i. rewrite (displays_covered _ _ _ i Hd). split.
    - intros (s & Hs & Hi). apply elem_of_filter_list in Hs as [Hs Hin].
      exists s. split; [|done]. by apply load_lookup.
    - intros (s & Hs & Hin). apply load_lookup in Hs as [Hs Hi].
      exists s. split; [|done]. by apply elem_of_filter_list. }
  split; [exact Hc|].
  intros Hall i Hi. apply Hc.
  assert (is_Some (load raw !! i)) as [s Hs].
  { apply lookup_lt_is_Some_2. unfold load. by rewrite length_imap. }
  exists s. split; [done|].
  repeat (apply elem_of_cons in Hall as [->|Hall]);
    [done..|by apply elem_of_nil in Hall].
Qed.

Lemma C5_view_coverage_witness :
  Forall (fun i => i ∈ view_covered Sample.fig v_ownership)
    (seq 0 (length Sample.raw)).
Proof.
  apply Forall_forall. intros i Hi.
  apply (C5_view_coverage Sample.raw Sample.fig v_ownership).
  - exact sample_build.
  - do 6 right. left.
  - left.
  - apply elem_of_seq in Hi. lia.
Defined.

(** C5 as stated does not hold: of the four studios of the sample only
    studio A has a revenue, and the view ['revenue'] covers studio A
    alone; studio B is in none of its series. *)
Lemma C5_counterexample :
  v_revenue ∈ VIEW_KEYS
  ∧ length Sample.raw = 4
  ∧ view_covered Sample.fig v_revenue = [0]
  ∧ (1 ∉ view_covered Sample.fig v_revenue)
  ∧ view_covered Sample.fig v_ai_adoption = [].
Proof.
  assert (view_covered Sample.fig v_revenue = [0]) as E by by vm_compute.
  split_and!.
  - do 5 right. left.
  - done.
  - exact E.
  - rewrite E. intros H. apply list_elem_of_singleton in H. discriminate H.
  - by vm_compute.
Qed.

(** *** The point map of view 4 *)

(** C2 (a defect of the script).  Studio D of the sample has an IP
    ownership score and no business model.  View 4 plots it in the trace of
    the category ["unknown"] (trace 25), whose one point stands for studio
    3; the point map of that trace is empty: the first loop looks for
    studios whose [business_model] equals the name of the trace, the second
    finds no key with that label and leaves the entry as it is.  In the
    page, [applyFilters] then writes empty style arrays to the trace. *)
Theorem C2_unknown_business_model :
  ∃ tr,
    traces Sample.fig !! 25 = Some tr
    ∧ 25 ∈ vm_get (visibility_map Sample.fig) v_business_model
    ∧ t_name tr = unknown
    ∧ List.map point_indices (t_points tr) = [[3]]
    ∧ trace_point_maps Sample.fig !! 25 = Some []
    ∧ Js.marker_opacity
        <$> Js.data (Js.step (H := Js.ascii_host) Sample.fig Sample.T
                       Sample.page Js.ClickApply) !! 25
      = Some (Js.PerPoint []).
Proof.
  eexists. split; [by vm_compute|]. split_and!.
  - assert (vm_get (visibility_map Sample.fig) v_business_model = [24; 25])
      as -> by by vm_compute.
    right. left.
  - by vm_compute.
  - by vm_compute.
  - by vm_compute.
  - by vm_compute.
Qed.

End Coverage.

(* ===================================================================== *)
(** ** The page after filtering: edge behaviour *)
(* ===================================================================== *)

Module Engine.
Import Js Spec Filter Builder.

(** *** The inputs after a reset *)



(** *** The size clause on a missing size *)

Lemma Qltb_inject_Z a b : Py.Qltb (inject_Z a) (inject_Z b) = (a <? b)%Z.
Proof.
  unfold Py.Qltb, Qcompare, Z.ltb. simpl. by rewrite !Z.mul_1_r.
Qed.

Lemma parseInt_nonempty t n : parseInt t = Some n → nonempty t = true.
Proof. by destruct t. Qed.

(** The page holds [size_founded_num] with the default 10 put in by the
    script ([s.get("size_founded_num") or 10]), so it is never 0; the current
    size is written as it is, and a missing one is [null], which the
    comparisons of the size clause read as 0.  In every view but ['founded']
    a studio with no current size therefore fails every lower bound above 0
    and passes every upper bound that is not negative. *)
Theorem missing_size_reads_as_zero (i : nat) (s : Py.studio) (f : form)
    (view : str) :
  default None (Py.get s Py.k_size_current_num) = None →
  view ≠ Py.v_founded →
  let js := export_studio i s in
  ¬ (size_founded_num js == 0)%Q
  ∧ size_current_num js = None
  ∧ (size_clause f view js = true
     ↔ (∀ n, parseInt (sizeMin f) = Some n → (n ≤ 0)%Z)
       ∧ (∀ m, parseInt (sizeMax f) = Some m → (0 ≤ m)%Z)).
Proof.
  intros Hn Hv js. split_and!.
  - unfold js, export_studio. simpl. unfold Py.or_num.
    destruct (default None (Py.get s Py.k_size_founded_num)) as [q|]; [|done].
    destruct (Qeq_bool q 0) eqn:E; [done|].
    intros Hq. apply Qeq_bool_iff in Hq. congruence.
  - done.
  - unfold size_clause, sizeVal.
    rewrite (proj2 (eqb_neq _ _) Hv).
    assert (size_current_num js = None) as -> by done. simpl.
    unfold below, above. change 0%Q with (inject_Z 0).
    rewrite andb_true_iff, !negb_true_iff.
    destruct (parseInt (sizeMin f)) as [n|] eqn:En,
             (parseInt (sizeMax f)) as [m|] eqn:Em;
      rewrite ?(parseInt_nonempty _ _ En), ?(parseInt_nonempty _ _ Em),
        ?andb_false_r, ?Qltb_inject_Z; simpl.
    + rewrite Z.ltb_ge, Z.ltb_ge. split.
      * intros [H1 H2]. split; intros k Hk; inversion Hk; by subst.
      * intros [H1 H2]. split; [by apply H1|by apply H2].
    + rewrite Z.ltb_ge. split.
      * intros [H1 _]. split; intros k Hk; inversion Hk; by subst.
      * intros [H1 _]. split; [by apply H1|done].
    + rewrite Z.ltb_ge. split.
      * intros [_ H2]. split; intros k Hk; inversion Hk; by subst.
      * intros [_ H2]. split; [done|by apply H2].
    + split; [|done]. intros _. split; intros k Hk; inversion Hk.
Qed.

Lemma missing_size_reads_as_zero_witness :
  size_clause Sample.at_least_50 Py.v_current
    (export_studio 3 (default Sample.no_year (Sample.raw !! 3))) = true
  ↔ (∀ n, parseInt (sizeMin Sample.at_least_50) = Some n → (n ≤ 0)%Z)
    ∧ (∀ m, parseInt (sizeMax Sample.at_least_50) = Some m → (0 ≤ m)%Z).
Proof.
  apply (missing_size_reads_as_zero 3 (default Sample.no_year (Sample.raw !! 3))
           Sample.at_least_50 Py.v_current).
  - reflexivity.
  - by vm_compute.
Defined.

(** *** The search clause *)

Lemma is_prefix_spec p s : is_prefix p s = true ↔ ∃ r, s = p ++ r.
Proof.
  revert s. induction p as [|a p IH]; intros s; simpl.
  - split; [by exists s|done].
  - destruct s as [|b s].
    + split; [done|]. by intros [r Hr].
    + rewrite andb_true_iff, N.eqb_eq, IH. split.
      * intros [-> [r ->]]. by exists r.
      * intros [r Hr]. inversion Hr. split; [done|by exists r].
Qed.

Lemma contains_spec needle hay :
  contains needle hay = true ↔ ∃ pre post, hay = pre ++ needle ++ post.
Proof.
  induction hay as [|c hay IH]; simpl.
  - rewrite orb_false_r, is_prefix_spec. split.
    + intros [r Hr]. by exists [], r.
    + intros (pre & post & Hh). destruct pre; [by exists post|done].
  - rewrite orb_true_iff, is_prefix_spec, IH. split.
    + intros [[r Hr]|(pre & post & ->)].
      * by exists [], r.
      * by exists (c :: pre), post.
    + intros (pre & post & Hh). destruct pre as [|c' pre].
      * left. by exists post.
      * right. inversion Hh. by exists pre, post.
Qed.

(** The search box: the text is lowered and trimmed; when nothing is left
    every studio passes, otherwise a studio passes when the text occurs in
    its name, English name and notable works, joined by spaces and lowered
    (an English name that is [null] reads as the text ["null"]). *)
Theorem search_is_substring `{Host} (f : form) (s : studio) :
  let needle := trim (toLowerCase (search f)) in
  (search_clause f s = true
   ↔ needle = [] ∨ ∃ pre post, haystack s = pre ++ needle ++ post)
  ∧ (haystack s
     = toLowerCase (name s ++ lit " " ++ default (lit "null") (name_en s)
                    ++ lit " " ++ join (lit " ") (notable_works s))).
Proof.
  intros needle. split; [|done].
  unfold search_clause. fold needle. rewrite negb_true_iff, andb_false_iff.
  rewrite negb_false_iff, contains_spec.
  destruct needle; simpl; [|split; [intros [?|?]|intros [?|?]]]; try done.
  - split; [by left|by left].
  - by right.
  - by right.
Qed.

(** *** [getCurrentView] *)

Lemma view_holding_some vm i view :
  view_holding vm i = Some view →
  view ≠ Py.v_growth_lines ∧ ∃ l, (view, l) ∈ vm ∧ i ∈ l.
Proof.
  unfold view_holding. destruct (List.find _ vm) as [[k l]|] eqn:E; [|done].
  simpl. intros Hv. inversion Hv; subst k. clear Hv.
  apply find_some in E as [Hin Hp]. simpl in Hp.
  apply andb_true_iff in Hp as [Hk Hl].
  apply negb_true_iff, eqb_neq in Hk. apply bool_decide_eq_true in Hl.
  split; [done|]. exists l. split; [by apply list_elem_of_In|done].
Qed.

Lemma scan_views_some vm flags k view :
  scan_views vm flags k = Some view →
  ∃ j, flags !! j = Some true ∧ view_holding vm (k + j) = Some view.
Proof.
  revert k. induction flags as [|v flags IH]; intros k; simpl; [done|].
  destruct v.
  - destruct (view_holding vm k) as [w|] eqn:E.
    + intros Hv. inversion Hv; subst w. exists 0. split; [done|].
      by rewrite Nat.add_0_r.
    + intros Hs. destruct (IH _ Hs) as (j & Hj & Hh). exists (S j).
      split; [done|]. by replace (k + S j) with (S k + j) by lia.
  - intros Hs. destruct (IH _ Hs) as (j & Hj & Hh). exists (S j).
    split; [done|]. by replace (k + S j) with (S k + j) by lia.
Qed.

(** [getCurrentView] never answers ['growth_lines']: its answer is
    ['founded'], or a key of [VISIBILITY_MAP] other than ['growth_lines']
    that lists a trace which is visible. *)
Theorem getCurrentView_range (T : tables) (data : list tdata) :
  let view := getCurrentView T data in
  view ≠ Py.v_growth_lines
  ∧ (view = Py.v_founded
     ∨ ∃ i d l, data !! i = Some d ∧ visible d = true
                ∧ (view, l) ∈ VISIBILITY_MAP T ∧ i ∈ l).
Proof.
  intros view. unfold view, getCurrentView.
  destruct (scan_views _ _ 0) as [v|] eqn:E; simpl.
  - apply scan_views_some in E as (j & Hj & Hh). simpl in Hh.
    apply view_holding_some in Hh as (Hne & l & Hin & Hl).
    split; [done|]. right.
    change (List.map ?g ?x) with (g <$> x) in Hj.
    rewrite list_lookup_fmap in Hj.
    destruct (data !! j) as [d|] eqn:Ed; [|done]. simpl in Hj.
    exists j, d, l. split_and!; [done|congruence|done|done].
  - split; [by vm_compute|by left].
Qed.

(** *** View switches *)

Lemma set_visible_twice (v1 v2 : list bool) (data : list tdata) :
  length data ≤ length v1 →
  zip_with set_visible v2 (zip_with set_visible v1 data)
  = zip_with set_visible v2 data.
Proof.
  revert v1 data. induction v2 as [|b v2 IH]; intros v1 data Hl; [done|].
  destruct data as [|d data]; [by destruct v1|].
  destruct v1 as [|a v1]; [simpl in Hl; lia|]. simpl.
  f_equal. apply IH. simpl in Hl. lia.
Qed.

(** Of two view buttons pressed one after the other the second decides what
    is shown: the traces are those the second button alone would give.  Each
    press queues its own call of [applyFilters]. *)
Theorem view_switch_last_wins `{Host} (fg : Py.figure) (T : tables) (p : page)
    (v1 v2 : str) :
  length (data p) = length (Py.traces fg) →
  let p2 := run fg T p [ClickView v1; ClickView v2] in
  data p2 = data (step fg T p (ClickView v2))
  ∧ inputs p2 = inputs p
  ∧ originalData p2 = originalData p
  ∧ timers p2 = if listening p then S (S (timers p)) else timers p.
Proof.
  intros Hl p2. unfold p2, run. cbn [fold_left step data inputs originalData
                                      timers listening].
  split_and!; [|done|done|by destruct (listening p)].
  apply set_visible_twice. rewrite make_visibility_length. lia.
Qed.

Lemma view_switch_last_wins_witness :
  data (run (H := ascii_host) Sample.fig Sample.T Sample.page
          [ClickView Py.v_growth; ClickView Py.v_current])
  = data (step (H := ascii_host) Sample.fig Sample.T Sample.page
            (ClickView Py.v_current)).
Proof.
  apply (view_switch_last_wins (H := ascii_host) Sample.fig Sample.T Sample.page
           Py.v_growth Py.v_current).
  by vm_compute.
Defined.

(** *** Filtering starts from the saved originals *)

Lemma restyle_each_some {V} (upd : nat * V -> option (tdata -> tdata))
    entries data data' :
  restyle_each upd entries data = Some data' →
  ∀ e, e ∈ entries → is_Some (upd e).
Proof.
  revert data. induction entries as [|e0 es IH]; intros data Hr e He.
  - by apply elem_of_nil in He.
  - rewrite restyle_each_cons in Hr.
    destruct (upd e0) as [f|] eqn:E; simpl in Hr; [|done].
    apply elem_of_cons in He as [->|He]; [by rewrite E|]. by eapply IH.
Qed.

Lemma restyle_each_again {V} (upd : nat * V -> option (tdata -> tdata))
    entries data data' other :
  restyle_each upd entries data = Some data' →
  is_Some (restyle_each upd entries other).
Proof.
  intros Hr. apply restyle_each_total. by eapply restyle_each_some.
Qed.

Lemma applyFilters_visible `{Host} T o f data data' :
  applyFilters T o f data = Some data' →
  List.map visible data' = List.map visible data.
Proof.
  intros Hr. destruct (applyFilters_spec _ _ _ _ _ Hr) as [Hl Hsp].
  change (List.map ?g ?x) with (g <$> x).
  apply list_eq. intros i. rewrite !list_lookup_fmap.
  destruct (data !! i) as [d|] eqn:Ed.
  - destruct (Hsp _ _ Ed) as (fs & fl & Hfs & Hfl & ->). simpl. f_equal.
    assert (visible (fs d) = visible d) as Hs.
    { destruct (TRACE_POINT_MAP T !! i); [|by subst].
      by destruct (scatter_update_keeps _ _ _ _ d Hfs) as (? & _). }
    destruct (GROWTH_LINE_STUDIOS T !! i); [|by subst].
    destruct (lines_update_keeps _ _ _ _ (fs d) Hfl) as (-> & _). done.
  - rewrite (lookup_ge_None_2 data' i); [done|].
    rewrite Hl. by apply lookup_ge_None.
Qed.

Lemma match_results_visible `{Host} T f data data' :
  List.map visible data' = List.map visible data →
  match_results T data' f = match_results T data f.
Proof.
  intros Hv. unfold match_results, studioMatchesFilter, getCurrentView.
  by rewrite Hv.
Qed.

Lemma scatter_update_pair o mr mr' e fs fs' :
  scatter_update o mr e = Some fs → scatter_update o mr' e = Some fs' →
  (fs = id ∧ fs' = id)
  ∨ ∃ v v', fs = restyle_points v ∧ fs' = restyle_points v'.
Proof.
  unfold scatter_update. destruct (o !! e.1) as [orig|].
  - destruct (o_x orig).
    + destruct (mapM _ _) as [v|]; simpl; [|done].
      destruct (mapM _ _) as [v'|]; simpl; [|done].
      intros E1 E2. inversion E1. inversion E2. right. by exists v, v'.
    + intros E1 E2. inversion E1. inversion E2. by left.
  - intros E1 E2. inversion E1. inversion E2. by left.
Qed.

Lemma lines_update_pair o mr mr' e fl fl' :
  lines_update o mr e = Some fl → lines_update o mr' e = Some fl' →
  (fl = id ∧ fl' = id)
  ∨ ∃ a b a' b', fl = restyle_xy a b ∧ fl' = restyle_xy a' b'.
Proof.
  unfold lines_update. destruct (o !! e.1) as [orig|].
  - destruct (o_x orig).
    + destruct (o_y orig); simpl; [|done].
      intros E1 E2. inversion E1. inversion E2. right. by eexists _, _, _, _.
    + intros E1 E2. inversion E1. inversion E2. by left.
  - intros E1 E2. inversion E1. inversion E2. by left.
Qed.

(** [applyFilters] works from the saved originals, not from what an earlier
    run has left: run after another run, with whatever inputs that one had,
    it gives the traces it gives when run first.  In particular a second run
    with the same inputs changes nothing. *)
Theorem applyFilters_from_snapshot `{Host} (T : tables)
    (originalData : list snapshot) (f f' : form) (data d1 d2 : list tdata) :
  applyFilters T originalData f' data = Some d1 →
  applyFilters T originalData f data = Some d2 →
  applyFilters T originalData f d1 = Some d2
  ∧ applyFilters T originalData f d2 = Some d2.
Proof.
  assert (∀ g dA dB dC,
            applyFilters T originalData g data = Some dA →
            applyFilters T originalData f data = Some dB →
            applyFilters T originalData f dA = Some dC → dC = dB) as Hkey.
  { intros g dA dB dC HA HB HC.
    pose proof (match_results_visible T f _ _ (applyFilters_visible _ _ _ _ _ HA))
      as Hmr.
    destruct (applyFilters_spec _ _ _ _ _ HA) as [LA SA].
    destruct (applyFilters_spec _ _ _ _ _ HB) as [LB SB].
    destruct (applyFilters_spec _ _ _ _ _ HC) as [LC SC].
    cbv zeta in SC. rewrite Hmr in SC.
    apply list_eq. intros i. destruct (data !! i) as [d|] eqn:Ed.
    - destruct (SA _ _ Ed) as (fsA & flA & HsA & HlA & EA).
      destruct (SB _ _ Ed) as (fsB & flB & HsB & HlB & ->).
      destruct (SC _ _ EA) as (fsC & flC & HsC & HlC & ->). f_equal.
      assert ((fsB = id ∧ fsA = id ∧ fsC = id)
              ∨ ∃ v v', fsB = restyle_points v ∧ fsA = restyle_points v'
                        ∧ fsC = restyle_points v) as Hs.
      { destruct (TRACE_POINT_MAP T !! i) as [pm|]; [|by left].
        rewrite HsB in HsC. inversion HsC; subst fsC.
        destruct (scatter_update_pair _ _ _ _ _ _ HsB HsA)
          as [[-> ->]|(v & v' & -> & ->)]; [by left|].
        right. by exists v, v'. }
      assert ((flB = id ∧ flA = id ∧ flC = id)
              ∨ ∃ a b a' b', flB = restyle_xy a b ∧ flA = restyle_xy a' b'
                             ∧ flC = restyle_xy a b) as Hl.
      { destruct (GROWTH_LINE_STUDIOS T !! i) as [sl|]; [|by left].
        rewrite HlB in HlC. inversion HlC; subst flC.
        destruct (lines_update_pair _ _ _ _ _ _ HlB HlA)
          as [[-> ->]|(a & b & a' & b' & -> & ->)]; [by left|].
        right. by eexists _, _, _, _. }
      destruct Hs as [(-> & -> & ->)|(v & v' & -> & -> & ->)],
               Hl as [(-> & -> & ->)|(a & b & a' & b' & -> & -> & ->)];
        reflexivity.
    - rewrite (lookup_ge_None_2 dC i), (lookup_ge_None_2 dB i); [done|..].
      + rewrite LB. by apply lookup_ge_None.
      + rewrite LC, LA. by apply lookup_ge_None. }
  assert (∀ g dA dB,
            applyFilters T originalData g data = Some dA →
            applyFilters T originalData f data = Some dB →
            applyFilters T originalData f dA = Some dB) as Hrun.
  { intros g dA dB HA HB.
    assert (is_Some (applyFilters T originalData f dA)) as [dC HC].
    { pose proof (match_results_visible T f _ _
                    (applyFilters_visible _ _ _ _ _ HA)) as Hmr.
      unfold applyFilters in HB |- *. rewrite Hmr.
      destruct (restyle_each (scatter_update _ _) _ data) as [x1|] eqn:E1;
        simpl in HB; [|done].
      destruct (restyle_each_again _ _ _ _ dA E1) as [y1 ->]. simpl.
      by eapply restyle_each_again. }
    rewrite HC. f_equal. exact (Hkey g dA dB dC HA HB HC). }
  intros H1 H2. split; [exact (Hrun f' d1 d2 H1 H2)|exact (Hrun f d2 d2 H2 H2)].
Qed.

Lemma applyFilters_from_snapshot_witness :
  ∃ d2,
    applyFilters (H := ascii_host) Sample.T (originalData Sample.page)
      Sample.at_least_50 (data Sample.page) = Some d2
    ∧ ∃ d1,
        applyFilters (H := ascii_host) Sample.T (originalData Sample.page)
          Sample.since_2000 (data Sample.page) = Some d1
        ∧ applyFilters (H := ascii_host) Sample.T (originalData Sample.page)
            Sample.at_least_50 d1 = Some d2.
Proof.
  destruct (applyFilters_total (H := ascii_host) Sample.T
              (originalData Sample.page) Sample.since_2000 (data Sample.page)
              sample_page_ok) as [d1 H1].
  destruct (applyFilters_total (H := ascii_host) Sample.T
              (originalData Sample.page) Sample.at_least_50 (data Sample.page)
              sample_page_ok) as [d2 H2].
  exists d2. split; [exact H2|]. exists d1. split; [exact H1|].
  exact (proj1 (applyFilters_from_snapshot _ _ _ _ _ _ _ H1 H2)).
Defined.

End Engine.

(* ===================================================================== *)
(** ** The growth lines *)
(* ===================================================================== *)

Module Lines.
Import Py Spec Grouper Builder.

(** *** The pieces of a growth line *)

Lemma segment_is_Some step s :
  is_Some (segment step s)
  ↔ is_Some (x_of k_original_score_founded s) ∧ is_Some (original_score s)
    ∧ is_Some (get s k_size_founded_num)
    ∧ is_Some (mjoin (get s k_size_current_num)).
Proof.
  unfold segment.
  destruct (x_of k_original_score_founded s) as [xs|]; simpl.
  2: { split; [by intros [? ?]|]. by intros ([? ?] & _). }
  destruct (original_score s) as [xe|]; simpl.
  2: { split; [by intros [? ?]|]. by intros (_ & [? ?] & _). }
  destruct (get s k_size_founded_num) as [v|]; simpl.
  2: { split; [by intros [? ?]|]. by intros (_ & _ & [? ?] & _). }
  destruct (get s k_size_current_num) as [[c|]|]; simpl.
  - split; [|by eexists]. intros _. split_and!; by eexists.
  - split; [by intros [? ?]|]. by intros (_ & _ & _ & [? ?]).
  - split; [by intros [? ?]|]. by intros (_ & _ & _ & [? ?]).
Qed.

Lemma is_growth_sizes s :
  is_growth s = true →
  is_Some (get s k_size_founded_num) ∧ is_Some (mjoin (get s k_size_current_num)).
Proof.
  unfold is_growth.
  destruct (get s k_size_founded_num) as [[f|]|]; try done.
  destruct (get s k_size_current_num) as [[c|]|]; done.
Qed.

Lemma mapM_is_Some_forall {A B} (f : A -> option B) l :
  is_Some (mapM f l) ↔ Forall (fun a => is_Some (f a)) l.
Proof. apply mapM_is_Some. Qed.

(** The line traces can be built exactly when every studio of the list has
    the two scores and the two sizes the interpolation reads; for studios that
    passed the growth filter the sizes are there, and only a missing score
    (a value [None]) makes the script fail. *)
Theorem growth_lines_defined (studio_list : list studio) (region_label : str) :
  (is_Some (make_growth_line_traces studio_list region_label)
   ↔ Forall (fun s => is_Some (segment 0 s)) studio_list)
  ∧ (Forall (fun s => is_growth s = true) studio_list →
     (is_Some (make_growth_line_traces studio_list region_label)
      ↔ Forall (fun s => is_Some (x_of k_original_score_founded s)
                         ∧ is_Some (original_score s)) studio_list)).
Proof.
  assert (is_Some (make_growth_line_traces studio_list region_label)
          ↔ Forall (fun s => is_Some (segment 0 s)) studio_list) as Hd.
  { unfold make_growth_line_traces. rewrite mapM_is_Some. split.
    - intros Hall. apply Forall_forall. intros s Hs.
      assert (is_Some (growth_line_trace studio_list region_label 0)) as Hg.
      { rewrite Forall_forall in Hall. apply Hall. by left. }
      unfold growth_line_trace in Hg.
      destruct (mapM (segment 0) studio_list) as [segs|] eqn:E;
        [|by destruct Hg].
      assert (is_Some (mapM (segment 0) studio_list)) as Hm by by rewrite E.
      rewrite mapM_is_Some, Forall_forall in Hm. by apply Hm.
    - intros Hall. apply Forall_forall. intros st _.
      unfold growth_line_trace, compose.
      assert (is_Some (mapM (segment st) studio_list)) as [segs ->]; [|by eexists].
      apply mapM_is_Some. eapply Forall_impl; [exact Hall|].
      intros s Hs. simpl in Hs. apply segment_is_Some.
      by apply segment_is_Some in Hs. }
  split; [exact Hd|]. intros Hg. rewrite Hd. split.
  - intros Hall. rewrite Forall_forall in Hall |- *. intros s Hs.
    destruct (proj1 (segment_is_Some 0 s) (Hall s Hs)) as (H1 & H2 & _).
    by split.
  - intros Hall. rewrite Forall_forall in Hall, Hg |- *. intros s Hs.
    apply segment_is_Some. destruct (Hall s Hs) as [H1 H2].
    destruct (is_growth_sizes s (Hg s Hs)) as [H3 H4]. by split_and!.
Qed.

Lemma growth_lines_defined_witness :
  is_Some (make_growth_line_traces
             (List.filter is_growth (load Sample.raw)) (lit "x"))
  ↔ Forall (fun s => is_Some (x_of k_original_score_founded s)
                     ∧ is_Some (original_score s))
      (List.filter is_growth (load Sample.raw)).
Proof.
  apply (growth_lines_defined (List.filter is_growth (load Sample.raw)) (lit "x")).
  apply Forall_forall. intros s Hs.
  apply list_elem_of_In, filter_In in Hs. by destruct Hs.
Defined.

(** *** The shape of a line trace *)

Lemma flat_map_triples {A B} (f g : A -> B) (h : B) (l : list A) :
  length (List.flat_map (fun a => [f a; g a; h]) l) = 3 * length l
  ∧ ∀ si a, l !! si = Some a →
      List.flat_map (fun a => [f a; g a; h]) l !! (si * 3) = Some (f a)
      ∧ List.flat_map (fun a => [f a; g a; h]) l !! (si * 3 + 1) = Some (g a)
      ∧ List.flat_map (fun a => [f a; g a; h]) l !! (si * 3 + 2) = Some h.
Proof.
  induction l as [|a0 l [IHl IH]]; simpl.
  - split; [done|]. intros si a Hsi. done.
  - split; [lia|]. intros [|si] a Hsi; simpl in *.
    + inversion Hsi; subst. done.
    + apply (IH si a Hsi).
Qed.

(** The layout of the line traces: per step one trace, per studio three
    entries of [x] and of [y]. *)
Lemma growth_lines_layout (studio_list : list studio) (region_label : str)
    (lines : list trace) :
  make_growth_line_traces studio_list region_label = Some lines →
  length lines = GRADIENT_STEPS
  ∧ ∀ step tr, lines !! step = Some tr →
      t_mode tr = lit "lines" ∧ t_points tr = []
      ∧ length (t_x tr) = 3 * length studio_list
      ∧ length (t_y tr) = 3 * length studio_list
      ∧ ∀ si s, studio_list !! si = Some s →
          ∃ x0 x1 y0 y1,
            segment step s = Some ((x0, x1), (y0, y1))
            ∧ t_x tr !! (si * 3) = Some (Some x0)
            ∧ t_x tr !! (si * 3 + 1) = Some (Some x1)
            ∧ t_x tr !! (si * 3 + 2) = Some None
            ∧ t_y tr !! (si * 3) = Some (Some y0)
            ∧ t_y tr !! (si * 3 + 1) = Some (Some y1)
            ∧ t_y tr !! (si * 3 + 2) = Some None.
Proof.
  unfold make_growth_line_traces. intros Hm. apply mapM_Some in Hm.
  split.
  - rewrite <- (Forall2_length _ _ _ Hm). apply length_seq.
  - intros step tr Htr.
    destruct (Forall2_lookup_r _ _ _ _ _ Hm Htr) as (st & Hst & Hg).
    apply lookup_seq in Hst as [-> _]. simpl in Hg.
    unfold growth_line_trace in Hg.
    destruct (mapM (segment step) studio_list) as [segs|] eqn:E;
      simpl in Hg; [|done].
    inversion Hg; subst tr; clear Hg. simpl.
    apply mapM_Some in E. pose proof (Forall2_length _ _ _ E) as Hl.
    destruct (flat_map_triples (fun sg : Q * Q * (Q * Q) => Some sg.1.1)
                (fun sg => Some sg.1.2) None segs) as [Lx Px].
    destruct (flat_map_triples (fun sg : Q * Q * (Q * Q) => Some sg.2.1)
                (fun sg => Some sg.2.2) None segs) as [Ly Py].
    split_and!; [done|done|lia|lia|].
    intros si s Hs.
    destruct (Forall2_lookup_l _ _ _ _ _ E Hs) as ([[x0 x1] [y0 y1]] & Hsg & Hseg).
    exists x0, x1, y0, y1.
    destruct (Px _ _ Hsg) as (? & ? & ?). destruct (Py _ _ Hsg) as (? & ? & ?).
    by split_and!.
Qed.

(** [make_growth_line_traces] gives [GRADIENT_STEPS] traces of mode
    ["lines"], which carry no points of their own; in each of them studio
    [si] of the list owns the entries [3 si], [3 si + 1] (the two ends of its
    piece) and [3 si + 2] (the gap [None]) of [x] and of [y], and the arrays
    have no other entries. *)
Theorem growth_lines_shape (studio_list : list studio) (region_label : str)
    (lines : list trace) :
  make_growth_line_traces studio_list region_label = Some lines →
  length lines = GRADIENT_STEPS
  ∧ ∀ step tr, lines !! step = Some tr →
      t_mode tr = lit "lines" ∧ t_points tr = []
      ∧ length (t_x tr) = 3 * length studio_list
      ∧ length (t_y tr) = 3 * length studio_list
      ∧ ∀ si s, studio_list !! si = Some s →
          ∃ x0 x1 y0 y1,
            segment step s = Some ((x0, x1), (y0, y1))
            ∧ t_x tr !! (si * 3) = Some (Some x0)
            ∧ t_x tr !! (si * 3 + 1) = Some (Some x1)
            ∧ t_x tr !! (si * 3 + 2) = Some None
            ∧ t_y tr !! (si * 3) = Some (Some y0)
            ∧ t_y tr !! (si * 3 + 1) = Some (Some y1)
            ∧ t_y tr !! (si * 3 + 2) = Some None.
Proof. apply growth_lines_layout. Qed.

Lemma growth_lines_shape_witness :
  ∃ lines,
    make_growth_line_traces (List.filter is_growth (load Sample.raw)) (lit "x")
    = Some lines
    ∧ length lines = GRADIENT_STEPS.
Proof.
  destruct (make_growth_line_traces
              (List.filter is_growth (load Sample.raw)) (lit "x"))
    as [lines|] eqn:E; [|by vm_compute in E].
  exists lines. split; [done|].
  exact (proj1 (growth_lines_shape _ _ _ E)).
Defined.



End Lines.

(* ===================================================================== *)
(** ** The tables the script hands to the page *)
(* ===================================================================== *)

Module Tables.
Import Py Spec Grouper Builder Coverage Lines.

(** *** Lists of studios of the dataset *)

Lemma known_load raw : known (length raw) (load raw).
Proof.
  apply Forall_forall. intros s Hs. unfold load in Hs.
  apply elem_of_lookup_imap in Hs as (i & r & -> & Hr). simpl.
  by eapply lookup_lt_Some.
Qed.

Lemma known_sub n l l' : (∀ s, s ∈ l' → s ∈ l) → known n l → known n l'.
Proof.
  unfold known. rewrite !Forall_forall. intros Hs Hl s Hin. by apply Hl, Hs.
Qed.

Lemma known_filter n f l : known n l → known n (List.filter f l).
Proof.
  apply known_sub. intros s Hs. by apply elem_of_filter_list in Hs as [? _].
Qed.

Lemma known_group {K} n (key : studio -> K) keqb l g :
  known n l → g ∈ group_by key keqb l → known n g.2.
Proof.
  intros Hl Hg. eapply known_sub; [|exact Hl]. intros s Hs.
  apply (grouped_members key keqb). apply elem_of_flat_map. by exists g.
Qed.

Lemma known_point_map n l xk sk :
  known n l → Forall (Forall (fun si => si < n)) (build_point_map l xk sk).
Proof.
  intros Hl. rewrite build_point_map_members.
  apply Forall_forall. intros ms Hms.
  change (List.map ?g ?x) with (g <$> x) in Hms.
  apply list_elem_of_fmap in Hms as (p & -> & Hp).
  apply Forall_forall. intros si Hsi.
  change (List.map ?g ?x) with (g <$> x) in Hsi.
  apply list_elem_of_fmap in Hsi as (s & -> & Hs).
  unfold known in Hl. rewrite Forall_forall in Hl. apply Hl.
  apply (merged_members l xk sk). apply elem_of_flat_map. by exists p.
Qed.

(** *** Steps of the script *)

Lemma vm_get_append_mono view v n vm i :
  i ∈ vm_get vm v → i ∈ vm_get (vm_append view n vm) v.
Proof.
  unfold vm_get. induction vm as [|[k l] vm IH]; simpl; [done|].
  destruct (eqb k view) eqn:E1; simpl.
  - destruct (eqb k v); simpl; [|done]. intros Hi. apply elem_of_app. by left.
  - destruct (eqb k v); simpl; [done|apply IH].
Qed.

Lemma fig_ok_grow n fg fg' news :
  fig_ok n fg →
  traces fg' = traces fg ++ news →
  (∀ i, i ∈ vm_get (visibility_map fg) v_business_model →
        i ∈ vm_get (visibility_map fg') v_business_model) →
  (∀ i, i ∈ vm_get (visibility_map fg) v_ownership →
        i ∈ vm_get (visibility_map fg') v_ownership) →
  (∀ ti pm, trace_point_maps fg' !! ti = Some pm →
     trace_point_maps fg !! ti = Some pm
     ∨ (ti < length (traces fg')
        ∧ Forall (Forall (fun si => si < n)) pm
        ∧ (ti ∈ vm_get (visibility_map fg') v_business_model
           ∨ ti ∈ vm_get (visibility_map fg') v_ownership
           ∨ ∃ tr, traces fg' !! ti = Some tr
                   ∧ pm = List.map point_indices (t_points tr)))) →
  (∀ gl sl, growth_line_studio_indices fg' !! gl = Some sl →
     growth_line_studio_indices fg !! gl = Some sl
     ∨ (Forall (fun si => si < n) sl
        ∧ ∃ tr, traces fg' !! gl = Some tr ∧ t_mode tr = lit "lines"
                ∧ length (t_x tr) = 3 * length sl
                ∧ length (t_y tr) = 3 * length sl)) →
  fig_ok n fg'.
Proof.
  intros [HA HC] Ht Hbm Hown Hpm Hgl. split.
  - intros ti pm Hti. destruct (Hpm _ _ Hti) as [Hold|Hnew]; [|done].
    destruct (HA _ _ Hold) as (Hlt & Hr & Hd).
    split_and!; [rewrite Ht, length_app; lia|done|].
    destruct Hd as [Hd|[Hd|(tr & Htr & ->)]]; [left; auto|right; left; auto|].
    right. right. exists tr. split; [|done].
    rewrite Ht. by apply lookup_app_l_Some.
  - intros gl sl Hsl. destruct (Hgl _ _ Hsl) as [Hold|Hnew]; [|done].
    destruct (HC _ _ Hold) as (Hr & tr & Htr & Hm).
    split; [done|]. exists tr. split; [|done].
    rewrite Ht. by apply lookup_app_l_Some.
Qed.

Lemma last_index {A} (l : list A) a : length (l ++ [a]) - 1 = length l.
Proof. rewrite length_app. simpl. lia. Qed.

Lemma lookup_last {A} (l : list A) a : (l ++ [a]) !! length l = Some a.
Proof. rewrite lookup_app_r by lia. by rewrite Nat.sub_diag. Qed.

Lemma add_scatter_ok n key l tr xk sk fg :
  known n l →
  build_point_map l xk sk = List.map point_indices (t_points tr) →
  fig_ok n fg → fig_ok n (add_scatter key l tr xk sk fg).
Proof.
  intros Hl Hpm Hok. apply (fig_ok_grow n fg _ [tr]); [done|done|..].
  - intros i. apply vm_get_append_mono.
  - intros i. apply vm_get_append_mono.
  - intros ti pm. unfold add_scatter, set_point_map. simpl.
    rewrite last_index. intros Hti.
    apply lookup_insert_Some in Hti as [[<- <-]|[_ Hti]]; [|by left].
    right. split_and!.
    + rewrite length_app. simpl. lia.
    + by apply known_point_map.
    + right. right. exists tr. split; [apply lookup_last|done].
  - intros gl sl Hsl. by left.
Qed.

Lemma add_line_ok n global fg tr :
  Forall (fun si => si < n) global →
  t_mode tr = lit "lines" →
  length (t_x tr) = 3 * length global → length (t_y tr) = 3 * length global →
  fig_ok n fg → fig_ok n (add_line global fg tr).
Proof.
  intros Hg Hm Hx Hy Hok. apply (fig_ok_grow n fg _ [tr]); [done|done|..].
  - intros i Hi. unfold add_line. simpl. by do 2 apply vm_get_append_mono.
  - intros i Hi. unfold add_line. simpl. by do 2 apply vm_get_append_mono.
  - intros ti pm Hti. by left.
  - intros gl sl. unfold add_line. simpl. rewrite last_index. intros Hsl.
    apply lookup_insert_Some in Hsl as [[<- <-]|[_ Hsl]]; [|by left].
    right. split; [done|]. exists tr. split; [apply lookup_last|done].
Qed.

Lemma vm_get_reset_fresh key v vm :
  vm_get vm key = [] → vm_get (vm_reset key vm) v = vm_get vm v.
Proof.
  intros He. destruct (decide (v = key)) as [->|Hv].
  - by rewrite vm_get_reset_eq.
  - by apply vm_get_reset_ne.
Qed.

Lemma new_view_ok n key fg :
  (key = v_business_model ∨ key = v_ownership →
   vm_get (visibility_map fg) key = []) →
  fig_ok n fg → fig_ok n (new_view key fg).
Proof.
  intros He Hok.
  assert (∀ v, v = v_business_model ∨ v = v_ownership →
               vm_get (vm_reset key (visibility_map fg)) v
               = vm_get (visibility_map fg) v) as Hsame.
  { intros v Hv. destruct (decide (v = key)) as [->|Hne].
    - by rewrite vm_get_reset_eq, He.
    - by apply vm_get_reset_ne. }
  apply (fig_ok_grow n fg _ []).
  - done.
  - simpl. by rewrite app_nil_r.
  - intros i. simpl. rewrite Hsame; [done|by left].
  - intros i. simpl. rewrite Hsame; [done|by right].
  - intros ti pm Hti. by left.
  - intros gl sl Hsl. by left.
Qed.

Lemma add_bm_trace_ok n bm fg tr :
  known n bm → v_business_model ∈ vm_keys fg →
  fig_ok n fg → fig_ok n (add_bm_trace bm fg tr).
Proof.
  intros Hl Hk Hok. apply (fig_ok_grow n fg _ [tr]); [done|done|..].
  - intros i. apply vm_get_append_mono.
  - intros i. apply vm_get_append_mono.
  - intros ti pm. unfold add_bm_trace, set_point_map. simpl.
    rewrite last_index. intros Hti.
    apply lookup_insert_Some in Hti as [[<- <-]|[_ Hti]]; [|by left].
    right. split_and!.
    + rewrite length_app. simpl. lia.
    + by apply known_point_map, known_filter.
    + left. rewrite vm_get_append_eq by done. apply elem_of_app. right. by left.
  - intros gl sl Hsl. by left.
Qed.

Lemma rebuild_bm_ok n bm fg i :
  known n bm → i ∈ vm_get (visibility_map fg) v_business_model →
  fig_ok n fg → fig_ok n (rebuild_bm bm fg i).
Proof.
  intros Hl Hi Hok. unfold rebuild_bm.
  destruct (traces fg !! i) as [tr|] eqn:Etr; [|done].
  destruct (key_of_label _ _) as [cat_key|]; [|done].
  apply (fig_ok_grow n fg _ []); [done|by rewrite app_nil_r|done|done|..].
  - intros ti pm. simpl. intros Hti.
    apply lookup_insert_Some in Hti as [[<- <-]|[_ Hti]]; [|by left].
    right. split_and!.
    + by eapply lookup_lt_Some.
    + by apply known_point_map, known_filter.
    + by left.
  - intros gl sl Hsl. by left.
Qed.

Lemma add_ownership_trace_ok n studios fg tr :
  known n studios → v_ownership ∈ vm_keys fg →
  fig_ok n fg → fig_ok n (add_ownership_trace studios fg tr).
Proof.
  intros Hl Hk Hok. apply (fig_ok_grow n fg _ [tr]).
  - done.
  - unfold add_ownership_trace. by destruct (key_of_label _ _).
  - intros i. unfold add_ownership_trace. simpl.
    destruct (key_of_label _ _); apply vm_get_append_mono.
  - intros i. unfold add_ownership_trace. simpl.
    destruct (key_of_label _ _); apply vm_get_append_mono.
  - intros ti pm. unfold add_ownership_trace.
    destruct (key_of_label _ _) as [cat_key|]; simpl; [|by left].
    rewrite last_index. intros Hti.
    apply lookup_insert_Some in Hti as [[<- <-]|[_ Hti]]; [|by left].
    right. split_and!.
    + rewrite length_app. simpl. lia.
    + by apply known_point_map, known_filter.
    + right. left. rewrite vm_get_append_eq by done.
      apply elem_of_app. right. by left.
  - intros gl sl. unfold add_ownership_trace.
    destruct (key_of_label _ _); simpl; by left.
Qed.

(** *** The views *)

Lemma fold_inv {X} (P : figure -> Prop) (Q : X -> Prop)
    (f : figure -> X -> figure) xs fg :
  Forall Q xs → (∀ fg x, Q x → P fg → P (f fg x)) →
  P fg → P (fold_left f xs fg).
Proof.
  intros HQ Hf. revert fg.
  induction HQ as [|x xs Hx _ IH]; intros fg HP; simpl; [done|].
  apply IH. by apply Hf.
Qed.

Lemma view_founded_ok n d i fg :
  known n d → known n i → fig_ok n fg → fig_ok n (view_founded d i fg).
Proof.
  intros Hd Hi Hok. unfold view_founded. by repeat apply add_scatter_ok.
Qed.

Lemma view_current_ok n d i fg :
  known n d → known n i → fig_ok n fg → fig_ok n (view_current d i fg).
Proof.
  intros Hd Hi Hok. unfold view_current. by repeat apply add_scatter_ok.
Qed.

Lemma view_growth_markers_ok n d i fg :
  known n d → known n i → fig_ok n fg → fig_ok n (view_growth_markers d i fg).
Proof.
  intros Hd Hi Hok. unfold view_growth_markers. by repeat apply add_scatter_ok.
Qed.

Lemma known_indices n l : known n l → Forall (fun si => si < n) (List.map gidx l).
Proof.
  intros Hl. change (List.map ?g ?x) with (g <$> x). by apply Forall_fmap.
Qed.

Lemma fold_add_line_ok n l label lines fg :
  known n l → make_growth_line_traces l label = Some lines →
  fig_ok n fg → fig_ok n (fold_left (add_line (List.map gidx l)) lines fg).
Proof.
  intros Hl Hm. destruct (growth_lines_layout _ _ _ Hm) as [_ Hsh].
  apply (fold_inv (fig_ok n)
           (fun tr => t_mode tr = lit "lines"
                      ∧ length (t_x tr) = 3 * length l
                      ∧ length (t_y tr) = 3 * length l)).
  - apply Forall_forall. intros tr Htr.
    apply list_elem_of_lookup in Htr as [k Hk].
    destruct (Hsh _ _ Hk) as (? & _ & ? & ? & _). done.
  - intros fg' tr (Hmode & Hx & Hy) Hok.
    apply add_line_ok; [by apply known_indices|done|..|done];
      by rewrite length_map.
Qed.

Lemma view_growth_lines_ok n d i fg fg' :
  known n d → known n i →
  view_growth_lines d i fg = Some fg' → fig_ok n fg → fig_ok n fg'.
Proof.
  intros Hd Hi. unfold view_growth_lines. intros Hv Hok.
  destruct (make_growth_line_traces d _) as [ld|] eqn:Ed; simpl in Hv; [|done].
  destruct (make_growth_line_traces i _) as [li|] eqn:Ei; simpl in Hv; [|done].
  inversion Hv; subst fg'. clear Hv.
  eapply fold_add_line_ok; [done|exact Ei|].
  eapply fold_add_line_ok; [done|exact Ed|].
  apply new_view_ok; [|done]. intros [E|E]; by vm_compute in E.
Qed.

Lemma add_bm_trace_keys bm fg tr : vm_keys (add_bm_trace bm fg tr) = vm_keys fg.
Proof. unfold vm_keys, add_bm_trace. simpl. apply vm_keys_append. Qed.

Lemma fold_rebuild_bm_ok n bm l fg :
  known n bm →
  (∀ i, i ∈ l → i ∈ vm_get (visibility_map fg) v_business_model) →
  fig_ok n fg → fig_ok n (fold_left (rebuild_bm bm) l fg).
Proof.
  intros Hl. revert fg. induction l as [|i l IH]; intros fg Hin Hok; [done|].
  simpl. apply IH.
  - intros j Hj.
    destruct (fold_rebuild_bm_same bm [i] fg) as [_ Hv]. simpl in Hv.
    rewrite Hv. apply Hin. by right.
  - apply rebuild_bm_ok; [done| |done]. apply Hin. by left.
Qed.

Lemma view_business_model_ok n studios fg :
  known n studios →
  vm_get (visibility_map fg) v_business_model = [] →
  fig_ok n fg → fig_ok n (view_business_model studios fg).
Proof.
  intros Hl He Hok. unfold view_business_model.
  apply fold_rebuild_bm_ok; [by apply known_filter|done|].
  apply (fold_inv (fun fg => fig_ok n fg ∧ v_business_model ∈ vm_keys fg)
           (fun _ => True)).
  - by apply Forall_forall.
  - intros fg' tr _ [Hok' Hk]. split.
    + apply add_bm_trace_ok; [by apply known_filter|done|done].
    + by rewrite add_bm_trace_keys.
  - split; [by apply new_view_ok|apply new_view_key].
Qed.

Lemma add_ai_level_ok n rs rl fg lv :
  known n rs → fig_ok n fg → fig_ok n (add_ai_level rs rl fg lv).
Proof.
  intros Hl Hok. unfold add_ai_level.
  destruct (List.filter _ rs) as [|s0 l] eqn:E; [done|].
  apply add_scatter_ok; [|done|done]. rewrite <- E. by apply known_filter.
Qed.

Lemma view_ai_adoption_ok n d i fg :
  known n d → known n i → fig_ok n fg → fig_ok n (view_ai_adoption d i fg).
Proof.
  intros Hd Hi Hok. unfold view_ai_adoption.
  apply (fold_inv (fig_ok n) (fun _ => True)); [by apply Forall_forall|..].
  { intros. by apply add_ai_level_ok. }
  apply (fold_inv (fig_ok n) (fun _ => True)); [by apply Forall_forall|..].
  { intros. by apply add_ai_level_ok. }
  apply new_view_ok; [|done]. intros [E|E]; by vm_compute in E.
Qed.

Lemma view_revenue_ok n studios fg :
  known n studios → fig_ok n fg → fig_ok n (view_revenue studios fg).
Proof.
  intros Hl Hok. unfold view_revenue.
  assert (fig_ok n (new_view v_revenue fg)) as Hok'.
  { apply new_view_ok; [|done]. intros [E|E]; by vm_compute in E. }
  destruct (List.filter _ studios) as [|s0 l] eqn:E; [done|].
  apply add_scatter_ok; [|done|done]. rewrite <- E. by apply known_filter.
Qed.

Lemma add_ownership_trace_keys studios fg tr :
  vm_keys (add_ownership_trace studios fg tr) = vm_keys fg.
Proof.
  unfold vm_keys, add_ownership_trace. simpl. rewrite vm_keys_append.
  by destruct (key_of_label _ _).
Qed.

Lemma view_ownership_ok n studios fg :
  known n studios →
  vm_get (visibility_map fg) v_ownership = [] →
  fig_ok n fg → fig_ok n (view_ownership studios fg).
Proof.
  intros Hl He Hok. unfold view_ownership.
  apply (fold_inv (fun fg => fig_ok n fg ∧ v_ownership ∈ vm_keys fg)
           (fun _ => True)).
  - by apply Forall_forall.
  - intros fg' tr _ [Hok' Hk]. split.
    + by apply add_ownership_trace_ok.
    + by rewrite add_ownership_trace_keys.
  - split; [by apply new_view_ok|apply new_view_key].
Qed.

Lemma view_platform_ok n studios fg :
  known n studios → fig_ok n fg → fig_ok n (view_platform studios fg).
Proof.
  intros Hl Hok. unfold view_platform.
  apply (fold_inv (fig_ok n) (fun g => known n g.2)).
  - apply Forall_forall. intros g Hg. by eapply known_group.
  - intros fg' g Hg Hok'. unfold add_platform_group. by apply add_scatter_ok.
  - apply new_view_ok; [|done]. intros [E|E]; by vm_compute in E.
Qed.

Lemma add_profitability_ok n l name op col fg :
  known n l → fig_ok n fg → fig_ok n (add_profitability l name op col fg).
Proof.
  intros Hl Hok. unfold add_profitability.
  destruct l as [|s0 l]; [done|]. by apply add_scatter_ok.
Qed.

Lemma view_profitability_ok n studios fg :
  known n studios → fig_ok n fg → fig_ok n (view_profitability studios fg).
Proof.
  intros Hl Hok. unfold view_profitability.
  apply add_profitability_ok; [by apply known_filter|].
  apply add_profitability_ok; [by apply known_filter|].
  apply new_view_ok; [|done]. intros [E|E]; by vm_compute in E.
Qed.

(** *** The whole script *)

Lemma empty_figure_ok n : fig_ok n empty_figure.
Proof. split; intros k v Hk; simpl in Hk; by rewrite lookup_empty in Hk. Qed.

Lemma build_ok raw fg : build raw = Some fg → fig_ok (length raw) fg.
Proof.
  intros Hb. unfold build in Hb. cbv zeta in Hb.
  set (n := length raw).
  set (studios := load raw) in Hb.
  set (d := List.filter is_domestic studios) in Hb.
  set (i := List.filter is_international studios) in Hb.
  set (gd := List.filter is_domestic (List.filter is_growth studios)) in Hb.
  set (gi := List.filter is_international (List.filter is_growth studios)) in Hb.
  set (fg1 := view_founded d i empty_figure) in Hb.
  set (fg2 := view_current d i fg1) in Hb.
  set (fg3 := view_growth_markers gd gi fg2) in Hb.
  destruct (view_growth_lines gd gi fg3) as [fg4|] eqn:E4; simpl in Hb; [|done].
  set (fg5 := view_business_model studios fg4) in Hb.
  set (fg6 := view_ai_adoption d i fg5) in Hb.
  set (fg7 := view_revenue studios fg6) in Hb.
  set (fg8 := view_ownership studios fg7) in Hb.
  set (fg9 := view_platform studios fg8) in Hb.
  injection Hb as <-.
  assert (known n studios) as Hs by apply known_load.
  assert (known n d) as Hd by by apply known_filter.
  assert (known n i) as Hi by by apply known_filter.
  assert (known n gd) as Hgd by by do 2 apply known_filter.
  assert (known n gi) as Hgi by by do 2 apply known_filter.
  assert (∀ v, v ∈ [v_founded; v_current; v_growth] →
               v ∈ vm_keys empty_figure) as Hk0 by (intros v Hv; exact Hv).
  assert (builds v_founded (d ++ i) empty_figure fg1) as B1.
  { apply plots_builds; [done|]. apply view_founded_plots, Hk0. by left. }
  assert (builds v_current (d ++ i) fg1 fg2) as B2.
  { apply plots_builds.
    - by rewrite (builds_frame _ _ _ _ v_current B1) by by vm_compute.
    - apply view_current_plots. apply (builds_keys _ _ _ _ _ B1), Hk0.
      right. by left. }
  assert (v_growth ∈ vm_keys fg2) as Hk2.
  { apply (builds_keys _ _ _ _ _ B2), (builds_keys _ _ _ _ _ B1), Hk0.
    do 2 right. by left. }
  assert (builds v_growth ((((gd ++ gi) ++ gd) ++ gi) ++ []) fg2 fg4) as B3.
  { apply plots_builds.
    - rewrite (builds_frame _ _ _ _ v_growth B2) by by vm_compute.
      by rewrite (builds_frame _ _ _ _ v_growth B1) by by vm_compute.
    - eapply plots_trans; [by apply view_growth_markers_plots|].
      eapply view_growth_lines_plots; [exact E4|].
      eapply plots_keys; [by apply view_growth_markers_plots|done]. }
  pose proof (view_business_model_builds studios fg4) as B5. fold fg5 in B5.
  pose proof (view_ai_adoption_builds d i fg5) as B6. fold fg6 in B6.
  pose proof (view_revenue_builds studios fg6) as B7. fold fg7 in B7.
  assert (vm_get (visibility_map fg4) v_business_model = []) as Ebm.
  { rewrite (builds_frame _ _ _ _ v_business_model B3) by by vm_compute.
    rewrite (builds_frame _ _ _ _ v_business_model B2) by by vm_compute.
    by rewrite (builds_frame _ _ _ _ v_business_model B1) by by vm_compute. }
  assert (vm_get (visibility_map fg7) v_ownership = []) as Eown.
  { rewrite (builds_frame _ _ _ _ v_ownership B7) by by vm_compute.
    rewrite (builds_frame _ _ _ _ v_ownership B6) by by vm_compute.
    rewrite (builds_frame _ _ _ _ v_ownership B5) by by vm_compute.
    rewrite (builds_frame _ _ _ _ v_ownership B3) by by vm_compute.
    rewrite (builds_frame _ _ _ _ v_ownership B2) by by vm_compute.
    by rewrite (builds_frame _ _ _ _ v_ownership B1) by by vm_compute. }
  apply view_profitability_ok; [done|].
  apply view_platform_ok; [done|].
  apply view_ownership_ok; [done|done|].
  apply view_revenue_ok; [done|].
  apply view_ai_adoption_ok; [done|done|].
  apply view_business_model_ok; [done|done|].
  apply (view_growth_lines_ok n gd gi fg3); [done|done|done|].
  apply view_growth_markers_ok; [done|done|].
  apply view_current_ok; [done|done|].
  apply view_founded_ok; [done|done|].
  apply empty_figure_ok.
Qed.

(** *** What the page can rely on *)

Lemma studios_lookup raw si :
  si < length raw →
  ∃ js, Js.studios_js (load raw) !! si = Some js ∧ Js.idx js = si.
Proof.
  intros Hsi. unfold Js.studios_js. rewrite list_lookup_imap.
  destruct (load raw !! si) as [s|] eqn:E.
  - simpl. by eexists.
  - apply lookup_ge_None in E. unfold load in E. rewrite length_imap in E. lia.
Qed.

(** Every position a point map or a line table gives the page is the
    position of a studio: [STUDIOS] has an entry there, whose [idx] is that
    position, so [matchResults[si]] is never read past the end.  The tables
    themselves belong to traces of the figure. *)
Theorem tables_index_studios (raw : list studio) (fg : figure) :
  build raw = Some fg →
  let T := Js.tables_of raw fg in
  length (Js.STUDIOS T) = length raw
  ∧ (∀ ti pm, Js.TRACE_POINT_MAP T !! ti = Some pm →
       ti < length (traces fg)
       ∧ ∀ pi ms si, pm !! pi = Some ms → si ∈ ms →
           ∃ js, Js.STUDIOS T !! si = Some js ∧ Js.idx js = si)
  ∧ (∀ gl sl, Js.GROWTH_LINE_STUDIOS T !! gl = Some sl →
       gl < length (traces fg)
       ∧ ∀ si, si ∈ sl →
           ∃ js, Js.STUDIOS T !! si = Some js ∧ Js.idx js = si).
Proof.
  intros Hb T. destruct (build_ok _ _ Hb) as [HA HC].
  assert (∀ si, si < length raw →
                ∃ js, Js.STUDIOS T !! si = Some js ∧ Js.idx js = si) as Hst.
  { intros si Hsi. apply (studios_lookup raw si Hsi). }
  split_and!.
  - simpl. unfold Js.studios_js, load. by rewrite !length_imap.
  - intros ti pm Hpm. destruct (HA _ _ Hpm) as (Hlt & Hr & _).
    split; [done|]. intros pi ms si Hms Hsi. apply Hst.
    rewrite Forall_forall in Hr.
    pose proof (Hr ms (list_elem_of_lookup_2 _ _ _ Hms)) as Hms'.
    rewrite Forall_forall in Hms'. by apply Hms'.
  - intros gl sl Hsl. destruct (HC _ _ Hsl) as (Hr & tr & Htr & _).
    split; [by eapply lookup_lt_Some|]. intros si Hsi. apply Hst.
    rewrite Forall_forall in Hr. by apply Hr.
Qed.

Lemma tables_index_studios_witness :
  length (Js.STUDIOS Sample.T) = length Sample.raw.
Proof.
  exact (proj1 (tables_index_studios Sample.raw Sample.fig sample_build)).
Defined.

Lemma views_apart vm v1 v2 i :
  vm_disjoint vm → v1 ≠ v_growth_lines → v2 ≠ v_growth_lines →
  i ∈ vm_get vm v1 → i ∈ vm_get vm v2 → v1 = v2.
Proof.
  intros Hd H1 H2 Hi1 Hi2.
  pose proof (Coordinator.view_holding_get vm v1 i Hd H1 Hi1) as E1.
  pose proof (Coordinator.view_holding_get vm v2 i Hd H2 Hi2) as E2.
  congruence.
Qed.

(** In the views whose series are plain scatters (all but ['business_model']
    and ['ownership']) the point map of a trace has one entry per point of
    the trace, in the order of the points, and entry [pi] lists the studios
    merged into point [pi]. *)
Theorem point_maps_match (raw : list studio) (fg : figure) (view : str)
    (ti : nat) (pm : list (list nat)) :
  build raw = Some fg →
  view ∈ [v_founded; v_current; v_growth; v_ai_adoption; v_revenue;
          v_platform; v_profitability] →
  ti ∈ vm_get (visibility_map fg) view →
  trace_point_maps fg !! ti = Some pm →
  ∃ tr, traces fg !! ti = Some tr
        ∧ pm = List.map point_indices (t_points tr)
        ∧ length pm = length (t_points tr)
        ∧ ∀ pi p, t_points tr !! pi = Some p →
            pm !! pi = Some (List.map gidx (members p)).
Proof.
  intros Hb Hv Hti Hpm. destruct (build_ok _ _ Hb) as [HA _].
  destruct (build_wf _ _ Hb) as [_ Hdis].
  assert (view ≠ v_growth_lines ∧ view ≠ v_business_model
          ∧ view ≠ v_ownership) as (N1 & N2 & N3).
  { repeat (apply elem_of_cons in Hv as [->|Hv];
            [split_and!; by vm_compute|]).
    by apply elem_of_nil in Hv. }
  destruct (HA _ _ Hpm) as (_ & _ & [Hd|[Hd|(tr & Htr & ->)]]).
  - exfalso. apply N2.
    apply (views_apart _ _ _ ti Hdis); [done|by vm_compute|done|done].
  - exfalso. apply N3.
    apply (views_apart _ _ _ ti Hdis); [done|by vm_compute|done|done].
  - exists tr. split_and!; [done|done|by rewrite length_map|].
    intros pi p Hp. change (List.map ?g ?x) with (g <$> x).
    rewrite list_lookup_fmap, Hp. simpl. by rewrite point_indices_members.
Qed.

Lemma point_maps_match_witness :
  ∃ tr, traces Sample.fig !! 2 = Some tr
        ∧ [[0; 1]; [3]] = List.map point_indices (t_points tr).
Proof.
  destruct (point_maps_match Sample.raw Sample.fig v_current 2 [[0; 1]; [3]])
    as (tr & Htr & Hpm & _).
  - exact sample_build.
  - right. left.
  - assert (vm_get (visibility_map Sample.fig) v_current = [2; 3]) as ->
      by by vm_compute.
    left.
  - by vm_compute.
  - by exists tr.
Defined.

Lemma array_set_length i v arr :
  i < length arr → length (Js.array_set i v arr) = length arr.
Proof.
  intros Hi. unfold Js.array_set. rewrite bool_decide_eq_true_2 by done.
  apply length_insert.
Qed.

Lemma break_segments_length mr sl arr :
  3 * length sl ≤ length arr →
  length (Js.break_segments mr sl arr) = length arr.
Proof.
  intros Hl. unfold Js.break_segments.
  assert (∀ l a, (∀ si, si ∈ l → si < length sl) →
                 length a = length arr →
                 length (fold_left (Js.break_segment mr sl) l a) = length arr)
    as Hfold.
  { induction l as [|si l IH]; intros a Hin Ha; simpl; [done|].
    apply IH; [intros sj Hsj; apply Hin; by right|].
    assert (si < length sl) as Hsi by (apply Hin; by left).
    unfold Js.break_segment. destruct (Js.matched _ _); [done|].
    rewrite !array_set_length; [done|lia|]. rewrite array_set_length; lia. }
  apply Hfold; [|done]. intros si Hsi. apply elem_of_seq in Hsi. lia.
Qed.

(** An entry of the line table belongs to a line trace that has exactly
    three coordinates per studio of the entry, in [x] and in [y]; the
    filter, which writes [null] at [3 si] and [3 si + 1], therefore stays
    inside the arrays and never makes them longer. *)
Theorem line_tables_match (raw : list studio) (fg : figure) (gl : nat)
    (sl : list nat) :
  build raw = Some fg →
  growth_line_studio_indices fg !! gl = Some sl →
  ∃ tr, traces fg !! gl = Some tr
        ∧ t_mode tr = lit "lines"
        ∧ length (t_x tr) = 3 * length sl
        ∧ length (t_y tr) = 3 * length sl
        ∧ ∀ mr,
            length (Js.break_segments mr sl (List.map Js.jnum_of (t_x tr)))
            = length (t_x tr)
            ∧ length (Js.break_segments mr sl (List.map Js.jnum_of (t_y tr)))
              = length (t_y tr).
Proof.
  intros Hb Hsl. destruct (build_ok _ _ Hb) as [_ HC].
  destruct (HC _ _ Hsl) as (_ & tr & Htr & Hm & Hx & Hy).
  exists tr. split_and!; [done..|].
  intros mr. rewrite !break_segments_length; rewrite ?length_map; [done|lia|lia].
Qed.

Lemma line_tables_match_witness :
  ∃ tr, traces Sample.fig !! 8 = Some tr ∧ length (t_x tr) = 3 * 2.
Proof.
  destruct (line_tables_match Sample.raw Sample.fig 8 [0; 1])
    as (tr & Htr & _ & Hx & _).
  - exact sample_build.
  - by vm_compute.
  - by exists tr.
Defined.

(** The visibility table of the figure: every index it lists is the index
    of a trace; the key ['growth_lines'] apart, no trace is listed under two
    views; and [make_visibility] gives one flag per trace, [True] exactly at
    the indices listed under the view. *)
Theorem visibility_table_wf (raw : list studio) (fg : figure) :
  build raw = Some fg →
  (∀ view i, i ∈ vm_get (visibility_map fg) view → i < length (traces fg))
  ∧ (∀ v1 v2 i, v1 ≠ v_growth_lines → v2 ≠ v_growth_lines →
       i ∈ vm_get (visibility_map fg) v1 → i ∈ vm_get (visibility_map fg) v2 →
       v1 = v2)
  ∧ (∀ view i, i < length (traces fg) →
       make_visibility fg view !! i
       = Some (bool_decide (i ∈ vm_get (visibility_map fg) view))).
Proof.
  intros Hb. destruct (build_wf _ _ Hb) as [Hr Hd]. split_and!.
  - intros view i Hi.
    destruct (Coordinator.vm_get_entry _ _ _ Hi) as (l & Hin & Hil).
    unfold vm_range in Hr. rewrite Forall_forall in Hr.
    specialize (Hr _ Hin). simpl in Hr. rewrite Forall_forall in Hr. auto.
  - intros v1 v2 i. by apply views_apart.
  - intros view i. apply Coordinator.make_visibility_lookup.
Qed.

Lemma visibility_table_wf_witness : 2 < length (traces Sample.fig).
Proof.
  apply (proj1 (visibility_table_wf Sample.raw Sample.fig sample_build)
           v_current 2).
  assert (vm_get (visibility_map Sample.fig) v_current = [2; 3]) as ->
    by by vm_compute.
  left.
Defined.

(** *** Views that plot every studio once *)

Lemma covered_members (ps : list point) :
  List.flat_map point_indices ps
  = List.map gidx (List.concat (List.map members ps)).
Proof.
  induction ps as [|p ps IH]; simpl; [done|].
  by rewrite List.map_app, point_indices_members, IH.
Qed.

Lemma covered_merged l xk sk tr :
  t_points tr = merge_overlapping l xk sk →
  Permutation (covered tr) (List.map gidx l).
Proof.
  intros Hp. unfold covered. rewrite Hp, covered_members.
  apply Permutation_map, members_perm.
Qed.

Lemma covered_groups (f : str * list studio -> trace) xk sk groups :
  (∀ g, t_points (f g) = merge_overlapping g.2 xk sk) →
  Permutation (List.flat_map covered (List.map f groups))
              (List.map gidx (List.concat (List.map snd groups))).
Proof.
  intros Hf. induction groups as [|g gs IH]; simpl; [done|].
  rewrite List.map_app. apply Permutation_app; [|done].
  apply (covered_merged _ xk sk), Hf.
Qed.

Lemma filter_split {A} (f : A -> bool) l :
  Permutation (List.filter (fun a => negb (f a)) l ++ List.filter f l) l.
Proof.
  induction l as [|a l IH]; simpl; [done|].
  destruct (f a); simpl.
  - rewrite <- Permutation_middle. by constructor.
  - by constructor.
Qed.

Lemma gidx_load raw : List.map gidx (load raw) = seq 0 (length raw).
Proof.
  unfold load. apply list_eq. intros i.
  change (List.map ?g ?x) with (g <$> x).
  rewrite list_lookup_fmap, list_lookup_imap.
  destruct (raw !! i) as [r|] eqn:E; simpl.
  - symmetry. apply lookup_seq. split; [done|]. by eapply lookup_lt_Some.
  - symmetry. apply lookup_ge_None. rewrite length_seq.
    by apply lookup_ge_None.
Qed.

Lemma flat_map_singleton {A} (l : list A) : List.flat_map (fun a => [a]) l = l.
Proof. induction l as [|a l IH]; simpl; [done|by rewrite IH]. Qed.

Lemma view_ownership_stage studios fg :
  stage v_ownership
    (make_categorical_scatter studios k_ownership_type
       COLOR_PALETTES_ownership_type LABEL_NAMES_ownership_type
       k_original_score k_size_current_num)
    fg (view_ownership studios fg).
Proof.
  apply emits_new_view. unfold view_ownership.
  rewrite <- (flat_map_singleton (make_categorical_scatter _ _ _ _ _ _)) at 1.
  apply emits_fold; [|apply new_view_key].
  intros fg' tr Hk. unfold add_ownership_trace.
  apply (emits_one _ tr fg'); [by destruct (key_of_label _ _)..|done].
Qed.

Lemma view_platform_stage studios fg :
  stage v_platform
    (List.map
       (fun g : str * list studio =>
          inline_scatter g.2 k_original_score k_size_current_num
            plot_score plot_size g.1 1
            (Some (dict_get COLOR_PALETTES_primary_platform_color g.1 grey)))
       (group_by get_primary_platform eqb studios))
    fg (view_platform studios fg).
Proof.
  apply emits_new_view. unfold view_platform.
  rewrite <- (flat_map_singleton (List.map _ _)), flat_map_concat_map.
  rewrite List.map_map, <- flat_map_concat_map.
  apply emits_fold; [|apply new_view_key].
  intros fg' g Hk. unfold add_platform_group, add_scatter.
  by apply (emits_one _ _ fg').
Qed.

Lemma add_profitability_emits l name op col fg :
  v_profitability ∈ vm_keys fg →
  ∃ news, emits v_profitability news fg (add_profitability l name op col fg)
          ∧ Permutation (List.flat_map covered news) (List.map gidx l).
Proof.
  intros Hk. unfold add_profitability. destruct l as [|s0 l].
  - exists []. split; [apply emits_refl|done].
  - exists [inline_scatter (s0 :: l) k_founded k_size_current_num
              plot_founded plot_size name op (Some col)].
    split; [by apply (emits_one _ _ fg)|].
    cbn [List.flat_map]. rewrite app_nil_r.
    by apply (covered_merged _ k_founded k_size_current_num).
Qed.

Lemma view_profitability_stage studios fg :
  ∃ news, stage v_profitability news fg (view_profitability studios fg)
          ∧ Permutation (List.flat_map covered news) (List.map gidx studios).
Proof.
  unfold view_profitability.
  destruct (add_profitability_emits
              (List.filter (fun s => negb (has_num k_years_to_profitability s))
                 studios)
              (lit "黒字化データなし") (1 # 2) (lit "#999")
              (new_view v_profitability fg) (new_view_key _ _))
    as (n1 & E1 & P1).
  destruct (add_profitability_emits
              (List.filter (has_num k_years_to_profitability) studios)
              (lit "黒字化データあり") 1 (lit "#2E7D32") _
              (emits_keys _ _ _ _ E1 (new_view_key _ _)))
    as (n2 & E2 & P2).
  exists (n1 ++ n2). split.
  - apply emits_new_view. by eapply emits_trans.
  - rewrite flat_map_app, P1, P2, <- List.map_app. by rewrite filter_split.
Qed.

(** The views ['ownership'], ['platform'] and ['profitability'] plot every
    studio exactly once: the studios covered by the series of the view, read
    point by point, are the positions [0 .. n - 1] in some order. *)
Theorem full_views_plot_once (raw : list studio) (fg : figure) (view : str) :
  build raw = Some fg →
  view ∈ [v_ownership; v_platform; v_profitability] →
  Permutation (view_covered fg view) (seq 0 (length raw))
  ∧ NoDup (view_covered fg view).
Proof.
  intros Hb Hv.
  assert (Permutation (view_covered fg view) (seq 0 (length raw))) as HP.
  { unfold build in Hb. cbv zeta in Hb.
    set (studios := load raw) in Hb.
    destruct (view_growth_lines _ _ _) as [fg4|]; simpl in Hb; [|done].
    set (fg7 := view_revenue studios _) in Hb.
    set (fg8 := view_ownership studios fg7) in Hb.
    set (fg9 := view_platform studios fg8) in Hb.
    injection Hb as <-.
    pose proof (view_ownership_stage studios fg7) as S8. fold fg8 in S8.
    pose proof (view_platform_stage studios fg8) as S9. fold fg9 in S9.
    destruct (view_profitability_stage studios fg9) as (n10 & S10 & P10).
    rewrite <- gidx_load. fold studios. unfold view_covered.
    assert (shown v_ownership
              (make_categorical_scatter studios k_ownership_type
                 COLOR_PALETTES_ownership_type LABEL_NAMES_ownership_type
                 k_original_score k_size_current_num)
              (view_profitability studios fg9)) as H8.
    { apply (stage_keeps _ _ _ _ _ _ S10); [done..|].
      apply (stage_keeps _ _ _ _ _ _ S9); [done..|].
      by apply (stage_shown _ _ fg7). }
    pose proof (stage_keeps _ _ _ _ v_platform _ S10 ltac:(done) ltac:(done)
                  (stage_shown _ _ _ _ S9)) as H9.
    pose proof (stage_shown _ _ _ _ S10) as H10.
    repeat (apply elem_of_cons in Hv as [->|Hv]); [..|by apply elem_of_nil in Hv].
    - rewrite (shown_view_traces _ _ _ H8).
      unfold make_categorical_scatter.
      rewrite (covered_groups _ k_original_score k_size_current_num) by done.
      by rewrite group_by_perm.
    - rewrite (shown_view_traces _ _ _ H9).
      rewrite (covered_groups _ k_original_score k_size_current_num) by done.
      by rewrite group_by_perm.
    - by rewrite (shown_view_traces _ _ _ H10). }
  split; [done|]. rewrite HP. apply NoDup_seq.
Qed.

Lemma full_views_plot_once_witness :
  Permutation (view_covered Sample.fig v_platform) (seq 0 (length Sample.raw)).
Proof.
  apply (full_views_plot_once Sample.raw Sample.fig v_platform).
  - exact sample_build.
  - right. left.
Defined.

End Tables.
